(** * jdb: a file-per-record JSON document store

    A shallow embedding of the Go package [jdb] (the [Driver] with its
    [New], [Write], [Read], [ReadAll], [Update] and [Delete] methods) over
    an executable model of the part of the operating system the package
    talks to: slash-separated path strings, a directory tree, and the
    handful of [os], [ioutil] and [path/filepath] calls the driver makes.

    Layout of the development:
    - [Str], [Filepath]: Go strings, [filepath.Clean] and [filepath.Join];
    - [Tree]: the directory tree and its pure operations;
    - [Sys]: the state of a run (file system, fault schedule, call
      history, log, lock registry) and the system calls as state
      transformers;
    - [Jdb]: the driver, method by method;
    - [Scenario]: a codec and a few small stores to run the driver on;
    - the facts about each layer, some runs, and in [Properties] the
      properties of the store. *)

From Stdlib Require Import String Ascii List Bool Lia.
Import ListNotations.
Open Scope string_scope.
Open Scope list_scope.

(** Go's [+] on strings. *)
Infix "+++" := String.append (right associativity, at level 60).

(* ================================================================== *)
(** * Strings as Go uses them *)
(* ================================================================== *)

Module Str.

(** [strings.Split(s, "/")]: the pieces between separators, never an
    empty list. *)
Fixpoint split (s : string) : list string :=
  match s with
  | EmptyString => [EmptyString]
  | String c s' =>
      if Ascii.eqb c "/" then EmptyString :: split s'
      else match split s' with
           | [] => [String c EmptyString]
           | h :: t => String c h :: t
           end
  end.

(** [strings.Join(elems, "/")]. *)
Fixpoint join (cs : list string) : string :=
  match cs with
  | [] => EmptyString
  | [c] => c
  | c :: rest => c +++ "/" +++ join rest
  end.

(** No separator occurs in [s]. *)
Fixpoint slash_free (s : string) : bool :=
  match s with
  | EmptyString => true
  | String c s' => negb (Ascii.eqb c "/") && slash_free s'
  end.

(** The first [n] bytes of [s] (all of it when [s] is shorter). *)
Fixpoint take (n : nat) (s : string) : string :=
  match n, s with
  | S n', String c s' => String c (take n' s')
  | _, _ => EmptyString
  end.

(** [s[0] == '/']. *)
Definition rooted (s : string) : bool :=
  match s with
  | String c _ => Ascii.eqb c "/"
  | EmptyString => false
  end.

End Str.

(* ================================================================== *)
(** * path/filepath on a Unix system *)
(* ================================================================== *)

Module Filepath.

(** A path element that names something: not empty, not [.], not [..]. *)
Definition real (c : string) : bool :=
  negb (String.eqb c "") && negb (String.eqb c ".") && negb (String.eqb c "..").

(** One element of the scan in [filepath.Clean].  [out] is the output
    so far, last element first.  An empty element and [.] are dropped;
    [..] removes the element before it when there is one to remove, is
    kept at the start of a path that is not rooted, and is dropped at
    the start of a rooted one. *)
Definition clean_step (rooted : bool) (out : list string) (c : string)
  : list string :=
  if String.eqb c "" then out
  else if String.eqb c "." then out
  else if String.eqb c ".." then
    match out with
    | top :: below =>
        if String.eqb top ".." then c :: out else below
    | [] => if rooted then out else [c]
    end
  else c :: out.

Definition render (rooted : bool) (out : list string) : string :=
  if rooted then "/" +++ Str.join (rev out)
  else match out with
       | [] => "."
       | _ => Str.join (rev out)
       end.

(** [filepath.Clean]. *)
Definition Clean (path : string) : string :=
  match path with
  | EmptyString => "."
  | _ => render (Str.rooted path)
           (fold_left (clean_step (Str.rooted path)) (Str.split path) [])
  end.

(** [filepath.Join]: the elements from the first one that is not empty
    on, joined by separators and cleaned; the empty string when there
    is none. *)
Fixpoint Join (elem : list string) : string :=
  match elem with
  | [] => ""
  | e :: rest =>
      if String.eqb e "" then Join rest else Clean (Str.join elem)
  end.

(** All [..]. *)
Fixpoint dots (out : list string) : bool :=
  match out with
  | [] => true
  | c :: below => String.eqb c ".." && dots below
  end.

(** The shape of the output of the scan, last element first: names on top
    of a run of [..], which is empty in a rooted path; no separator inside
    an element. *)
Fixpoint normal (r : bool) (out : list string) : bool :=
  match out with
  | [] => true
  | c :: below =>
      Str.slash_free c &&
      (if String.eqb c ".." then negb r && dots below
       else real c && normal r below)
  end.

End Filepath.

(* ================================================================== *)
(** * The directory tree *)
(* ================================================================== *)

(** The error numbers the model can produce or inject. *)
Inductive errno :=
| ENOENT | ENOTDIR | EISDIR | EEXIST | EINVAL | EBUSY
| EACCES | EIO | ENOSPC.

Module Tree.

#[local] Set Warnings "-register-all".

(** A regular file with its bytes, or a directory with its entries. *)
Inductive node :=
| File (data : string)
| Dir (entries : list (string * node)).

Definition entries_t := list (string * node).

Fixpoint find_entry (name : string) (es : entries_t) : option node :=
  match es with
  | [] => None
  | (k, n) :: rest => if String.eqb k name then Some n else find_entry name rest
  end.

(** Replace the entry called [name], or add it at the end. *)
Fixpoint set_entry (name : string) (n : node) (es : entries_t) : entries_t :=
  match es with
  | [] => [(name, n)]
  | (k, m) :: rest =>
      if String.eqb k name then (k, n) :: rest
      else (k, m) :: set_entry name n rest
  end.

Fixpoint remove_entry (name : string) (es : entries_t) : entries_t :=
  match es with
  | [] => []
  | (k, m) :: rest =>
      if String.eqb k name then remove_entry name rest
      else (k, m) :: remove_entry name rest
  end.

(** Walk down from [n] along the names in [p]. *)
Fixpoint lookup (p : list string) (n : node) : errno + node :=
  match p with
  | [] => inr n
  | c :: p' =>
      match n with
      | File _ => inl ENOTDIR
      | Dir es =>
          match find_entry c es with
          | None => inl ENOENT
          | Some child => lookup p' child
          end
      end
  end.

(** Change what is at [p]: [f] sees what is there ([None] when the last
    name is free) and answers with the node to put there, [None] to
    remove the entry, or an error.  Every directory on the way must
    exist. *)
Fixpoint alter_at (p : list string)
    (f : option node -> errno + option node) (cur : option node)
  : errno + option node :=
  match p with
  | [] => f cur
  | c :: p' =>
      match cur with
      | None => inl ENOENT
      | Some (File _) => inl ENOTDIR
      | Some (Dir es) =>
          match alter_at p' f (find_entry c es) with
          | inl e => inl e
          | inr (Some child) => inr (Some (Dir (set_entry c child es)))
          | inr None => inr (Some (Dir (remove_entry c es)))
          end
      end
  end.

(** The tree after [mkdir -p]: directories on the way are entered,
    missing ones are made, a regular file on the way is an error. *)
Fixpoint mkdir_all (p : list string) (cur : option node) : errno + node :=
  match cur with
  | Some (File _) => inl ENOTDIR
  | Some (Dir es) =>
      match p with
      | [] => inr (Dir es)
      | c :: p' =>
          match mkdir_all p' (find_entry c es) with
          | inl e => inl e
          | inr child => inr (Dir (set_entry c child es))
          end
      end
  | None =>
      match p with
      | [] => inr (Dir [])
      | c :: p' =>
          match mkdir_all p' None with
          | inl e => inl e
          | inr child => inr (Dir [(c, child)])
          end
      end
  end.

Definition put_file (data : string) (cur : option node) : errno + option node :=
  match cur with
  | Some (Dir _) => inl EISDIR
  | _ => inr (Some (File data))
  end.

Definition write_file (p : list string) (data : string) (root : node)
  : errno + node :=
  match alter_at p (put_file data) (Some root) with
  | inl e => inl e
  | inr (Some r) => inr r
  | inr None => inl EINVAL
  end.

(** Remove [p] and everything below it.  Nothing to remove is a
    success; the root itself cannot be removed. *)
Definition remove_all (p : list string) (root : node) : errno + node :=
  match p with
  | [] => inl EBUSY
  | _ =>
      match alter_at p (fun _ => inr None) (Some root) with
      | inl ENOENT => inr root
      | inl e => inl e
      | inr (Some r) => inr r
      | inr None => inl EBUSY
      end
  end.

Fixpoint is_prefix (p q : list string) : bool :=
  match p, q with
  | [] , _ => true
  | a :: p', b :: q' => String.eqb a b && is_prefix p' q'
  | _ :: _, [] => false
  end.

Definition list_eqb (p q : list string) : bool :=
  is_prefix p q && is_prefix q p.

(** [rename(2)] as [os.Rename] calls it: Go first refuses a target that
    is a directory. *)
Definition rename (old new : list string) (root : node) : errno + node :=
  match lookup old root with
  | inl e => inl e
  | inr n =>
      match lookup new root with
      | inr (Dir _) => inl EEXIST
      | inl ENOTDIR => inl ENOTDIR
      | tgt =>
          if list_eqb old new then inr root
          else
            match n, tgt with
            | Dir _, inr (File _) => inl ENOTDIR
            | _, _ =>
                if is_prefix old new then inl EINVAL
                else
                  match remove_all old root with
                  | inl e => inl e
                  | inr r1 =>
                      match alter_at new (fun _ => inr (Some n)) (Some r1) with
                      | inl e => inl e
                      | inr (Some r2) => inr r2
                      | inr None => inl EINVAL
                      end
                  end
            end
      end
  end.

(** Insertion sort of names, bytewise, as [ioutil.ReadDir] sorts its
    result. *)
Fixpoint insert_name (x : string) (l : list string) : list string :=
  match l with
  | [] => [x]
  | y :: l' => if String.leb x y then x :: l else y :: insert_name x l'
  end.

Definition sort_names (l : list string) : list string :=
  fold_right insert_name [] l.

Definition is_dir (n : node) : bool :=
  match n with Dir _ => true | File _ => false end.

(** The bytes of the regular file at [p], if there is one. *)
Definition file_at (p : list string) (root : node) : option string :=
  match lookup p root with
  | inr (File data) => Some data
  | _ => None
  end.

End Tree.

(* ================================================================== *)
(** * The state of a run and the system calls *)
(* ================================================================== *)

Module Sys.
Import Tree.

(** The file system: the tree and the working directory of the process
    (names from the root down). *)
Record FS := mkFS { cwd : list string; root : node }.

(** Where a path string leads, element by element; the position is kept
    innermost name first.  The driver hands the system only cleaned
    paths (with a suffix added to the last element), so [..] is
    resolved on the names alone. *)
Definition walk_step (pos : list string) (c : string) : list string :=
  if String.eqb c "" then pos
  else if String.eqb c "." then pos
  else if String.eqb c ".." then tl pos
  else c :: pos.

Definition locate (wd : list string) (path : string) : list string :=
  rev (fold_left walk_step (Str.split path)
         (if Str.rooted path then [] else rev wd)).

(** Where a walk begins, and the directory part of where a path leads. *)
Definition start (r : bool) (wd : list string) : list string :=
  if r then [] else rev wd.

Definition parent_loc (wd : list string) (s : string) : list string :=
  rev (fold_left walk_step (removelast (Str.split s)) (start (Str.rooted s) wd)).

(** Go's error values, as far as the driver meets them. *)
Inductive error :=
| PathError (op path : string) (e : errno)
| LinkError (op old new : string) (e : errno)
| Errorf (format : string) (args : list string)
| EncodeError (msg : string).

(** [os.IsNotExist]. *)
Definition os_IsNotExist (err : option error) : bool :=
  match err with
  | Some (PathError _ _ ENOENT) => true
  | Some (LinkError _ _ _ ENOENT) => true
  | _ => false
  end.

(** What the driver asks of an [os.FileInfo]. *)
Record FileInfo := mkInfo { Name : string; IsDir : bool }.

Definition IsRegular (fi : FileInfo) : bool := negb (IsDir fi).

(** The calls the driver makes. *)
Inductive call :=
| CStat (path : string)
| CMkdirAll (path : string)
| CWriteFile (path data : string)
| CRename (old new : string)
| CReadFile (path : string)
| CReadDir (path : string)
| CRemoveAll (path : string).

(** A failure the environment forces on a call (disk full, permission
    denied, an I/O error): the call fails with [e].  [Fail] changes
    nothing.  [FailAfter n] is a failure part of the way: a [WriteFile]
    leaves a file with the first [n] bytes, a [RemoveAll] of a directory
    has removed its first [n] entries (all of them, when the removal of
    the emptied directory itself is what fails); for the other calls it
    is as [Fail]. *)
Inductive fault :=
| Fail (e : errno)
| FailAfter (n : nat) (e : errno).

Definition fault_errno (f : fault) : errno :=
  match f with Fail e => e | FailAfter _ e => e end.

(** One entry of the call history: the call, how it ended, and the file
    system it left. *)
Record event := mkEvent { ev_call : call; ev_err : option errno; ev_fs : FS }.

Inductive level := TRACE | DEBUG | INFO | WARN | ERROR | FATAL.

(** A [Logger] value: the console logger of [lumber] at some level, or
    a logger the caller supplied. *)
Inductive Logger :=
| ConsoleLogger (lvl : level)
| CallerLogger (id : nat).

Record log_call := mkLog
  { lg_logger : Logger; lg_level : level; lg_format : string; lg_args : list string }.

(** Everything a method call can read or change.  [faults] is consumed
    one entry per system call ([None]: the call runs undisturbed; an
    empty schedule: no more failures are forced).  [registry] holds the
    keys of the driver's [mutexes] map. *)
Record World := mkWorld
  { fs : FS;
    faults : list (option fault);
    history : list event;
    logged : list log_call;
    registry : list string }.

(** State passing. *)
Definition M (A : Type) : Type := World -> A * World.

Definition ret {A} (a : A) : M A := fun w => (a, w).

Definition bind {A B} (m : M A) (k : A -> M B) : M B :=
  fun w => let (a, w') := m w in k a w'.

(** A directory without its first [n] entries; anything else, as it
    is. *)
Definition shorten (n : nat) (cur : option node) : errno + option node :=
  match cur with
  | Some (Dir es) => inr (Some (Dir (skipn n es)))
  | _ => inr cur
  end.

Definition torn (c : call) (f : fault) (t : FS) : node :=
  match c, f with
  | CWriteFile path data, FailAfter n _ =>
      match write_file (locate (cwd t) path) (Str.take n data) (root t) with
      | inr r => r
      | inl _ => root t
      end
  | CRemoveAll path, FailAfter n _ =>
      match alter_at (locate (cwd t) path) (shorten n) (Some (root t)) with
      | inr (Some r) => r
      | _ => root t
      end
  | _, _ => root t
  end.

Definition err_of {A} (r : errno + A) : option errno :=
  match r with inl e => Some e | inr _ => None end.

(** The world after a system call [c] that ended with [e] and left the
    tree [r]. *)
Definition advance (w : World) (c : call) (e : option errno) (r : node) : World :=
  let t := mkFS (cwd (fs w)) r in
  mkWorld t (tl (faults w)) (history w ++ [mkEvent c e t]) (logged w) (registry w).

(** A system call: the next entry of the fault schedule decides whether
    it runs ([normal]) or is made to fail; either way it is entered in
    the history. *)
Definition syscall {A} (c : call) (normal : FS -> errno + (A * node))
  : M (errno + A) :=
  fun w =>
    match faults w with
    | Some f :: _ =>
        (inl (fault_errno f), advance w c (Some (fault_errno f)) (torn c f (fs w)))
    | _ =>
        match normal (fs w) with
        | inl e => (inl e, advance w c (Some e) (root (fs w)))
        | inr (a, r') => (inr a, advance w c None r')
        end
    end.

(** A call on a path: the empty path names nothing.  The tree holds
    names of any bytes and of any length, and the calls take them: the
    limits of a real system are not in the tree. *)
Definition at_path {A} (path : string) (t : FS)
    (k : list string -> errno + A) : errno + A :=
  if String.eqb path "" then inl ENOENT else k (locate (cwd t) path).

(** A path within the limits of the system: no NUL byte, which Go
    refuses with [EINVAL], and at most 255 bytes to a name and 4095 to
    the path, beyond which the system answers [ENAMETOOLONG].  The calls
    are as modelled on the paths that fit. *)
Fixpoint has_nul (s : string) : bool :=
  match s with
  | EmptyString => false
  | String c s' => Ascii.eqb c "000" || has_nul s'
  end.

Definition fits (path : string) : bool :=
  negb (has_nul path)
  && Nat.leb (String.length path) 4095
  && forallb (fun c => Nat.leb (String.length c) 255) (Str.split path).

Definition base_name (path : string) : string :=
  last (Str.split path) "".

(** [os.Stat]. *)
Definition os_Stat (path : string) : M (option FileInfo * option error) :=
  bind (syscall (CStat path) (fun t =>
          at_path path t (fun loc =>
            match lookup loc (root t) with
            | inl e => inl e
            | inr n => inr (mkInfo (base_name path) (is_dir n), root t)
            end)))
    (fun r => ret match r with
                  | inl e => (None, Some (PathError "stat" path e))
                  | inr fi => (Some fi, None)
                  end).

(** [os.MkdirAll] works its way up from the path to the first parent
    that is there, and down again making directories.  [parent_path] is
    the parent it turns to: the path without its last element and the
    separators before it, unless that leaves nothing. *)
Fixpoint strip_tail (cs : list string) : list string :=
  match cs with
  | [] => []
  | c :: rest =>
      match strip_tail rest with
      | [] => if String.eqb c "" then [] else [c]
      | rest' => c :: rest'
      end
  end.

Definition parent_path (path : string) : option string :=
  let pre := Str.join (removelast (strip_tail (Str.split path))) in
  if String.eqb pre "" then None else Some pre.

(** The path an error of [os.MkdirAll] names: where it stopped.  That
    is the path itself when something is there (a regular file: not a
    directory) or when its parent is a directory or there is no parent
    to turn to (the directory could not be made); otherwise it is where
    the work on the parent stopped. *)
Fixpoint stops_at (fuel : nat) (t : FS) (path : string) : string :=
  match lookup (locate (cwd t) path) (root t) with
  | inr _ => path
  | inl _ =>
      match fuel, parent_path path with
      | S fuel', Some p =>
          match lookup (locate (cwd t) p) (root t) with
          | inr (Dir _) => path
          | _ => stops_at fuel' t p
          end
      | _, _ => path
      end
  end.

(** [os.MkdirAll]. *)
Definition os_MkdirAll (path : string) : M (option error) :=
  fun w =>
    let named := stops_at (length (Str.split path)) (fs w) path in
    bind (syscall (CMkdirAll path) (fun t =>
            at_path path t (fun loc =>
              match mkdir_all loc (Some (root t)) with
              | inl e => inl e
              | inr r => inr (tt, r)
              end)))
      (fun r => ret match r with
                    | inl e => Some (PathError "mkdir" named e)
                    | inr _ => None
                    end) w.

(** The operation an error of [WriteFile] or [ReadFile] names: opening
    the file, or writing to it, or reading from it. *)
Definition write_op (e : errno) : string :=
  match e with
  | ENOSPC | EIO => "write"
  | _ => "open"
  end.

Definition read_op (e : errno) : string :=
  match e with
  | EISDIR | EIO => "read"
  | _ => "open"
  end.

(** [ioutil.WriteFile]: create or truncate, then write. *)
Definition ioutil_WriteFile (path data : string) : M (option error) :=
  bind (syscall (CWriteFile path data) (fun t =>
          at_path path t (fun loc =>
            match write_file loc data (root t) with
            | inl e => inl e
            | inr r => inr (tt, r)
            end)))
    (fun r => ret match r with
                  | inl e => Some (PathError (write_op e) path e)
                  | inr _ => None
                  end).

(** [os.Rename]. *)
Definition os_Rename (old new : string) : M (option error) :=
  bind (syscall (CRename old new) (fun t =>
          at_path old t (fun lo =>
            at_path new t (fun ln =>
              match rename lo ln (root t) with
              | inl e => inl e
              | inr r => inr (tt, r)
              end))))
    (fun r => ret match r with
                  | inl e => Some (LinkError "rename" old new e)
                  | inr _ => None
                  end).

(** [ioutil.ReadFile]. *)
Definition ioutil_ReadFile (path : string) : M (string * option error) :=
  bind (syscall (CReadFile path) (fun t =>
          at_path path t (fun loc =>
            match lookup loc (root t) with
            | inl e => inl e
            | inr (Dir _) => inl EISDIR
            | inr (File data) => inr (data, root t)
            end)))
    (fun r => ret match r with
                  | inl e => ("", Some (PathError (read_op e) path e))
                  | inr data => (data, None)
                  end).

(** [ioutil.ReadDir]: the entries of a directory, sorted by name.  It
    opens the path and reads the entries: what is not a directory can
    be opened, and fails in the reading. *)
Definition readdir_op (t : FS) (path : string) : string :=
  match lookup (locate (cwd t) path) (root t) with
  | inr (File _) => if String.eqb path "" then "open" else "readdirent"
  | _ => "open"
  end.

Definition ioutil_ReadDir (path : string) : M (list FileInfo * option error) :=
  fun w =>
  let op := readdir_op (fs w) path in
  bind (syscall (CReadDir path) (fun t =>
          at_path path t (fun loc =>
            match lookup loc (root t) with
            | inl e => inl e
            | inr (File _) => inl ENOTDIR
            | inr (Dir es) =>
                inr (map (fun name =>
                            mkInfo name
                              (match find_entry name es with
                               | Some n => is_dir n
                               | None => false
                               end))
                       (sort_names (map fst es)), root t)
            end)))
    (fun r => ret match r with
                  | inl e => ([], Some (PathError op path e))
                  | inr fis => (fis, None)
                  end) w.

(** [os.RemoveAll] refuses a path whose last element is [.]. *)
Definition ends_with_dot (path : string) : bool :=
  String.eqb (base_name path) ".".

(** [os.RemoveAll]: the empty path is a success and a path that ends
    in [.] is refused, both before any call to the system; a path that
    does not exist is a success.  An error names the path of the call
    (the real call names the entry it could not remove, which may lie
    below). *)
Definition os_RemoveAll (path : string) : M (option error) :=
  if String.eqb path "" then ret None
  else if ends_with_dot path then ret (Some (PathError "RemoveAll" path EINVAL))
  else
    bind (syscall (CRemoveAll path) (fun t =>
            match remove_all (locate (cwd t) path) (root t) with
            | inl e => inl e
            | inr r => inr (tt, r)
            end))
      (fun r => ret match r with
                    | inl e => Some (PathError "unlinkat" path e)
                    | inr _ => None
                    end).

(** A call on a logger. *)
Definition log_to (l : Logger) (lvl : level) (format : string)
    (args : list string) : M unit :=
  fun w => (tt, mkWorld (fs w) (faults w) (history w)
                  (logged w ++ [mkLog l lvl format args]) (registry w)).

(** The error number inside an error value. *)
Definition errno_of (err : option error) : option errno :=
  match err with
  | Some (PathError _ _ e) => Some e
  | Some (LinkError _ _ _ e) => Some e
  | _ => None
  end.

(** [w'] is [w] after one system call [c] that ended with [e]: one entry
    of the schedule used, one entry added to the history, the file system
    of that entry in place. *)
Definition stepped (w w' : World) (c : call) (e : option errno) : Prop :=
  cwd (fs w') = cwd (fs w) /\
  faults w' = tl (faults w) /\
  history w' = history w ++ [mkEvent c e (fs w')] /\
  logged w' = logged w /\
  registry w' = registry w.

(** A directory is at [path]. *)
Definition is_dir_at (path : string) (t : FS) : bool :=
  match lookup (locate (cwd t) path) (root t) with
  | inr (Dir _) => true
  | _ => false
  end.

(** The next call runs undisturbed. *)
Definition calm (w : World) : Prop :=
  match faults w with
  | Some _ :: _ => False
  | _ => True
  end.

(** The two methods of [Logger] the driver calls. *)
Definition Debug (l : Logger) (format : string) (args : list string) : M unit :=
  log_to l DEBUG format args.

Definition Info (l : Logger) (format : string) (args : list string) : M unit :=
  log_to l INFO format args.

End Sys.

Declare Scope go_scope.
Delimit Scope go_scope with go.
Notation "x <- m ;; k" := (Sys.bind m (fun x => k))
  (at level 61, m at next level, right associativity) : go_scope.
Notation "' p <- m ;; k" := (Sys.bind m (fun p => k))
  (at level 61, p pattern, m at next level, right associativity) : go_scope.
Notation "m ;; k" := (Sys.bind m (fun _ => k))
  (at level 61, right associativity) : go_scope.

(* ================================================================== *)
(** * The driver *)
(* ================================================================== *)

Module Jdb.
Import Sys Filepath.
Local Open Scope go_scope.

Definition Version : string := "1.0.0".

Definition tab : string := String "009"%char EmptyString.
Definition newline : string := String "010"%char EmptyString.

(** [Driver]: the root directory and the logger.  The key set of its
    [mutexes] map is the [registry] of the world; [Lock] and [Unlock]
    bracket a method body and, in a run of one goroutine, change
    nothing else. *)
Record Driver := mkDriver { dir : string; log : Logger }.

(** [Options] embeds a [Logger], which may be nil. *)
Record Options := mkOptions { opt_Logger : option Logger }.

(** The final path of a record as [doWrite] computes it. *)
Definition fnlPath (d : Driver) (collection ID : string) : string :=
  Join [Join [dir d; collection]; ID +++ ".json"].

Definition lumber_NewConsoleLogger (lvl : level) : Logger := ConsoleLogger lvl.

Definition make_mutexes : M unit :=
  fun w => (tt, mkWorld (fs w) (faults w) (history w) (logged w) []).

(** [New]. *)
Definition New (dir : string) (opt : option Options) : M (Driver * option error) :=
  let dir := Clean dir in
  let opts := match opt with
              | Some o => o
              | None => mkOptions None
              end in
  let logger := match opt_Logger opts with
                | Some l => l
                | None => lumber_NewConsoleLogger INFO
                end in
  let driver := mkDriver dir logger in
  make_mutexes ;;
  '(_, err) <- os_Stat dir ;;
  match err with
  | None =>
      Debug logger "%s already exists" [dir] ;;
      ret (driver, None)
  | Some _ =>
      Debug logger "creating %s database" [dir] ;;
      err <- os_MkdirAll dir ;;
      ret (driver, err)
  end.

(** [getMutex]: the lock of a collection, entered in the map on first
    use. *)
Definition getMutex (collection : string) : M unit :=
  fun w =>
    if existsb (String.eqb collection) (registry w) then (tt, w)
    else (tt, mkWorld (fs w) (faults w) (history w) (logged w)
                (registry w ++ [collection])).

(** [stat]: the path as it is, then with the extension. *)
Definition stat (path : string) : M (option FileInfo * option error) :=
  '(file, err) <- os_Stat path ;;
  if os_IsNotExist err then os_Stat (path +++ ".json")
  else ret (file, err).

Section Encoding.

(** The values the caller stores, and [json.MarshalIndent] on them. *)
Context {Value : Type}.
Variable json_MarshalIndent : Value -> string -> string -> string * option error.

(** [doWrite]. *)
Definition doWrite (d : Driver) (collection ID : string) (v : Value)
  : M (string * option error) :=
  getMutex collection ;;
  let dir := Join [dir d; collection] in
  let fnlPath := Join [dir; ID +++ ".json"] in
  let tmpPath := fnlPath +++ ".tmp" in
  err <- os_MkdirAll dir ;;
  match err with
  | Some _ => ret (ID, err)
  | None =>
      let '(b, err) := json_MarshalIndent v "" tab in
      match err with
      | Some _ => ret (ID, err)
      | None =>
          let b := b +++ newline in
          err <- ioutil_WriteFile tmpPath b ;;
          match err with
          | Some _ => ret (ID, err)
          | None =>
              Info (log d) "done creating: %s" [ID] ;;
              err <- os_Rename tmpPath fnlPath ;;
              ret (ID, err)
          end
      end
  end.

(** [Write]. *)
Definition Write (d : Driver) (collection identifier : string) (v : Value)
  : M (string * option error) :=
  if String.eqb collection "" then
    ret ("", Some (Errorf "missing collection, no place to save data" []))
  else if String.eqb identifier "" then
    ret ("", Some (Errorf "missing identifier" []))
  else doWrite d collection identifier v.

End Encoding.

(** [Read]. *)
Definition Read (d : Driver) (collection identifier : string)
  : M (string * option error) :=
  if String.eqb collection "" then
    ret ("", Some (Errorf "missing collection, no place to get data" []))
  else if String.eqb identifier "" then
    ret ("", Some (Errorf "missing ID, no identifier to get data" []))
  else
    let record := Join [dir d; collection; identifier] in
    '(_, err) <- stat record ;;
    match err with
    | Some _ => ret ("", err)
    | None =>
        '(b, err) <- ioutil_ReadFile (record +++ ".json") ;;
        match err with
        | Some _ => ret ("", err)
        | None => ret (b, None)
        end
    end.

(** The loop of [ReadAll] over the directory listing. *)
Fixpoint read_each (dir : string) (files : list FileInfo) (records : list string)
  : M (list string * option error) :=
  match files with
  | [] => ret (records, None)
  | file :: rest =>
      '(b, err) <- ioutil_ReadFile (Join [dir; Name file]) ;;
      match err with
      | Some _ => ret ([], err)
      | None => read_each dir rest (records ++ [b])
      end
  end.

(** [ReadAll]. *)
Definition ReadAll (d : Driver) (collection : string)
  : M (list string * option error) :=
  if String.eqb collection "" then
    ret ([], Some (Errorf "missing collection, no place to get data" []))
  else
    let dir := Join [dir d; collection] in
    '(_, err) <- stat dir ;;
    match err with
    | Some _ => ret ([], err)
    | None =>
        '(files, err) <- ioutil_ReadDir dir ;;
        match err with
        | Some _ => ret ([], err)
        | None => read_each dir files []
        end
    end.

(** [doDelete]. *)
Definition doDelete (d : Driver) (collection ID : string) : M (option error) :=
  let path := Join [collection; ID] in
  getMutex collection ;;
  let dir := Join [dir d; path] in
  '(file, err) <- stat dir ;;
  match file, err with
  | None, _ | _, Some _ =>
      ret (Some (Errorf "unable to find directory %q" [path]))
  | Some file, None =>
      if IsDir file then os_RemoveAll dir
      else if IsRegular file then
        os_RemoveAll (dir +++ ".json") ;;
        ret None
      else ret None
  end.

(** [Delete]. *)
Definition Delete (d : Driver) (collection ID : string) : M (option error) :=
  doDelete d collection ID.

Section Updating.
Context {Value : Type}.
Variable json_MarshalIndent : Value -> string -> string -> string * option error.

(** [Update]. *)
Definition Update (d : Driver) (collection ID : string) (v : Value)
  : M (string * option error) :=
  err <- doDelete d collection ID ;;
  match err with
  | Some _ => ret (ID, err)
  | None => doWrite json_MarshalIndent d collection ID v
  end.

End Updating.

(** The layout of the store: [<root>/<collection>/<key>.json], and the
    committed record of a key, the bytes of the regular file there. *)
Definition record_path (d : Driver) (collection key : string) : string :=
  dir d +++ "/" +++ collection +++ "/" +++ key +++ ".json".

Definition record_at (d : Driver) (collection key : string) (t : FS)
  : option string :=
  Tree.file_at (locate (cwd t) (record_path d collection key)) (root t).

Definition is_rename (c : call) : bool :=
  match c with CRename _ _ => true | _ => false end.

Definition is_stat (c : call) : bool :=
  match c with CStat _ => true | _ => false end.

(** The path [doDelete] probes. *)
Definition target (d : Driver) (collection ID : string) : string :=
  Join [dir d; Join [collection; ID]].

(** The errors of the store, by kind. *)
Definition invalid_argument (e : error) : bool :=
  match e with
  | Errorf format [] =>
      String.eqb format "missing collection, no place to save data"
      || String.eqb format "missing identifier"
      || String.eqb format "missing collection, no place to get data"
      || String.eqb format "missing ID, no identifier to get data"
  | _ => false
  end.

Definition not_found (e : error) : bool :=
  match e with
  | Errorf format [_] => String.eqb format "unable to find directory %q"
  | _ => os_IsNotExist (Some e)
  end.

End Jdb.

(* ================================================================== *)
(** * A small store to run the driver on *)
(* ================================================================== *)

Module Scenario.
Import Tree Sys Jdb.

(** Values are booleans, encoded as JSON does; decoding skips the final
    newline. *)
Definition encode (v : bool) (prefix indent : string) : string * option error :=
  (if v then "true" else "false", None).

Definition decode (s : string) : option bool :=
  if String.eqb s ("true" +++ newline) then Some true
  else if String.eqb s ("false" +++ newline) then Some false
  else None.

(** The driver [New("./db", nil)] returns. *)
Definition db : Driver := mkDriver "db" (ConsoleLogger INFO).

Definition world (r : node) (fl : list (option fault)) : World :=
  mkWorld (mkFS ["home"] (Dir [("home", r)])) fl [] [] [].

(** [db/users/42.json] holds [true]. *)
Definition one_record : node :=
  Dir [("db", Dir [("users", Dir [("42.json", File ("true" +++ newline))])])].

(** [db/users/42] is a directory with a record in it; there is no
    [db/users/42.json]. *)
Definition nested : node :=
  Dir [("db", Dir [("users",
         Dir [("42", Dir [("x.json", File ("false" +++ newline))])])])].

(** [db/users] holds a record, a directory and another record. *)
Definition mixed : node :=
  Dir [("db", Dir [("users",
         Dir [("a.json", File ("true" +++ newline));
              ("b", Dir []);
              ("c.json", File ("false" +++ newline))])])].

(** [db] is a regular file. *)
Definition root_is_file : node := Dir [("db", File "not a directory")].

(** An empty store. *)
Definition empty_store : node := Dir [("db", Dir [])].

End Scenario.

(* ================================================================== *)
(** * Notions used to state what the methods do *)
(* ================================================================== *)

Module Notions.
Import Tree Sys Jdb.

(** A name that can be one path element: no separator, and not empty,
    [.] or [..]. *)
Definition plain (s : string) : bool := Str.slash_free s && Filepath.real s.

(** The directory of a collection in the layout. *)
Definition collection_path (d : Driver) (collection : string) : string :=
  dir d +++ "/" +++ collection.

(** The calls that only look. *)
Definition is_read_call (c : call) : bool :=
  match c with
  | CStat _ | CReadFile _ | CReadDir _ => true
  | _ => false
  end.

(** The bytes of the entry [name] of a directory, when it is a file. *)
Definition content (es : entries_t) (name : string) : string :=
  match find_entry name es with
  | Some (File data) => data
  | _ => ""
  end.

(** Every entry is a regular file under a plain name. *)
Definition all_files (es : entries_t) : bool :=
  forallb (fun e => plain (fst e) && negb (is_dir (snd e))) es.

Fixpoint ascending (l : list string) : bool :=
  match l with
  | a :: (b :: _) as rest => String.leb a b && ascending rest
  | _ => true
  end.

(** The registry of locks only grows, and stays free of duplicates. *)
Definition keeps_registry (w w' : World) : Prop :=
  (forall x, In x (registry w) -> In x (registry w')) /\
  (NoDup (registry w) -> NoDup (registry w')).

(** [w'] is [w] after calls that only look: the file system, the log and
    the registry are the same. *)
Definition looked (w w' : World) : Prop :=
  fs w' = fs w /\ logged w' = logged w /\ registry w' = registry w /\
  exists evs, history w' = history w ++ evs /\
              Forall (fun ev => is_read_call (ev_call ev) = true) evs.

(** No regular file lies on the way to [p]. *)
Definition way_clear (p : list string) (n : node) : Prop :=
  forall q, is_prefix q p = true -> file_at q n = None.

(** Where the elements [out] of a cleaned path (last one first) lead. *)
Definition locate_below (r : bool) (out wd : list string) : list string :=
  rev (fold_left walk_step (rev out) (start r wd)).

(** The same, computed: walking down towards [p], every node met is a
    directory, until [p] or the first missing name is reached. *)
Fixpoint clear_way (p : list string) (n : node) : bool :=
  match n, p with
  | File _, _ => false
  | Dir _, [] => true
  | Dir es, a :: p' =>
      match find_entry a es with
      | None => true
      | Some child => clear_way p' child
      end
  end.

End Notions.

(* ================================================================== *)
(** * More stores to run the driver on *)
(* ================================================================== *)

Module Shelves.
Import Tree Sys Jdb.

(** [db/users] holds the records of the keys [42] and [7]. *)
Definition two_records : node :=
  Dir [("db", Dir [("users",
         Dir [("42.json", File ("true" +++ newline));
              ("7.json", File ("false" +++ newline))])])].

(** [db/users] holds the record of the key [42] and a directory of the
    same name as the key. *)
Definition shadowed : node :=
  Dir [("db", Dir [("users",
         Dir [("42", Dir [("x.json", File ("false" +++ newline))]);
              ("42.json", File ("true" +++ newline))])])].

(** [db/users] holds the record of the key [42] and the temporary file
    that a write of the key [7] left when the disk was full after two
    bytes. *)
Definition leftover : node :=
  Dir [("db", Dir [("users",
         Dir [("42.json", File ("true" +++ newline));
              ("7.json.tmp", File "fa")])])].

(** Nothing at all below the working directory. *)
Definition bare : node := Dir [].

(** An encoder that refuses every value, as [json.MarshalIndent] does a
    channel or a function. *)
Definition refuse (v : bool) (prefix indent : string) : string * option error :=
  ("", Some (EncodeError "json: unsupported type")).

End Shelves.

(* ================================================================== *)
(** * Facts about strings, paths, the tree and the system calls *)
(* ================================================================== *)

Module StrFacts.
Import Str.

Lemma append_nil_r (s : string) : s +++ "" = s.
Proof. induction s; simpl; congruence. Qed.

Lemma append_assoc (a b c : string) : (a +++ b) +++ c = a +++ (b +++ c).
Proof. induction a; simpl; congruence. Qed.

Lemma append_eq_nil (a b : string) : a +++ b = "" -> a = "" /\ b = "".
Proof. destruct a; simpl; [auto | discriminate]. Qed.

Lemma split_not_nil (s : string) : split s <> [].
Proof.
  induction s as [|c s IH]; simpl; [discriminate|].
  destruct (Ascii.eqb c "/"); [discriminate|].
  destruct (split s); discriminate.
Qed.

Lemma split_slash_free (s : string) : slash_free s = true -> split s = [s].
Proof.
  induction s as [|c s IH]; simpl; intros H; [reflexivity|].
  apply andb_true_iff in H as [Hc Hs].
  destruct (Ascii.eqb c "/"); [discriminate|].
  rewrite (IH Hs). reflexivity.
Qed.

(** Splitting after a separator starts afresh. *)
Lemma split_app_sep (a b : string) :
  split (a +++ "/" +++ b) = split a ++ split b.
Proof.
  induction a as [|c a IH]; simpl; [reflexivity|].
  destruct (Ascii.eqb c "/"); simpl.
  - f_equal. exact IH.
  - simpl in IH. rewrite IH.
    destruct (split a) eqn:E; [exfalso; eapply split_not_nil; eauto|].
    reflexivity.
Qed.

(** A suffix without separator lands on the last piece. *)
Lemma split_app_suffix (a sfx : string) :
  slash_free sfx = true ->
  split (a +++ sfx) = removelast (split a) ++ [last (split a) "" +++ sfx].
Proof.
  intros Hs. induction a as [|c a IH]; simpl.
  - apply split_slash_free; assumption.
  - destruct (Ascii.eqb c "/").
    + rewrite IH.
      destruct (split a) eqn:E; [exfalso; eapply split_not_nil; eauto|].
      reflexivity.
    + rewrite IH.
      destruct (split a) as [|h t] eqn:E; [exfalso; eapply split_not_nil; eauto|].
      destruct t as [|h' t']; simpl; reflexivity.
Qed.

Lemma split_pieces_slash_free (s : string) :
  Forall (fun c => slash_free c = true) (split s).
Proof.
  induction s as [|c s IH]; simpl.
  - constructor; [reflexivity | constructor].
  - destruct (Ascii.eqb c "/") eqn:Ec.
    + constructor; [reflexivity | assumption].
    + destruct (split s) as [|h t]; inversion IH; subst;
        constructor; simpl; try rewrite Ec; simpl; auto.
Qed.

Lemma split_snoc (s : string) :
  split s = removelast (split s) ++ [last (split s) ""].
Proof. apply app_removelast_last, split_not_nil. Qed.

Lemma slash_free_app (a b : string) :
  slash_free (a +++ b) = slash_free a && slash_free b.
Proof.
  induction a as [|c a IH]; simpl; [reflexivity|].
  rewrite IH, andb_assoc. reflexivity.
Qed.

Lemma join_snoc (l : list string) (x : string) :
  l <> [] -> join (l ++ [x]) = join l +++ "/" +++ x.
Proof.
  induction l as [|a l IH]; intros Hl; [congruence|].
  destruct l as [|b l].
  - reflexivity.
  - change (join ((a :: b :: l) ++ [x])) with (a +++ "/" +++ join ((b :: l) ++ [x])).
    rewrite IH by discriminate.
    change (join (a :: b :: l)) with (a +++ "/" +++ join (b :: l)).
    rewrite !append_assoc. reflexivity.
Qed.

(** A suffix goes onto the last element of a joined path. *)
Lemma join_snoc_suffix (l : list string) (x sfx : string) :
  join (l ++ [x]) +++ sfx = join (l ++ [x +++ sfx]).
Proof.
  destruct l as [|a l].
  - reflexivity.
  - rewrite !join_snoc by discriminate.
    rewrite !append_assoc. reflexivity.
Qed.

Lemma split_join (cs : list string) :
  cs <> [] -> Forall (fun c => slash_free c = true) cs -> split (join cs) = cs.
Proof.
  induction cs as [|c cs IH]; intros Hne Hall; [congruence|].
  inversion Hall as [|? ? Hc Hcs]; subst.
  destruct cs as [|c' cs].
  - simpl. apply split_slash_free; assumption.
  - change (join (c :: c' :: cs)) with (c +++ "/" +++ join (c' :: cs)).
    rewrite split_app_sep, IH by (discriminate || assumption).
    rewrite split_slash_free by assumption. reflexivity.
Qed.

Lemma rooted_app (a b : string) : a <> "" -> rooted (a +++ b) = rooted a.
Proof. destruct a; simpl; congruence. Qed.

Lemma slash_free_not_rooted (s : string) : slash_free s = true -> rooted s = false.
Proof.
  destruct s as [|c s]; simpl; [reflexivity|].
  destruct (Ascii.eqb c "/"); simpl; congruence.
Qed.

End StrFacts.

Module FilepathFacts.
Import Str StrFacts Filepath Sys.

Example clean_examples :
  map Filepath.Clean
    [""; "."; "./db"; "db/"; "/"; "//a//b/"; "a/../b"; "../a"; "/../a";
      "a/b/../../.."; "a/./b/.."; "..json"; "/.."]
  = ["."; "."; "db"; "db"; "/"; "/a/b"; "b"; "../a"; "/a"; ".."; "a";
      "..json"; "/"].
Proof. reflexivity. Qed.

Example join_examples :
  map Filepath.Join
    [["db"; "users"]; ["db"; "users"; "42"]; ["users"; ""]; [""; ""];
      [""; "users"]; ["db"; "users"; "."]; ["db/users"; "..json"];
      ["db"; "users"; "a/"]; ["db/users"; "a/.json"]]
  = ["db/users"; "db/users/42"; "users"; ""; "users"; "db/users";
      "db/users/..json"; "db/users/a"; "db/users/a/.json"].
Proof. reflexivity. Qed.

Lemma real_spec (c : string) :
  real c = true <-> c <> "" /\ c <> "." /\ c <> "..".
Proof.
  unfold real. rewrite !andb_true_iff, !negb_true_iff, !String.eqb_neq. tauto.
Qed.

Lemma real_app (c sfx : string) : real c = true -> real (c +++ sfx) = true.
Proof.
  rewrite !real_spec. intros (H1 & H2 & H3).
  destruct c as [|a c]; [congruence|].
  destruct c as [|b c].
  - destruct sfx as [|x sfx]; simpl; [rewrite ?append_nil_r; auto|].
    repeat split; try discriminate.
    + destruct sfx; simpl; [|discriminate]. intros E. inversion E; subst. congruence.
  - destruct c as [|b' c].
    + destruct sfx; simpl; [auto|]. repeat split; discriminate.
    + simpl. repeat split; discriminate.
Qed.

Lemma dots_normal (out : list string) : dots out = true -> normal false out = true.
Proof.
  induction out as [|c out IH]; simpl; [reflexivity|].
  intros H. apply andb_true_iff in H as [Hc Hd].
  rewrite Hc, Hd. apply String.eqb_eq in Hc. subst c. reflexivity.
Qed.

Lemma normal_below (r : bool) (c : string) (out : list string) :
  normal r (c :: out) = true -> normal r out = true.
Proof.
  simpl. intros H. apply andb_true_iff in H as [_ H].
  destruct (String.eqb c "..").
  - apply andb_true_iff in H as [Hr Hd].
    destruct r; [discriminate|]. apply dots_normal; assumption.
  - apply andb_true_iff in H as [_ H]. exact H.
Qed.

Lemma clean_step_normal (r : bool) (out : list string) (c : string) :
  slash_free c = true -> normal r out = true ->
  normal r (clean_step r out c) = true.
Proof.
  intros Hc Hn. unfold clean_step.
  destruct (String.eqb c "") eqn:E0; [assumption|].
  destruct (String.eqb c ".") eqn:E1; [assumption|].
  destruct (String.eqb c "..") eqn:E2.
  - destruct out as [|top below].
    + destruct r; simpl; [reflexivity|]. rewrite Hc, E2. reflexivity.
    + destruct (String.eqb top "..") eqn:Et.
      * simpl. rewrite Hc, E2. simpl in Hn. rewrite Et in Hn.
        apply andb_true_iff in Hn as [_ Hn].
        apply andb_true_iff in Hn as [Hr Hd].
        rewrite Hr, Et, Hd. reflexivity.
      * eapply normal_below; eassumption.
  - simpl. rewrite Hc, E2, Hn. unfold real. rewrite E0, E1, E2. reflexivity.
Qed.

Lemma fold_clean_normal (r : bool) (cs out : list string) :
  Forall (fun c => slash_free c = true) cs -> normal r out = true ->
  normal r (fold_left (clean_step r) cs out) = true.
Proof.
  intros Hcs. revert out.
  induction Hcs as [|c cs Hc Hcs IH]; intros out Hn; simpl; [assumption|].
  apply IH, clean_step_normal; assumption.
Qed.

Lemma clean_step_real (r : bool) (out : list string) (c : string) :
  real c = true -> clean_step r out c = c :: out.
Proof.
  unfold real, clean_step. intros H.
  apply andb_true_iff in H as [H H2]. apply andb_true_iff in H as [H0 H1].
  apply negb_true_iff in H0, H1, H2. rewrite H0, H1, H2. reflexivity.
Qed.

(** Scanning a cleaned path again gives it back. *)
Lemma fold_clean_rev (r : bool) (out : list string) :
  normal r out = true -> fold_left (clean_step r) (rev out) [] = out.
Proof.
  induction out as [|c out IH]; intros Hn; [reflexivity|].
  simpl rev. rewrite fold_left_app. simpl.
  rewrite IH by (eapply normal_below; eassumption).
  simpl in Hn. apply andb_true_iff in Hn as [Hc Hn].
  destruct (String.eqb c "..") eqn:E2.
  - apply String.eqb_eq in E2. subst c.
    apply andb_true_iff in Hn as [Hr Hd]. apply negb_true_iff in Hr. subst r.
    unfold clean_step. simpl.
    destruct out as [|top below]; [reflexivity|].
    simpl in Hd. apply andb_true_iff in Hd as [Ht _]. rewrite Ht. reflexivity.
  - apply andb_true_iff in Hn as [Hreal _]. apply clean_step_real; assumption.
Qed.

Lemma normal_slash_free (r : bool) (out : list string) :
  normal r out = true -> Forall (fun c => slash_free c = true) out.
Proof.
  induction out as [|c out IH]; intros Hn; constructor.
  - simpl in Hn. apply andb_true_iff in Hn as [Hc _]. exact Hc.
  - apply IH. eapply normal_below; eassumption.
Qed.

Lemma normal_nonempty (r : bool) (out : list string) :
  normal r out = true -> Forall (fun c => c <> "") out.
Proof.
  induction out as [|c out IH]; intros Hn; constructor.
  - simpl in Hn. apply andb_true_iff in Hn as [_ Hn].
    destruct (String.eqb c "..") eqn:E.
    + apply String.eqb_eq in E. subst. discriminate.
    + apply andb_true_iff in Hn as [Hr _]. apply real_spec in Hr. tauto.
  - apply IH. eapply normal_below; eassumption.
Qed.

End FilepathFacts.

Module LocateFacts.
Import Str StrFacts Filepath FilepathFacts Sys.

Lemma walk_step_real (pos : list string) (c : string) :
  real c = true -> walk_step pos c = c :: pos.
Proof.
  unfold real, walk_step. intros H.
  apply andb_true_iff in H as [H H2]. apply andb_true_iff in H as [H0 H1].
  apply negb_true_iff in H0, H1, H2. rewrite H0, H1, H2. reflexivity.
Qed.

(** Scanning an element and then walking the output is walking the
    element. *)
Lemma walk_clean_step (r : bool) (out : list string) (c : string) (base : list string) :
  normal r out = true -> (r = true -> base = []) ->
  fold_left walk_step (rev (clean_step r out c)) base
  = walk_step (fold_left walk_step (rev out) base) c.
Proof.
  intros Hn Hr. unfold clean_step at 1.
  destruct (String.eqb c "") eqn:E0.
  { unfold walk_step. rewrite E0. reflexivity. }
  destruct (String.eqb c ".") eqn:E1.
  { unfold walk_step. rewrite E0, E1. reflexivity. }
  destruct (String.eqb c "..") eqn:E2.
  - assert (Hw : forall pos, walk_step pos c = tl pos).
    { intros pos. unfold walk_step. rewrite E0, E1, E2. reflexivity. }
    rewrite Hw.
    destruct out as [|top below].
    + destruct r; simpl.
      * rewrite Hr by reflexivity. reflexivity.
      * apply Hw.
    + destruct (String.eqb top "..") eqn:Et.
      * simpl rev. rewrite !fold_left_app. simpl. rewrite Hw. reflexivity.
      * simpl rev. rewrite fold_left_app. simpl.
        simpl in Hn. rewrite Et in Hn.
        apply andb_true_iff in Hn as [_ Hn]. apply andb_true_iff in Hn as [Hreal _].
        rewrite walk_step_real by assumption. reflexivity.
  - simpl rev. rewrite fold_left_app. reflexivity.
Qed.

Lemma walk_clean_fold (r : bool) (cs out base : list string) :
  Forall (fun c => slash_free c = true) cs ->
  normal r out = true -> (r = true -> base = []) ->
  fold_left walk_step (rev (fold_left (clean_step r) cs out)) base
  = fold_left walk_step cs (fold_left walk_step (rev out) base).
Proof.
  intros Hcs. revert out.
  induction Hcs as [|c cs Hc Hcs IH]; intros out Hn Hr; simpl; [reflexivity|].
  rewrite IH by (try apply clean_step_normal; assumption).
  rewrite walk_clean_step by assumption. reflexivity.
Qed.

Lemma rooted_render (r : bool) (out : list string) :
  normal r out = true -> rooted (render r out) = r.
Proof.
  intros Hn. unfold render. destruct r; [reflexivity|].
  destruct out as [|c out]; [reflexivity|].
  pose proof (normal_slash_free _ _ Hn) as Hsf.
  pose proof (normal_nonempty _ _ Hn) as Hne.
  apply Forall_rev in Hsf. apply Forall_rev in Hne.
  destruct (rev (c :: out)) as [|a l] eqn:E.
  { apply (f_equal (@length _)) in E. rewrite length_rev in E. discriminate. }
  inversion Hsf; subst. inversion Hne; subst.
  destruct l.
  - simpl. apply slash_free_not_rooted; assumption.
  - change (join (a :: s :: l)) with (a +++ "/" +++ join (s :: l)).
    rewrite rooted_app by assumption. apply slash_free_not_rooted; assumption.
Qed.

(** Where a cleaned path leads. *)
Lemma locate_render (r : bool) (out wd : list string) :
  normal r out = true ->
  locate wd (render r out) = rev (fold_left walk_step (rev out) (start r wd)).
Proof.
  intros Hn. unfold locate. rewrite rooted_render by assumption.
  fold (start r wd). f_equal.
  pose proof (normal_slash_free _ _ Hn) as Hsf. apply Forall_rev in Hsf.
  unfold render. destruct r.
  - change ("/" +++ join (rev out)) with ("" +++ "/" +++ join (rev out)).
    rewrite split_app_sep. simpl split at 1.
    destruct out as [|c out]; [reflexivity|].
    rewrite split_join; [reflexivity | | assumption].
    intros E. apply (f_equal (@length _)) in E. rewrite length_rev in E. discriminate.
  - destruct out as [|c out]; [reflexivity|].
    rewrite split_join; [reflexivity | | assumption].
    intros E. apply (f_equal (@length _)) in E. rewrite length_rev in E. discriminate.
Qed.

Lemma Clean_render (s : string) :
  s <> "" ->
  Clean s = render (rooted s) (fold_left (clean_step (rooted s)) (split s) []).
Proof. destruct s; [congruence | reflexivity]. Qed.

Lemma Clean_normal (s : string) :
  normal (rooted s) (fold_left (clean_step (rooted s)) (split s) []) = true.
Proof. apply fold_clean_normal; [apply split_pieces_slash_free | reflexivity]. Qed.

(** Cleaning does not change where a path leads. *)
Lemma locate_Clean (wd : list string) (s : string) :
  s <> "" -> locate wd (Clean s) = locate wd s.
Proof.
  intros Hs. rewrite Clean_render by assumption.
  rewrite locate_render by apply Clean_normal.
  unfold locate. fold (start (rooted s) wd). f_equal.
  rewrite walk_clean_fold; [reflexivity | apply split_pieces_slash_free | reflexivity |].
  unfold start. intros ->. reflexivity.
Qed.

Lemma join_not_empty (l : list string) :
  l <> [] -> Forall (fun c => c <> "") l -> join l <> "".
Proof.
  intros Hl Hall. destruct l as [|a l]; [congruence|].
  inversion Hall; subst.
  destruct l; simpl; [assumption|].
  intros E. apply append_eq_nil in E. tauto.
Qed.

Lemma Clean_not_empty (s : string) : Clean s <> "".
Proof.
  destruct s as [|c s]; [discriminate|].
  rewrite Clean_render by discriminate.
  pose proof (Clean_normal (String c s)) as Hn.
  unfold render. destruct (rooted (String c s)); [discriminate|].
  destruct (fold_left (clean_step false) (split (String c s)) []) as [|a out] eqn:E;
    [discriminate|].
  apply join_not_empty.
  - intros E'. apply (f_equal (@length _)) in E'. rewrite length_rev in E'. discriminate.
  - apply Forall_rev. eapply normal_nonempty; eassumption.
Qed.

Lemma base_name_app_sep (a b : string) : base_name (a +++ "/" +++ b) = base_name b.
Proof.
  unfold base_name. rewrite split_app_sep.
  rewrite (split_snoc b), app_assoc, !last_last. reflexivity.
Qed.

Lemma base_name_suffix (a sfx : string) :
  slash_free sfx = true -> base_name (a +++ sfx) = base_name a +++ sfx.
Proof.
  intros H. unfold base_name. rewrite split_app_suffix by assumption.
  apply last_last.
Qed.

Lemma real_json (x : string) : real (x +++ ".json") = true.
Proof.
  apply real_spec.
  destruct x as [|a [|b [|c x]]]; simpl; repeat split; discriminate.
Qed.

Lemma real_not_empty (s : string) : real (base_name s) = true -> s <> "".
Proof. intros H ->. discriminate. Qed.

Lemma locate_real (wd : list string) (s : string) :
  real (base_name s) = true -> locate wd s = parent_loc wd s ++ [base_name s].
Proof.
  intros Hr. unfold locate, parent_loc. fold (start (rooted s) wd).
  rewrite (split_snoc s) at 1. rewrite fold_left_app. simpl.
  fold (base_name s). rewrite walk_step_real by assumption. reflexivity.
Qed.

(** A suffix on a path that ends in a name leads to a sibling. *)
Lemma locate_suffix (wd : list string) (s sfx : string) :
  real (base_name s) = true -> slash_free sfx = true ->
  locate wd (s +++ sfx) = parent_loc wd s ++ [base_name s +++ sfx].
Proof.
  intros Hr Hs. unfold locate, parent_loc.
  rewrite rooted_app by (apply real_not_empty; assumption).
  fold (start (rooted s) wd).
  rewrite split_app_suffix by assumption. rewrite fold_left_app. simpl.
  fold (base_name s). rewrite walk_step_real by (apply real_app; assumption).
  reflexivity.
Qed.

(** Cleaning and adding a suffix commute on a path that ends in a name. *)
Lemma Clean_suffix (s sfx : string) :
  real (base_name s) = true -> slash_free sfx = true ->
  Clean s +++ sfx = Clean (s +++ sfx).
Proof.
  intros Hr Hs. pose proof (real_not_empty _ Hr) as Hne.
  rewrite !Clean_render; try assumption.
  2:{ intros E. apply append_eq_nil in E. tauto. }
  rewrite rooted_app by assumption.
  rewrite split_app_suffix by assumption.
  rewrite (split_snoc s) at 1.
  rewrite !fold_left_app. simpl. fold (base_name s).
  rewrite !clean_step_real by (try apply real_app; assumption).
  unfold render. destruct (rooted s); simpl rev.
  - simpl. f_equal. apply join_snoc_suffix.
  - apply join_snoc_suffix.
Qed.

End LocateFacts.

Module TreeFacts.
Import Tree.

Lemma find_set_same (c : string) (n : node) (es : entries_t) :
  find_entry c (set_entry c n es) = Some n.
Proof.
  induction es as [|[k m] es IH]; simpl.
  - rewrite String.eqb_refl. reflexivity.
  - destruct (String.eqb k c) eqn:E; simpl; rewrite E; auto.
Qed.

Lemma find_set_other (c c' : string) (n : node) (es : entries_t) :
  c <> c' -> find_entry c' (set_entry c n es) = find_entry c' es.
Proof.
  intros Hne. induction es as [|[k m] es IH]; simpl.
  - apply String.eqb_neq in Hne. rewrite Hne. reflexivity.
  - destruct (String.eqb k c) eqn:E; simpl.
    + apply String.eqb_eq in E. subst k.
      apply String.eqb_neq in Hne. rewrite Hne. reflexivity.
    + rewrite IH. reflexivity.
Qed.

Lemma find_remove_same (c : string) (es : entries_t) :
  find_entry c (remove_entry c es) = None.
Proof.
  induction es as [|[k m] es IH]; simpl; [reflexivity|].
  destruct (String.eqb k c) eqn:E; simpl; [|rewrite E]; auto.
Qed.

Lemma find_remove_other (c c' : string) (es : entries_t) :
  c <> c' -> find_entry c' (remove_entry c es) = find_entry c' es.
Proof.
  intros Hne. induction es as [|[k m] es IH]; simpl; [reflexivity|].
  destruct (String.eqb k c) eqn:E; simpl.
  - apply String.eqb_eq in E. subst k.
    apply String.eqb_neq in Hne. rewrite Hne. exact IH.
  - rewrite IH. reflexivity.
Qed.

(** A change below a name always leaves a directory. *)
Lemma alter_at_cons (c : string) (p : list string) f (cur : option node)
    (res : option node) :
  alter_at (c :: p) f cur = inr res ->
  exists es child,
    cur = Some (Dir es) /\ alter_at p f (find_entry c es) = inr child /\
    res = Some (Dir (match child with
                     | Some x => set_entry c x es
                     | None => remove_entry c es
                     end)).
Proof.
  simpl. destruct cur as [[data|es]|]; try discriminate.
  destruct (alter_at p f (find_entry c es)) as [e|[x|]] eqn:E; try discriminate;
    intros H; inversion H; subst; eauto.
Qed.

(** What is found after a change that puts [x]. *)
Lemma lookup_alter_put (p : list string) f (x : node) :
  (forall cur y, f cur = inr y -> y = Some x) ->
  forall (n n' : node),
    alter_at p f (Some n) = inr (Some n') -> lookup p n' = inr x.
Proof.
  intros Hf. induction p as [|c p IH]; intros n n' H.
  - simpl in H. apply Hf in H. inversion H; subst. reflexivity.
  - apply alter_at_cons in H as (es & child & Hcur & Halt & Hres).
    inversion Hcur; subst. inversion Hres; subst. simpl.
    destruct p as [|c' p].
    + simpl in Halt. apply Hf in Halt. subst child.
      rewrite find_set_same. reflexivity.
    + pose proof Halt as Halt'.
      apply alter_at_cons in Halt' as (es' & ch' & Hc' & _ & Hr').
      subst child. rewrite find_set_same.
      eapply IH. rewrite <- Hc'. exact Halt.
Qed.

(** What is found after a removal: nothing. *)
Lemma lookup_alter_remove (p : list string) :
  p <> [] ->
  forall (n n' : node),
    alter_at p (fun _ => inr None) (Some n) = inr (Some n') ->
    lookup p n' = inl ENOENT.
Proof.
  induction p as [|c p IH]; intros Hp n n' H; [congruence|].
  apply alter_at_cons in H as (es & child & Hcur & Halt & Hres).
  inversion Hcur; subst. inversion Hres; subst. simpl.
  destruct p as [|c' p].
  - simpl in Halt. inversion Halt; subst. rewrite find_remove_same. reflexivity.
  - pose proof Halt as Halt'.
    apply alter_at_cons in Halt' as (es' & ch' & Hc' & _ & Hr').
    subst child. rewrite find_set_same.
    eapply IH; [discriminate|]. rewrite <- Hc'. exact Halt.
Qed.

(** A change at one name leaves its siblings alone. *)
Lemma lookup_alter_sibling (P : list string) (a b : string) f :
  a <> b ->
  forall (n n' : node),
    alter_at (P ++ [a]) f (Some n) = inr (Some n') ->
    lookup (P ++ [b]) n' = lookup (P ++ [b]) n.
Proof.
  intros Hab. induction P as [|c P IH]; intros n n' H.
  - apply alter_at_cons in H as (es & child & Hcur & Halt & Hres).
    inversion Hcur; subst. inversion Hres; subst. simpl.
    destruct child; [rewrite find_set_other | rewrite find_remove_other];
      auto.
  - simpl app in H. apply alter_at_cons in H as (es & child & Hcur & Halt & Hres).
    inversion Hcur; subst. inversion Hres; subst. simpl.
    assert (exists x y, find_entry c es = Some x /\ child = Some y) as (x & y & Hx & Hy).
    { destruct (P ++ [a]) as [|c' p'] eqn:E; [destruct P; discriminate|].
      apply alter_at_cons in Halt as (es' & ch' & Hc' & _ & Hr'). eauto. }
    subst child. rewrite find_set_same, Hx. rewrite Hx in Halt.
    eapply IH. exact Halt.
Qed.

(** Removing what exists succeeds. *)
Lemma alter_remove_found (p : list string) :
  p <> [] ->
  forall (n x : node),
    lookup p n = inr x ->
    exists n', alter_at p (fun _ => inr None) (Some n) = inr (Some n').
Proof.
  induction p as [|c p IH]; intros Hp n x H; [congruence|].
  simpl in H. destruct n as [data|es]; [discriminate|].
  destruct (find_entry c es) as [child|] eqn:E; [|discriminate].
  simpl. rewrite E. destruct p as [|c' p].
  - simpl. eauto.
  - destruct (IH ltac:(discriminate) child x H) as (n' & Hn').
    rewrite Hn'. eauto.
Qed.

Lemma remove_all_found (p : list string) (n x : node) :
  p <> [] -> lookup p n = inr x ->
  exists n', remove_all p n = inr n' /\ lookup p n' = inl ENOENT.
Proof.
  intros Hp H. destruct (alter_remove_found p Hp n x H) as (n' & Hn').
  exists n'. unfold remove_all. rewrite Hn'. destruct p; [congruence|].
  split; [reflexivity|]. eapply lookup_alter_remove; eauto.
Qed.

(** Below something missing, everything is missing. *)
Lemma lookup_app_missing (p q : list string) (n : node) :
  lookup p n = inl ENOENT -> lookup (p ++ q) n = inl ENOENT.
Proof.
  revert n. induction p as [|c p IH]; intros n H; [discriminate|].
  simpl in *. destruct n as [data|es]; [discriminate|].
  destruct (find_entry c es); [apply IH; assumption | reflexivity].
Qed.

(** Where one name is missing or present, a sibling name is missing or
    present: the directory is there. *)
Lemma lookup_sibling_cases (P : list string) (a b : string) (n : node) :
  lookup (P ++ [a]) n = inl ENOENT \/ (exists x, lookup (P ++ [a]) n = inr x) ->
  lookup (P ++ [b]) n = inl ENOENT \/ (exists x, lookup (P ++ [b]) n = inr x).
Proof.
  revert n. induction P as [|c P IH]; intros n H.
  - simpl in *. destruct n as [data|es].
    + destruct H as [H|[x H]]; discriminate.
    + destruct (find_entry b es); eauto.
  - simpl in *. destruct n as [data|es].
    + destruct H as [H|[x H]]; discriminate.
    + destruct (find_entry c es); [apply IH; assumption | auto].
Qed.

(** [mkdir -p] neither creates nor changes a regular file. *)
Lemma mkdir_all_fresh (p : list string) (n' : node) :
  mkdir_all p None = inr n' -> forall q, file_at q n' = None.
Proof.
  revert n'. induction p as [|c p IH]; intros n' H q.
  - simpl in H. inversion H; subst. destruct q; reflexivity.
  - simpl in H. destruct (mkdir_all p None) as [e|child] eqn:E; [discriminate|].
    inversion H; subst. destruct q as [|c' q]; [reflexivity|].
    unfold file_at. simpl. destruct (String.eqb c c'); [|reflexivity].
    apply (IH child eq_refl q).
Qed.

Lemma mkdir_all_file_at (p : list string) :
  forall (n n' : node),
    mkdir_all p (Some n) = inr n' -> forall q, file_at q n' = file_at q n.
Proof.
  induction p as [|c p IH]; intros n n' H q.
  - simpl in H. destruct n; inversion H; subst. reflexivity.
  - simpl in H. destruct n as [data|es]; [discriminate|].
    destruct (mkdir_all p (find_entry c es)) as [e|child] eqn:E; [discriminate|].
    inversion H; subst. destruct q as [|c' q]; [reflexivity|].
    unfold file_at. simpl.
    destruct (String.eqb c c') eqn:Ec.
    + apply String.eqb_eq in Ec. subst c'. rewrite find_set_same.
      destruct (find_entry c es) as [old|] eqn:Eo.
      * apply (IH old child E q).
      * apply (mkdir_all_fresh p child E q).
    + apply String.eqb_neq in Ec. rewrite find_set_other by assumption. reflexivity.
Qed.

Lemma list_eqb_eq (p q : list string) : list_eqb p q = true -> p = q.
Proof.
  unfold list_eqb. revert q. induction p as [|a p IH]; intros [|b q]; simpl;
    try reflexivity; try discriminate.
  intros H. apply andb_true_iff in H as [H1 H2].
    apply andb_true_iff in H1 as [Hab H1]. apply andb_true_iff in H2 as [_ H2].
  apply String.eqb_eq in Hab. subst b. f_equal. apply IH.
  rewrite H1, H2. reflexivity.
Qed.

(** After a rename the target holds what the source held. *)
Lemma rename_file (old new : list string) (n n' : node) (data : string) :
  lookup old n = inr (File data) -> rename old new n = inr n' ->
  file_at new n' = Some data.
Proof.
  intros Hold H. unfold rename in H. rewrite Hold in H.
  assert (Hgo : (if list_eqb old new then inr n
                 else if is_prefix old new then inl EINVAL
                 else match remove_all old n with
                      | inl e => inl e
                      | inr r1 =>
                          match alter_at new (fun _ => inr (Some (File data))) (Some r1) with
                          | inl e => inl e
                          | inr (Some r2) => inr r2
                          | inr None => inl EINVAL
                          end
                      end) = inr n').
  { destruct (lookup new n) as [[]|[|]]; try discriminate; exact H. }
  clear H. destruct (list_eqb old new) eqn:Eq.
  - apply list_eqb_eq in Eq. subst new. inversion Hgo; subst.
    unfold file_at. rewrite Hold. reflexivity.
  - destruct (is_prefix old new); [discriminate|].
    destruct (remove_all old n) as [e|r1]; [discriminate|].
    destruct (alter_at new (fun _ => inr (Some (File data))) (Some r1))
      as [e|[r2|]] eqn:Ealt; try discriminate.
    inversion Hgo; subst. unfold file_at.
    assert (Hl : lookup new n' = inr (File data)).
    { eapply lookup_alter_put; [|exact Ealt].
      intros cur y Hy. inversion Hy. reflexivity. }
    rewrite Hl. reflexivity.
Qed.

Lemma write_file_same (p : list string) (data : string) (n n' : node) :
  write_file p data n = inr n' -> lookup p n' = inr (File data).
Proof.
  unfold write_file. intros H.
  destruct (alter_at p (put_file data) (Some n)) as [e|[r|]] eqn:E; try discriminate.
  inversion H; subst. eapply lookup_alter_put; [|exact E].
  intros cur y Hy. unfold put_file in Hy. destruct cur as [[|]|]; inversion Hy; reflexivity.
Qed.

Lemma write_file_sibling (P : list string) (a b data : string) (n n' : node) :
  a <> b -> write_file (P ++ [a]) data n = inr n' ->
  lookup (P ++ [b]) n' = lookup (P ++ [b]) n.
Proof.
  unfold write_file. intros Hab H.
  destruct (alter_at (P ++ [a]) (put_file data) (Some n)) as [e|[r|]] eqn:E;
    try discriminate.
  inversion H; subst. eapply lookup_alter_sibling; eauto.
Qed.


End TreeFacts.

Module SysFacts.
Import Tree TreeFacts Sys.

Lemma bind_inv {A B} (m : M A) (k : A -> M B) (w w'' : World) (b : B) :
  bind m k w = (b, w'') ->
  exists a w', m w = (a, w') /\ k a w' = (b, w'').
Proof. unfold bind. destruct (m w) as [a w']. eauto. Qed.

Lemma ret_inv {A} (a b : A) (w w' : World) : ret a w = (b, w') -> a = b /\ w = w'.
Proof. unfold ret. intros H. inversion H. auto. Qed.

(** The two ways a system call can go. *)
Lemma syscall_inv {A} (c : call) (normal : FS -> errno + (A * node))
    (w w' : World) (res : errno + A) :
  syscall c normal w = (res, w') ->
  stepped w w' c (err_of res) /\
  ((exists f rest, faults w = Some f :: rest /\ res = inl (fault_errno f) /\
                   root (fs w') = torn c f (fs w))
   \/ (calm w /\
       ((exists e, normal (fs w) = inl e /\ res = inl e /\ root (fs w') = root (fs w))
        \/ (exists a, normal (fs w) = inr (a, root (fs w')) /\ res = inr a)))).
Proof.
  unfold syscall, stepped, calm. intros H.
  destruct (faults w) as [|[f|] rest] eqn:Ef.
  - destruct (normal (fs w)) as [e|[a r']] eqn:En; inversion H; subst; simpl;
      (split; [repeat split; rewrite ?Ef; reflexivity|]); right; split; eauto.
  - inversion H; subst; simpl.
    split; [repeat split; rewrite ?Ef; reflexivity|]. left. eauto.
  - destruct (normal (fs w)) as [e|[a r']] eqn:En; inversion H; subst; simpl;
      (split; [repeat split; rewrite ?Ef; reflexivity|]); right; split; eauto.
Qed.

Lemma torn_other (c : call) (f : fault) (t : FS) :
  (forall path data, c <> CWriteFile path data) ->
  (forall path, c <> CRemoveAll path) ->
  torn c f t = root t.
Proof.
  intros H H'. destruct c; try reflexivity; exfalso; [eapply H | eapply H']; eauto.
Qed.

Lemma at_path_inv {A} (path : string) (t : FS) (k : list string -> errno + A) (a : A) :
  at_path path t k = inr a -> path <> "" /\ k (locate (cwd t) path) = inr a.
Proof.
  unfold at_path. destruct (String.eqb path "") eqn:E; [discriminate|].
  apply String.eqb_neq in E. auto.
Qed.

Lemma at_path_run {A} (path : string) (t : FS) (k : list string -> errno + A) :
  path <> "" -> at_path path t k = k (locate (cwd t) path).
Proof. unfold at_path. intros H. apply String.eqb_neq in H. rewrite H. reflexivity. Qed.

(** [os.Stat] changes nothing. *)
Lemma os_Stat_inv (path : string) (w w' : World) fi err :
  os_Stat path w = ((fi, err), w') ->
  stepped w w' (CStat path) (errno_of err) /\ root (fs w') = root (fs w) /\
  (fi = None <-> err <> None).
Proof.
  unfold os_Stat. intros H. apply bind_inv in H as (r & w1 & Hs & Hr).
  apply syscall_inv in Hs as (Hst & Hcase). apply ret_inv in Hr as (Hr & <-).
  assert (Hroot : root (fs w1) = root (fs w)).
  { destruct Hcase as [(f & rest & _ & _ & Ht)|(_ & [(e & _ & _ & Ht)|(a & Hn & _)])].
    - rewrite Ht. apply torn_other; discriminate.
    - exact Ht.
    - apply at_path_inv in Hn as (_ & Hn).
      destruct (lookup _ _); inversion Hn; reflexivity. }
  destruct r as [e|a]; inversion Hr; subst; simpl in *;
    (split; [exact Hst|]); (split; [exact Hroot|]); split; congruence.
Qed.

(** [os.MkdirAll] leaves every regular file as it was. *)
Lemma os_MkdirAll_inv (path : string) (w w' : World) err :
  os_MkdirAll path w = (err, w') ->
  stepped w w' (CMkdirAll path) (errno_of err) /\
  (forall q, file_at q (root (fs w')) = file_at q (root (fs w))).
Proof.
  unfold os_MkdirAll. intros H. apply bind_inv in H as (r & w1 & Hs & Hr).
  apply syscall_inv in Hs as (Hst & Hcase). apply ret_inv in Hr as (Hr & <-).
  split.
  { destruct r; subst; exact Hst. }
  intros q.
  destruct Hcase as [(f & rest & _ & _ & Ht)|(_ & [(e & _ & _ & Ht)|(a & Hn & _)])].
  - rewrite Ht, torn_other by discriminate. reflexivity.
  - rewrite Ht. reflexivity.
  - apply at_path_inv in Hn as (_ & Hn).
    destruct (mkdir_all _ _) as [e|r'] eqn:E; inversion Hn; subst.
    eapply mkdir_all_file_at; eauto.
Qed.

(** [ioutil.WriteFile]: whatever happens, only the named file can have
    changed; on success it holds the data. *)
Lemma ioutil_WriteFile_inv (path data : string) (w w' : World) err :
  ioutil_WriteFile path data w = (err, w') ->
  stepped w w' (CWriteFile path data) (errno_of err) /\
  (root (fs w') = root (fs w)
   \/ exists data', write_file (locate (cwd (fs w)) path) data' (root (fs w))
                    = inr (root (fs w'))) /\
  (err = None ->
   write_file (locate (cwd (fs w)) path) data (root (fs w)) = inr (root (fs w'))).
Proof.
  unfold ioutil_WriteFile. intros H. apply bind_inv in H as (r & w1 & Hs & Hr).
  apply syscall_inv in Hs as (Hst & Hcase). apply ret_inv in Hr as (Hr & <-).
  split.
  { destruct r; subst; exact Hst. }
  destruct Hcase as [(f & rest & _ & -> & Ht)|(_ & [(e & _ & -> & Ht)|(a & Hn & ->)])].
  - subst err. split; [|discriminate].
    rewrite Ht. unfold torn. destruct f as [e|n e]; [auto|].
    destruct (write_file _ _ _) eqn:E; eauto.
  - subst err. split; [auto | discriminate].
  - apply at_path_inv in Hn as (_ & Hn).
    destruct (write_file _ _ _) as [e|r'] eqn:E; inversion Hn; subst.
    split; eauto.
Qed.

(** [os.Rename]: a failure changes nothing. *)
Lemma os_Rename_inv (old new : string) (w w' : World) err :
  os_Rename old new w = (err, w') ->
  stepped w w' (CRename old new) (errno_of err) /\
  (err <> None -> root (fs w') = root (fs w)) /\
  (err = None ->
   rename (locate (cwd (fs w)) old) (locate (cwd (fs w)) new) (root (fs w))
   = inr (root (fs w'))).
Proof.
  unfold os_Rename. intros H. apply bind_inv in H as (r & w1 & Hs & Hr).
  apply syscall_inv in Hs as (Hst & Hcase). apply ret_inv in Hr as (Hr & <-).
  split.
  { destruct r; subst; exact Hst. }
  destruct Hcase as [(f & rest & _ & -> & Ht)|(_ & [(e & _ & -> & Ht)|(a & Hn & ->)])].
  - subst err. split; [|discriminate]. intros _. rewrite Ht.
    apply torn_other; discriminate.
  - subst err. split; [auto | discriminate].
  - subst err. split; [congruence|]. intros _.
    apply at_path_inv in Hn as (_ & Hn). apply at_path_inv in Hn as (_ & Hn).
    destruct (rename _ _ _) as [e|r'] eqn:E; inversion Hn; subst. reflexivity.
Qed.

End SysFacts.

Module LayoutFacts.
Import Str StrFacts Filepath FilepathFacts Sys LocateFacts Jdb.

Lemma Join_cons (a : string) (rest : list string) :
  a <> "" -> Join (a :: rest) = Clean (join (a :: rest)).
Proof. intros H. simpl. apply String.eqb_neq in H. rewrite H. reflexivity. Qed.

Lemma Join_not_empty (a : string) (rest : list string) :
  a <> "" -> Join (a :: rest) <> "".
Proof. intros H. rewrite Join_cons by assumption. apply Clean_not_empty. Qed.

(** Going on from where a path leads. *)
Lemma locate_app_sep (wd : list string) (a b : string) :
  a <> "" ->
  locate wd (a +++ "/" +++ b)
  = rev (fold_left walk_step (split b) (rev (locate wd a))).
Proof.
  intros Ha. unfold locate. rewrite rooted_app by assumption.
  rewrite split_app_sep, fold_left_app, rev_involutive. reflexivity.
Qed.

Lemma locate_Join2 (wd : list string) (a b : string) :
  a <> "" -> locate wd (Join [a; b]) = locate wd (a +++ "/" +++ b).
Proof.
  intros Ha. rewrite Join_cons by assumption. simpl join.
  apply locate_Clean. intros E. apply append_eq_nil in E. tauto.
Qed.

(** The final path of [doWrite] is the record's place in the layout. *)
Lemma fnlPath_layout (wd : list string) (d : Driver) (c k : string) :
  dir d <> "" -> locate wd (fnlPath d c k) = locate wd (record_path d c k).
Proof.
  intros Hd. unfold fnlPath, record_path.
  rewrite locate_Join2 by (apply Join_not_empty; assumption).
  rewrite locate_app_sep by (apply Join_not_empty; assumption).
  rewrite locate_Join2 by assumption.
  rewrite <- locate_app_sep.
  - rewrite !append_assoc. reflexivity.
  - intros E. apply append_eq_nil in E. tauto.
Qed.

(** The temporary file is a sibling of the final one, under another
    name. *)
Lemma fnlPath_tmp (wd : list string) (d : Driver) (c k : string) :
  dir d <> "" ->
  exists P nm,
    locate wd (fnlPath d c k) = P ++ [nm] /\
    locate wd (fnlPath d c k +++ ".tmp") = P ++ [nm +++ ".tmp"].
Proof.
  intros Hd. unfold fnlPath.
  set (D := Join [dir d; c]).
  assert (HD : D <> "") by (apply Join_not_empty; assumption).
  rewrite Join_cons by assumption. simpl join.
  set (S := D +++ "/" +++ k +++ ".json").
  assert (Hreal : real (base_name S) = true).
  { unfold S. rewrite base_name_app_sep, base_name_suffix by reflexivity.
    apply real_json. }
  exists (parent_loc wd S), (base_name S). split.
  - rewrite locate_Clean by (apply real_not_empty; assumption).
    apply locate_real; assumption.
  - rewrite Clean_suffix by (assumption || reflexivity).
    rewrite locate_Clean.
    + apply locate_suffix; [assumption | reflexivity].
    + intros E. apply append_eq_nil in E. destruct E as [_ E]. discriminate.
Qed.

Lemma append_suffix_neq (a sfx : string) : sfx <> "" -> a <> a +++ sfx.
Proof.
  intros Hs. induction a as [|c a IH]; simpl.
  - congruence.
  - intros E. inversion E. auto.
Qed.

End LayoutFacts.

Module JdbFacts.
Import Tree TreeFacts Str StrFacts Filepath FilepathFacts Sys SysFacts.
Import LocateFacts Jdb LayoutFacts.

Lemma getMutex_inv (c : string) (w w' : World) (u : unit) :
  getMutex c w = (u, w') ->
  fs w' = fs w /\ faults w' = faults w /\ history w' = history w /\
  logged w' = logged w.
Proof.
  unfold getMutex. destruct (existsb _ _); intros H; inversion H; subst; simpl; auto.
Qed.

Lemma log_to_inv (l : Logger) (lvl : level) (fmt : string) (args : list string)
    (w w' : World) (u : unit) :
  log_to l lvl fmt args w = (u, w') ->
  fs w' = fs w /\ faults w' = faults w /\ history w' = history w /\
  registry w' = registry w /\ logged w' = logged w ++ [mkLog l lvl fmt args].
Proof. unfold log_to. intros H. inversion H; subst; simpl. auto 6. Qed.

Section WriteRecord.
Context {Value : Type}.
Variable enc : Value -> string -> string -> string * option error.

(** What every run of [doWrite] does to the record under the final
    name. *)
Lemma doWrite_record (d : Driver) (c k : string) (v : Value) (w w' : World) res :
  dir d <> "" ->
  doWrite enc d c k v w = (res, w') ->
  exists evs,
    history w' = history w ++ evs /\
    (forall ev, In ev evs ->
                is_rename (ev_call ev) = false \/ ev_err ev <> None ->
                record_at d c k (ev_fs ev) = record_at d c k (fs w)) /\
    (snd res <> None -> record_at d c k (fs w') = record_at d c k (fs w)).
Proof.
  intros Hd H. unfold doWrite in H. fold (fnlPath d c k) in H.
  destruct (fnlPath_tmp (cwd (fs w)) d c k Hd) as (P & nm & Hfnl & Htmp).
  assert (Hrec : forall t, cwd t = cwd (fs w) ->
                           record_at d c k t = file_at (P ++ [nm]) (root t)).
  { intros t Ht. unfold record_at. rewrite Ht, <- fnlPath_layout, Hfnl by assumption.
    reflexivity. }
  apply bind_inv in H as (u & w1 & Hm & H). apply getMutex_inv in Hm as (Hfs1 & Hfa1 & Hh1 & _).
  apply bind_inv in H as (err1 & w2 & Hmk & H).
  apply os_MkdirAll_inv in Hmk as (Hst2 & Hfile2).
  destruct Hst2 as (Hcwd2 & _ & Hh2 & _).
  rewrite Hfs1 in Hcwd2, Hfile2. rewrite Hh1 in Hh2.
  assert (Hrec2 : record_at d c k (fs w2) = record_at d c k (fs w)).
  { rewrite !Hrec by auto. apply Hfile2. }
  destruct err1 as [e1|].
  { apply ret_inv in H as (<- & <-). eexists; split; [exact Hh2|]. split.
    - intros ev [<-|[]] _. exact Hrec2.
    - intros _. exact Hrec2. }
  destruct (enc v "" tab) as [b [e|]].
  { apply ret_inv in H as (<- & <-). eexists; split; [exact Hh2|]. split.
    - intros ev [<-|[]] _. exact Hrec2.
    - intros _. exact Hrec2. }
  apply bind_inv in H as (err2 & w3 & Hwr & H).
  apply ioutil_WriteFile_inv in Hwr as (Hst3 & Hroot3 & _).
  destruct Hst3 as (Hcwd3 & _ & Hh3 & _).
  rewrite Hcwd2 in Hcwd3. rewrite Hh2 in Hh3.
  assert (Hrec3 : record_at d c k (fs w3) = record_at d c k (fs w)).
  { rewrite <- Hrec2. rewrite !Hrec by auto. unfold file_at.
    destruct Hroot3 as [->|(data' & Hw)]; [reflexivity|].
    rewrite Hcwd2, Htmp in Hw.
    erewrite write_file_sibling; [reflexivity | | exact Hw].
    intros E. symmetry in E. revert E. apply append_suffix_neq. discriminate. }
  destruct err2 as [e2|].
  { apply ret_inv in H as (<- & <-). eexists; split; [rewrite Hh3, <- app_assoc; reflexivity|].
    split.
    - intros ev [<-|[<-|[]]] _; assumption.
    - intros _. exact Hrec3. }
  apply bind_inv in H as (u' & w4 & Hlog & H).
  unfold Info in Hlog. apply log_to_inv in Hlog as (Hfs4 & _ & Hh4 & _).
  apply bind_inv in H as (err3 & w5 & Hrn & H).
  apply os_Rename_inv in Hrn as (Hst5 & Hroot5 & _).
  destruct Hst5 as (Hcwd5 & _ & Hh5 & _).
  rewrite Hfs4 in Hcwd5, Hroot5. rewrite Hcwd3 in Hcwd5. rewrite Hh4, Hh3 in Hh5.
  apply ret_inv in H as (<- & <-).
  assert (Hfail : errno_of err3 <> None \/ err3 <> None ->
                  record_at d c k (fs w5) = record_at d c k (fs w)).
  { intros Hne. rewrite <- Hrec3. rewrite !Hrec by auto.
    rewrite Hroot5; [reflexivity|]. destruct Hne as [Hne|Hne]; [|exact Hne].
    intros ->. apply Hne. reflexivity. }
  eexists; split; [rewrite Hh5, <- !app_assoc; reflexivity|]. split.
  - intros ev [<-|[<-|[<-|[]]]] Hev; try assumption.
    simpl in Hev. destruct Hev as [Hev|Hev]; [discriminate|]. auto.
  - simpl. auto.
Qed.

End WriteRecord.

End JdbFacts.

Module QuietFacts.
Import Tree TreeFacts Str StrFacts Filepath FilepathFacts Sys SysFacts.
Import LocateFacts Jdb LayoutFacts JdbFacts.

(** Undisturbed, a system call is a function of the file system. *)
Lemma syscall_quiet {A} (c : call) (normal : FS -> errno + (A * node)) (w : World) :
  faults w = [] ->
  syscall c normal w
  = match normal (fs w) with
    | inl e => (inl e, advance w c (Some e) (root (fs w)))
    | inr (a, r') => (inr a, advance w c None r')
    end.
Proof. unfold syscall. intros ->. reflexivity. Qed.

Lemma quiet_advance (w : World) c e r : faults w = [] -> faults (advance w c e r) = [].
Proof. unfold advance. simpl. intros ->. reflexivity. Qed.

Lemma fs_advance_same (w : World) c e : fs (advance w c e (root (fs w))) = fs w.
Proof. unfold advance. simpl. destruct (fs w). reflexivity. Qed.

Lemma mkFS_eta (t : FS) : mkFS (cwd t) (root t) = t.
Proof. destruct t. reflexivity. Qed.

Lemma fs_advance2_same (w : World) c e c' e' :
  fs (advance (advance w c e (root (fs w))) c' e' (root (fs w))) = fs w.
Proof. unfold advance. simpl. apply mkFS_eta. Qed.

Lemma os_Stat_quiet (path : string) (w : World) :
  faults w = [] -> path <> "" ->
  os_Stat path w
  = match lookup (locate (cwd (fs w)) path) (root (fs w)) with
    | inl e => ((None, Some (PathError "stat" path e)),
                advance w (CStat path) (Some e) (root (fs w)))
    | inr n => ((Some (mkInfo (base_name path) (is_dir n)), None),
                advance w (CStat path) None (root (fs w)))
    end.
Proof.
  intros Hq Hp. unfold os_Stat, bind. rewrite syscall_quiet by assumption.
  rewrite at_path_run by assumption.
  destruct (lookup _ _); reflexivity.
Qed.

Lemma ioutil_ReadFile_quiet (path : string) (w : World) :
  faults w = [] -> path <> "" ->
  ioutil_ReadFile path w
  = match lookup (locate (cwd (fs w)) path) (root (fs w)) with
    | inl e => (("", Some (PathError (read_op e) path e)),
                advance w (CReadFile path) (Some e) (root (fs w)))
    | inr (Dir _) => (("", Some (PathError "read" path EISDIR)),
                      advance w (CReadFile path) (Some EISDIR) (root (fs w)))
    | inr (File data) => ((data, None),
                          advance w (CReadFile path) None (root (fs w)))
    end.
Proof.
  intros Hq Hp. unfold ioutil_ReadFile, bind. rewrite syscall_quiet by assumption.
  rewrite at_path_run by assumption.
  destruct (lookup _ _) as [e|[data|es]]; reflexivity.
Qed.

Lemma ioutil_ReadDir_missing (path : string) (w : World) (e : errno) :
  faults w = [] -> path <> "" ->
  lookup (locate (cwd (fs w)) path) (root (fs w)) = inl e ->
  ioutil_ReadDir path w
  = (([], Some (PathError "open" path e)),
     advance w (CReadDir path) (Some e) (root (fs w))).
Proof.
  intros Hq Hp Hl. unfold ioutil_ReadDir, bind. rewrite syscall_quiet by assumption.
  rewrite at_path_run by assumption. unfold readdir_op. rewrite Hl. reflexivity.
Qed.

Lemma os_RemoveAll_quiet (path : string) (w : World) :
  faults w = [] -> path <> "" -> ends_with_dot path = false ->
  os_RemoveAll path w
  = match remove_all (locate (cwd (fs w)) path) (root (fs w)) with
    | inl e => (Some (PathError "unlinkat" path e),
                advance w (CRemoveAll path) (Some e) (root (fs w)))
    | inr r => (None, advance w (CRemoveAll path) None r)
    end.
Proof.
  intros Hq Hp Hd. unfold os_RemoveAll.
  apply String.eqb_neq in Hp. rewrite Hp, Hd.
  unfold bind. rewrite syscall_quiet by assumption.
  destruct (remove_all _ _); reflexivity.
Qed.

Lemma json_not_empty (path : string) : path +++ ".json" <> "".
Proof. intros E. apply append_eq_nil in E. destruct E; discriminate. Qed.

(** The probe [stat], undisturbed: the path, then the path with the
    extension. *)
Lemma stat_quiet_bare (path : string) (w : World) (n : node) :
  faults w = [] -> path <> "" ->
  lookup (locate (cwd (fs w)) path) (root (fs w)) = inr n ->
  stat path w
  = ((Some (mkInfo (base_name path) (is_dir n)), None),
     advance w (CStat path) None (root (fs w))).
Proof.
  intros Hq Hp Hl. unfold stat, bind.
  rewrite os_Stat_quiet, Hl by assumption. reflexivity.
Qed.

Lemma stat_quiet_ext (path : string) (w : World) :
  faults w = [] -> path <> "" ->
  lookup (locate (cwd (fs w)) path) (root (fs w)) = inl ENOENT ->
  stat path w
  = (match lookup (locate (cwd (fs w)) (path +++ ".json")) (root (fs w)) with
     | inl e => (None, Some (PathError "stat" (path +++ ".json") e))
     | inr n => (Some (mkInfo (base_name (path +++ ".json")) (is_dir n)), None)
     end,
     advance (advance w (CStat path) (Some ENOENT) (root (fs w)))
       (CStat (path +++ ".json"))
       (match lookup (locate (cwd (fs w)) (path +++ ".json")) (root (fs w)) with
        | inl e => Some e
        | inr _ => None
        end) (root (fs w))).
Proof.
  intros Hq Hp Hl. unfold stat, bind.
  rewrite os_Stat_quiet, Hl by assumption. cbv beta iota.
  change (os_IsNotExist (Some (PathError "stat" path ENOENT))) with true. cbv iota.
  rewrite os_Stat_quiet by (try apply quiet_advance; try apply json_not_empty; assumption).
  rewrite fs_advance_same.
  destruct (lookup (locate (cwd (fs w)) (path +++ ".json")) (root (fs w)));
    reflexivity.
Qed.

Lemma getMutex_quiet (c : string) (w : World) :
  faults w = [] ->
  fs (snd (getMutex c w)) = fs w /\ faults (snd (getMutex c w)) = [] /\
  history (snd (getMutex c w)) = history w.
Proof.
  intros Hq. destruct (getMutex c w) as [u w0] eqn:E.
  apply getMutex_inv in E as (H1 & H2 & H3 & _). simpl. rewrite H2. auto.
Qed.

End QuietFacts.

Module StoreFacts.
Import Tree TreeFacts Str StrFacts Filepath FilepathFacts Sys SysFacts.
Import LocateFacts Jdb LayoutFacts JdbFacts QuietFacts.

(** The path [Read] builds, and the file it reads, under the layout. *)
Lemma Read_paths (wd : list string) (d : Driver) (c k : string) :
  dir d <> "" -> real (base_name k) = true ->
  exists P nm,
    locate wd (Join [dir d; c; k]) = P ++ [nm] /\
    locate wd (Join [dir d; c; k] +++ ".json") = P ++ [nm +++ ".json"] /\
    locate wd (record_path d c k) = P ++ [nm +++ ".json"].
Proof.
  intros Hd Hk. rewrite Join_cons by assumption. simpl join.
  set (R := dir d +++ "/" +++ c +++ "/" +++ k).
  assert (HR : real (base_name R) = true).
  { unfold R. rewrite !base_name_app_sep. assumption. }
  assert (Hlay : record_path d c k = R +++ ".json").
  { unfold record_path, R. rewrite !append_assoc. reflexivity. }
  exists (parent_loc wd R), (base_name R). repeat split.
  - rewrite locate_Clean by (apply real_not_empty; assumption).
    apply locate_real; assumption.
  - rewrite Clean_suffix by (assumption || reflexivity).
    rewrite locate_Clean by apply json_not_empty.
    apply locate_suffix; [assumption | reflexivity].
  - rewrite Hlay. apply locate_suffix; [assumption | reflexivity].
Qed.

(** Undisturbed, [Read] returns the committed record of a key that ends
    in a name. *)
Lemma Read_record (d : Driver) (c k data : string) (w : World) :
  faults w = [] -> dir d <> "" -> c <> "" -> real (base_name k) = true ->
  record_at d c k (fs w) = Some data ->
  fst (Read d c k w) = (data, None) /\ fs (snd (Read d c k w)) = fs w.
Proof.
  intros Hq Hd Hc Hk Hrec.
  assert (Hk' : k <> "") by (apply real_not_empty; assumption).
  destruct (Read_paths (cwd (fs w)) d c k Hd Hk) as (P & nm & Hbare & Hext & Hlay).
  unfold record_at, file_at in Hrec. rewrite Hlay in Hrec.
  destruct (lookup (P ++ [nm +++ ".json"]) (root (fs w))) as [e|[data'|es]] eqn:Hfile;
    try discriminate.
  inversion Hrec; subst data'. clear Hrec.
  unfold Read. apply String.eqb_neq in Hc, Hk'. rewrite Hc, Hk'.
  set (rec := Join [dir d; c; k]) in *.
  assert (Hrne : rec <> "") by (apply Join_not_empty; assumption).
  assert (Hstat : exists fi w1,
             stat rec w = ((Some fi, None), w1) /\ fs w1 = fs w /\ faults w1 = []).
  { destruct (lookup_sibling_cases P (nm +++ ".json") nm (root (fs w)))
      as [Hmiss|(x & Hx)].
    - right. eauto.
    - rewrite <- Hbare in Hmiss.
      rewrite stat_quiet_ext by assumption.
      rewrite Hext, Hfile. do 2 eexists. split; [reflexivity|].
      rewrite fs_advance2_same. split; [reflexivity|].
      apply quiet_advance, quiet_advance; assumption.
    - rewrite <- Hbare in Hx.
      rewrite (stat_quiet_bare rec w x) by assumption.
      do 2 eexists. split; [reflexivity|].
      rewrite fs_advance_same. split; [reflexivity|].
      apply quiet_advance; assumption. }
  destruct Hstat as (fi & w1 & Hst & Hfs1 & Hq1).
  unfold bind. rewrite Hst. cbv beta iota.
  rewrite ioutil_ReadFile_quiet by (try apply json_not_empty; assumption).
  rewrite Hfs1, Hext, Hfile. simpl.
  split; [reflexivity|].
  rewrite Hfs1. apply mkFS_eta.
Qed.

(** The driver [New] returns has the cleaned path as its root, which is
    never the empty string. *)
Lemma New_dir (x : string) (opt : option Options) (w : World) :
  dir (fst (fst (New x opt w))) = Clean x.
Proof.
  unfold New, bind, make_mutexes.
  destruct (os_Stat (Clean x) _) as [[fi [e|]] w1]; cbv beta iota.
  - destruct (Debug _ _ _ w1) as [u w2].
    destruct (os_MkdirAll (Clean x) w2) as [err w3]. reflexivity.
  - destruct (Debug _ _ _ w1) as [u w2]. reflexivity.
Qed.

Lemma New_dir_not_empty (x : string) (opt : option Options) (w : World) :
  dir (fst (fst (New x opt w))) <> "".
Proof. rewrite New_dir. apply Clean_not_empty. Qed.

Section StoreWrite.
Context {Value : Type}.
Variable enc : Value -> string -> string -> string * option error.

(** A successful [doWrite] commits the encoded value and a newline. *)
Lemma doWrite_success (d : Driver) (c k : string) (v : Value) (w w' : World) r :
  dir d <> "" ->
  doWrite enc d c k v w = ((r, None), w') ->
  r = k /\
  exists b, enc v "" tab = (b, None) /\
            record_at d c k (fs w') = Some (b +++ newline).
Proof.
  intros Hd H. unfold doWrite in H. fold (fnlPath d c k) in H.
  apply bind_inv in H as (u & w1 & Hm & H).
  apply getMutex_inv in Hm as (Hfs1 & _).
  apply bind_inv in H as (err1 & w2 & Hmk & H).
  apply os_MkdirAll_inv in Hmk as ((Hcwd2 & _) & _).
  destruct err1 as [e1|]; [apply ret_inv in H as (H & _); discriminate|].
  destruct (enc v "" tab) as [b [e|]] eqn:Eenc;
    [apply ret_inv in H as (H & _); discriminate|].
  apply bind_inv in H as (err2 & w3 & Hwr & H).
  apply ioutil_WriteFile_inv in Hwr as ((Hcwd3 & _) & _ & Hw3).
  destruct err2 as [e2|]; [apply ret_inv in H as (H & _); discriminate|].
  specialize (Hw3 eq_refl). apply write_file_same in Hw3.
  apply bind_inv in H as (u' & w4 & Hlog & H).
  unfold Info in Hlog. apply log_to_inv in Hlog as (Hfs4 & _).
  apply bind_inv in H as (err3 & w5 & Hrn & H).
  apply os_Rename_inv in Hrn as ((Hcwd5 & _) & _ & Hr5).
  apply ret_inv in H as (H & <-). inversion H; subst r err3.
  specialize (Hr5 eq_refl). rewrite Hfs4 in Hr5, Hcwd5.
  rewrite Hfs1 in Hcwd2. rewrite Hcwd2 in Hcwd3, Hw3.
  rewrite Hcwd3 in Hcwd5, Hr5.
  split; [reflexivity|]. exists b. split; [reflexivity|].
  unfold record_at. rewrite <- fnlPath_layout by assumption.
  rewrite Hcwd5.
  eapply rename_file; eauto.
Qed.

(** A [Write] that reports no error had a collection, returns its key
    and has committed the encoded value. *)
Lemma Write_success (d : Driver) (c k : string) (v : Value) (w : World) :
  dir d <> "" ->
  snd (fst (Write enc d c k v w)) = None ->
  c <> "" /\
  fst (fst (Write enc d c k v w)) = k /\
  exists b, enc v "" tab = (b, None) /\
            record_at d c k (fs (snd (Write enc d c k v w))) = Some (b +++ newline).
Proof.
  intros Hd Hok. unfold Write in *.
  destruct (String.eqb c "") eqn:Ec; [discriminate|].
  destruct (String.eqb k ""); [discriminate|].
  apply String.eqb_neq in Ec. split; [assumption|].
  destruct (doWrite enc d c k v w) as [[rk err] w'] eqn:E.
  simpl in Hok. subst err. simpl.
  eapply doWrite_success; eauto.
Qed.

End StoreWrite.

End StoreFacts.

Module StatFacts.
Import Tree TreeFacts Str StrFacts Filepath FilepathFacts Sys SysFacts.
Import LocateFacts Jdb LayoutFacts JdbFacts QuietFacts.

Lemma syscall_calm {A} (c : call) (normal : FS -> errno + (A * node)) (w : World) :
  calm w ->
  syscall c normal w
  = match normal (fs w) with
    | inl e => (inl e, advance w c (Some e) (root (fs w)))
    | inr (a, r') => (inr a, advance w c None r')
    end.
Proof.
  unfold syscall, calm. destruct (faults w) as [|[f|] rest]; tauto || reflexivity.
Qed.

Lemma os_Stat_calm_found (path : string) (w : World) (n : node) :
  calm w -> path <> "" ->
  lookup (locate (cwd (fs w)) path) (root (fs w)) = inr n ->
  os_Stat path w
  = ((Some (mkInfo (base_name path) (is_dir n)), None),
     advance w (CStat path) None (root (fs w))).
Proof.
  intros Hc Hp Hl. unfold os_Stat, bind. rewrite syscall_calm by assumption.
  rewrite at_path_run, Hl by assumption. reflexivity.
Qed.

(** A [Stat] of something that is not there fails, disturbed or not. *)
Lemma os_Stat_missing (path : string) (w w' : World) fi err (e : errno) :
  lookup (locate (cwd (fs w)) path) (root (fs w)) = inl e ->
  os_Stat path w = ((fi, err), w') ->
  fi = None /\ err <> None.
Proof.
  intros Hl H. unfold os_Stat in H. apply bind_inv in H as (r & w1 & Hs & Hr).
  apply syscall_inv in Hs as (_ & Hcase). apply ret_inv in Hr as (Hr & _).
  assert (Hres : exists e', r = inl e').
  { destruct Hcase as [(f & rest & _ & -> & _)|(_ & [(e' & _ & -> & _)|(a & Hn & _)])];
      eauto.
    unfold at_path in Hn. destruct (String.eqb path ""); [discriminate|].
    rewrite Hl in Hn. discriminate. }
  destruct Hres as (e' & ->). inversion Hr. split; [reflexivity | discriminate].
Qed.

Lemma fs_eq (a b : FS) : cwd a = cwd b -> root a = root b -> a = b.
Proof. destruct a, b. simpl. intros -> ->. reflexivity. Qed.

Lemma os_Stat_fs (path : string) (w w' : World) res :
  os_Stat path w = (res, w') ->
  fs w' = fs w /\ logged w' = logged w /\ registry w' = registry w /\
  history w' = history w ++ [mkEvent (CStat path) (errno_of (snd res)) (fs w)].
Proof.
  destruct res as [fi err]. intros H.
  apply os_Stat_inv in H as ((Hcwd & _ & Hh & Hl & Hr) & Hroot & _).
  assert (Hfs : fs w' = fs w) by (apply fs_eq; assumption).
  rewrite Hfs in Hh. auto.
Qed.

(** The probe fails when neither path is there, disturbed or not, and
    makes only [Stat] calls. *)
Lemma stat_missing (path : string) (w w' : World) fi err (e1 e2 : errno) :
  lookup (locate (cwd (fs w)) path) (root (fs w)) = inl e1 ->
  lookup (locate (cwd (fs w)) (path +++ ".json")) (root (fs w)) = inl e2 ->
  stat path w = ((fi, err), w') ->
  fi = None /\ err <> None /\
  fs w' = fs w /\ logged w' = logged w /\
  exists evs, history w' = history w ++ evs /\
              Forall (fun ev => is_stat (ev_call ev) = true) evs.
Proof.
  intros H1 H2 H. unfold stat in H.
  apply bind_inv in H as ([fi1 err1] & w1 & Hs1 & H).
  pose proof (os_Stat_missing _ _ _ _ _ _ H1 Hs1) as (Hfi1 & Herr1).
  apply os_Stat_fs in Hs1 as (Hfs1 & Hlg1 & _ & Hh1).
  destruct (os_IsNotExist err1).
  - rewrite <- Hfs1 in H2.
    pose proof (os_Stat_missing _ _ _ _ _ _ H2 H) as (Hfi & Herr).
    apply os_Stat_fs in H as (Hfs & Hlg & _ & Hh).
    repeat split; try congruence.
    eexists. split; [rewrite Hh, Hh1, <- app_assoc; reflexivity|].
    repeat constructor.
  - apply ret_inv in H as (H & <-). inversion H; subst.
    repeat split; try congruence.
    eexists. split; [exact Hh1|]. repeat constructor.
Qed.

End StatFacts.

Module ProbeFacts.
Import Tree TreeFacts Str StrFacts Filepath FilepathFacts Sys SysFacts.
Import LocateFacts Jdb LayoutFacts JdbFacts QuietFacts StoreFacts.
Import StatFacts.

Lemma rev_not_nil {A} (x : A) (l : list A) : rev (x :: l) <> [].
Proof. simpl. destruct (rev l); discriminate. Qed.

Lemma split_render (r : bool) (out : list string) :
  normal r out = true -> out <> [] ->
  split (render r out) = (if r then [""] else []) ++ rev out.
Proof.
  intros Hn Hne. destruct out as [|c out]; [congruence|].
  pose proof (normal_slash_free _ _ Hn) as Hsf. apply Forall_rev in Hsf.
  unfold render. destruct r.
  - change ("/" +++ join (rev (c :: out))) with ("" +++ "/" +++ join (rev (c :: out))).
    rewrite split_app_sep, split_join by (apply rev_not_nil || assumption).
    reflexivity.
  - rewrite split_join by (apply rev_not_nil || assumption). reflexivity.
Qed.

Lemma Clean_real (s : string) :
  real (base_name s) = true ->
  exists out,
    Clean s = render (rooted s) (base_name s :: out) /\
    normal (rooted s) (base_name s :: out) = true.
Proof.
  intros Hr. pose proof (real_not_empty _ Hr) as Hne.
  pose proof (Clean_normal s) as Hn.
  rewrite Clean_render by assumption.
  rewrite (split_snoc s) in *. rewrite fold_left_app in *. simpl in *.
  fold (base_name s) in *. rewrite clean_step_real in * by assumption.
  eauto.
Qed.

Lemma base_name_Clean (s : string) :
  real (base_name s) = true -> base_name (Clean s) = base_name s.
Proof.
  intros Hr. destruct (Clean_real s Hr) as (out & -> & Hn).
  unfold base_name at 1. rewrite split_render by (assumption || discriminate).
  simpl rev. rewrite app_assoc. apply last_last.
Qed.

(** Cleaning a cleaned path changes nothing. *)
Lemma Clean_idempotent (s : string) : Clean (Clean s) = Clean s.
Proof.
  destruct s as [|a s]; [reflexivity|].
  rewrite (Clean_render (String a s)) by discriminate.
  pose proof (Clean_normal (String a s)) as Hn.
  set (r := rooted (String a s)) in *. clearbody r.
  set (out := fold_left (clean_step r) (split (String a s)) []) in *. clearbody out.
  destruct out as [|c out]; [destruct r; reflexivity|].
  assert (Hne : render r (c :: out) <> "").
  { unfold render. destruct r; [discriminate|].
    apply join_not_empty; [apply rev_not_nil|].
    apply Forall_rev. eapply normal_nonempty; eassumption. }
  rewrite Clean_render by assumption.
  rewrite rooted_render, split_render by (assumption || discriminate).
  rewrite fold_left_app.
  assert (Hstart : fold_left (clean_step r) (if r then [""] else []) [] = []).
  { destruct r; reflexivity. }
  rewrite Hstart, fold_clean_rev by assumption. reflexivity.
Qed.

Lemma ends_with_dot_Clean (s : string) :
  real (base_name s) = true -> ends_with_dot (Clean s) = false.
Proof.
  intros Hr. unfold ends_with_dot. rewrite base_name_Clean by assumption.
  apply real_spec in Hr. apply String.eqb_neq. tauto.
Qed.

Lemma ends_with_dot_json (x : string) : ends_with_dot (x +++ ".json") = false.
Proof.
  unfold ends_with_dot. rewrite base_name_suffix by reflexivity.
  pose proof (real_json (base_name x)) as Hr. apply real_spec in Hr.
  apply String.eqb_neq. tauto.
Qed.

(** A cleaned path that ends in a name, and the same with a suffix, lead
    to two names in one directory. *)
Lemma Clean_siblings (wd : list string) (s sfx : string) :
  real (base_name s) = true -> slash_free sfx = true ->
  locate wd (Clean s) = parent_loc wd s ++ [base_name s] /\
  locate wd (Clean s +++ sfx) = parent_loc wd s ++ [base_name s +++ sfx].
Proof.
  intros Hr Hs. split.
  - rewrite locate_Clean by (apply real_not_empty; assumption).
    apply locate_real; assumption.
  - rewrite Clean_suffix by assumption. rewrite locate_Clean.
    + apply locate_suffix; assumption.
    + intros E. apply append_eq_nil in E. destruct E as [E _].
      revert E. apply real_not_empty. assumption.
Qed.

(** When a cleaned path leads to nothing, the path with the extension
    leads to nothing or to something, never into a regular file. *)
Lemma probe_cases (wd : list string) (s : string) (n : node) :
  s <> "" ->
  lookup (locate wd (Clean s)) n = inl ENOENT ->
  lookup (locate wd (Clean s +++ ".json")) n = inl ENOENT
  \/ exists x, lookup (locate wd (Clean s +++ ".json")) n = inr x.
Proof.
  intros Hs. rewrite Clean_render by assumption.
  pose proof (Clean_normal s) as Hn.
  set (r := rooted s) in *. clearbody r.
  set (out := fold_left (clean_step r) (split s) []) in *. clearbody out.
  destruct out as [|c out].
  - destruct r; simpl; [discriminate|].
    unfold locate. simpl. rewrite rev_involutive.
    intros H. left. apply lookup_app_missing.
    change (walk_step (rev wd) ".") with (rev wd) in H.
    rewrite rev_involutive in H. assumption.
  - assert (Hsfx : render r (c :: out) +++ ".json" = render r ((c +++ ".json") :: out)).
    { unfold render. destruct r; simpl rev.
      - simpl. f_equal. apply join_snoc_suffix.
      - destruct (rev out ++ [c]) eqn:E; [destruct (rev out); discriminate|].
        rewrite <- E. rewrite join_snoc_suffix.
        destruct (rev out ++ [c +++ ".json"]) eqn:E'; [destruct (rev out); discriminate|].
        reflexivity. }
    assert (Hn' : normal r ((c +++ ".json") :: out) = true).
    { simpl in *. apply andb_true_iff in Hn as [Hc Hn].
      rewrite slash_free_app, Hc. simpl.
      pose proof (real_json c) as Hj. pose proof Hj as Hj'.
      apply real_spec in Hj' as (_ & _ & Hdd). apply String.eqb_neq in Hdd.
      rewrite Hdd, Hj. simpl.
      destruct (String.eqb c "..").
      - apply andb_true_iff in Hn as [Hr Hd]. destruct r; [discriminate|].
        apply dots_normal. assumption.
      - apply andb_true_iff in Hn as [_ Hn]. assumption. }
    rewrite Hsfx. rewrite !locate_render by assumption.
    simpl rev. rewrite !fold_left_app. simpl fold_left.
    set (W := fold_left walk_step (rev out) (start r wd)).
    rewrite (walk_step_real W (c +++ ".json")) by apply real_json.
    simpl rev.
    destruct (String.eqb c "..") eqn:Edd.
    + apply String.eqb_eq in Edd. subst c.
      change (walk_step W "..") with (tl W).
      destruct W as [|x W']; simpl; [discriminate|].
      intros H. left.
      rewrite <- app_assoc. apply lookup_app_missing. assumption.
    + simpl in Hn. rewrite Edd in Hn.
      apply andb_true_iff in Hn as [_ Hn]. apply andb_true_iff in Hn as [Hreal _].
      rewrite walk_step_real by assumption. simpl rev.
      intros H. apply (lookup_sibling_cases (rev W) c). left. assumption.
Qed.

(** Undisturbed, [ReadAll] of a collection whose directory is missing
    fails with a not-found error and leaves the file system alone. *)
Lemma ReadAll_missing (d : Driver) (c : string) (w : World) :
  faults w = [] -> c <> "" ->
  lookup (locate (cwd (fs w)) (Join [dir d; c])) (root (fs w)) = inl ENOENT ->
  exists e,
    fst (ReadAll d c w) = ([], Some e) /\ not_found e = true /\
    fs (snd (ReadAll d c w)) = fs w.
Proof.
  intros Hq Hc Hl. unfold ReadAll.
  pose proof Hc as Hc'. apply String.eqb_neq in Hc'. rewrite Hc'.
  set (T := Join [dir d; c]) in *.
  assert (HT : exists s, s <> "" /\ T = Clean s).
  { unfold T. simpl. destruct (String.eqb (dir d) "") eqn:Ed.
    - rewrite Hc'. exists c. auto.
    - exists (dir d +++ "/" +++ c). split; [|reflexivity].
      intros E. apply append_eq_nil in E. destruct E as [E _].
      apply String.eqb_neq in Ed. auto. }
  destruct HT as (s & Hs & HT).
  assert (HTne : T <> "") by (rewrite HT; apply Clean_not_empty).
  unfold bind. rewrite stat_quiet_ext by assumption.
  pose proof (probe_cases (cwd (fs w)) s (root (fs w)) Hs) as Hp.
  rewrite <- HT in Hp. specialize (Hp Hl).
  destruct Hp as [Hp|(x & Hp)]; rewrite Hp; cbv beta iota.
  - eexists. split; [reflexivity|]. split; [reflexivity|].
    unfold ret. simpl. apply mkFS_eta.
  - set (w2 := advance (advance w (CStat T) (Some ENOENT) (root (fs w)))
                  (CStat (T +++ ".json")) None (root (fs w))).
    assert (Hfs2 : fs w2 = fs w) by apply fs_advance2_same.
    assert (Hq2 : faults w2 = []) by (apply quiet_advance, quiet_advance; assumption).
    rewrite (ioutil_ReadDir_missing T w2 ENOENT);
      [| assumption | assumption | rewrite Hfs2; assumption].
    cbv beta iota. eexists. split; [reflexivity|]. split; [reflexivity|].
    unfold ret, advance. simpl. apply mkFS_eta.
Qed.

End ProbeFacts.

Module DeleteFacts.
Import Tree TreeFacts Str StrFacts Filepath FilepathFacts Sys SysFacts.
Import LocateFacts Jdb LayoutFacts JdbFacts QuietFacts StoreFacts.
Import StatFacts ProbeFacts.


End DeleteFacts.

Module ReadAllFacts.
Import Tree TreeFacts Str StrFacts Filepath FilepathFacts Sys SysFacts.
Import LocateFacts Jdb LayoutFacts JdbFacts QuietFacts StoreFacts.
Import StatFacts ProbeFacts.

Lemma read_each_cons (dir : string) (f : FileInfo) (rest : list FileInfo)
    (acc : list string) (w : World) :
  read_each dir (f :: rest) acc w
  = match ioutil_ReadFile (Join [dir; Name f]) w with
    | ((_, Some e), w1) => (([], Some e), w1)
    | ((b, None), w1) => read_each dir rest (acc ++ [b]) w1
    end.
Proof.
  cbn [read_each]. unfold bind.
  destruct (ioutil_ReadFile (Join [dir; Name f]) w) as [[b [e|]] w1]; reflexivity.
Qed.

(** The loop goes on after the files it could read. *)
Lemma read_each_app (dir : string) (pre rest : list FileInfo) :
  forall (acc recs : list string) (w w' : World),
    read_each dir pre acc w = ((recs, None), w') ->
    read_each dir (pre ++ rest) acc w = read_each dir rest recs w'.
Proof.
  induction pre as [|f pre IH]; intros acc recs w w' H.
  - cbn [read_each] in H. apply ret_inv in H as (H & <-). inversion H. reflexivity.
  - rewrite <- app_comm_cons. rewrite read_each_cons in *.
    destruct (ioutil_ReadFile (Join [dir; Name f]) w) as [[b [e|]] w1].
    + discriminate.
    + eapply IH. exact H.
Qed.

(** A failure of the loop returns no records. *)
Lemma read_each_error (dir : string) (files : list FileInfo) :
  forall (acc recs : list string) (w w' : World) (e : error),
    read_each dir files acc w = ((recs, Some e), w') -> recs = [].
Proof.
  induction files as [|f files IH]; intros acc recs w w' e H.
  - cbn [read_each] in H. apply ret_inv in H as (H & _). discriminate.
  - rewrite read_each_cons in H.
    destruct (ioutil_ReadFile (Join [dir; Name f]) w) as [[b [e'|]] w1].
    + inversion H. reflexivity.
    + eapply IH. exact H.
Qed.

End ReadAllFacts.

Module Runs.
Import Tree Sys Jdb Scenario.

Local Open Scope go_scope.

(** [New("./db", nil)] in an empty home directory makes [db] and returns
    the driver of the scenarios. *)
Example New_makes_root :
  let r := New "./db" None (world (Dir []) []) in
  fst r = (db, None) /\
  root (fs (snd r)) = Dir [("home", Dir [("db", Dir [])])] /\
  map ev_call (history (snd r)) = [CStat "db"; CMkdirAll "db"].
Proof. repeat split. Qed.

(** Three records written out of order are listed by name; an update
    replaces one, a delete removes one. *)
Example three_records :
  let run :=
    Write encode db "users" "b" false ;;
    Write encode db "users" "a" true ;;
    Write encode db "users" "c" true ;;
    all <- ReadAll db "users" ;;
    Update encode db "users" "a" false ;;
    a <- Read db "users" "a" ;;
    Delete db "users" "b" ;;
    rest <- ReadAll db "users" ;;
    ret (all, a, rest) in
  fst (run (world empty_store []))
  = ((["true" +++ newline; "false" +++ newline; "true" +++ newline], None),
     ("false" +++ newline, None),
     (["false" +++ newline; "true" +++ newline], None)) /\
  registry (snd (run (world empty_store []))) = ["users"].
Proof. split; reflexivity. Qed.

(** One run of [Write], call by call. *)
Example write_calls :
  map (fun ev => (ev_call ev, ev_err ev))
    (history (snd (Write encode db "users" "7" true (world empty_store []))))
  = [(CMkdirAll "db/users", None);
     (CWriteFile "db/users/7.json.tmp" ("true" +++ newline), None);
     (CRename "db/users/7.json.tmp" "db/users/7.json", None)].
Proof. reflexivity. Qed.

End Runs.

Module FrameFacts.
Import Tree TreeFacts.

Lemma file_at_cons (c : string) (q : list string) (es : entries_t) :
  file_at (c :: q) (Dir es)
  = match find_entry c es with
    | Some child => file_at q child
    | None => None
    end.
Proof. unfold file_at. simpl. destruct (find_entry c es); reflexivity. Qed.

(** A change at [p] leaves every regular file that is not at or below
    [p] as it was. *)
Lemma alter_frame (p : list string) f :
  forall (q : list string) (n n' : node),
    alter_at p f (Some n) = inr (Some n') ->
    is_prefix p q = false ->
    file_at q n' = file_at q n.
Proof.
  induction p as [|c p IH]; intros q n n' H Hq; [discriminate|].
  apply alter_at_cons in H as (es & child & Hcur & Halt & Hres).
  inversion Hcur; subst n. inversion Hres; subst n'. clear Hcur Hres.
  destruct q as [|c' q]; [reflexivity|].
  rewrite !file_at_cons. simpl in Hq.
  destruct (String.eqb c c') eqn:Ec.
  - apply String.eqb_eq in Ec. subst c'. simpl in Hq.
    destruct p as [|c2 p]; [discriminate|].
    pose proof Halt as Halt'.
    apply alter_at_cons in Halt' as (es' & ch' & Hc' & _ & Hr').
    subst child. rewrite find_set_same, Hc'.
    eapply IH; [|exact Hq]. rewrite <- Hc'. exact Halt.
  - apply String.eqb_neq in Ec.
    destruct child; [rewrite find_set_other | rewrite find_remove_other]; auto.
Qed.

Lemma write_file_frame (p q : list string) (data : string) (n n' : node) :
  write_file p data n = inr n' -> is_prefix p q = false ->
  file_at q n' = file_at q n.
Proof.
  unfold write_file. intros H Hq.
  destruct (alter_at p (put_file data) (Some n)) as [e|[r|]] eqn:E; try discriminate.
  inversion H; subst. eapply alter_frame; eauto.
Qed.

Lemma remove_all_frame (p q : list string) (n n' : node) :
  remove_all p n = inr n' -> is_prefix p q = false ->
  file_at q n' = file_at q n.
Proof.
  unfold remove_all. intros H Hq. destruct p as [|c p]; [discriminate|].
  destruct (alter_at (c :: p) (fun _ => inr None) (Some n)) as [e|[r|]] eqn:E.
  - destruct e; inversion H; subst; reflexivity.
  - inversion H; subst. eapply alter_frame; eauto.
  - discriminate.
Qed.

Lemma rename_frame (old new q : list string) (n n' : node) :
  rename old new n = inr n' ->
  is_prefix old q = false -> is_prefix new q = false ->
  file_at q n' = file_at q n.
Proof.
  unfold rename. intros H Ho Hn.
  destruct (lookup old n) as [e|x]; [discriminate|].
  assert (Hgo : (if list_eqb old new then inr n
                 else if is_prefix old new then inl EINVAL
                 else match remove_all old n with
                      | inl e => inl e
                      | inr r1 =>
                          match alter_at new (fun _ => inr (Some x)) (Some r1) with
                          | inl e => inl e
                          | inr (Some r2) => inr r2
                          | inr None => inl EINVAL
                          end
                      end) = inr n').
  { destruct (lookup new n) as [[]|[|]]; try discriminate; try exact H;
      destruct (list_eqb old new); try exact H; destruct x; try discriminate; exact H. }
  clear H. destruct (list_eqb old new); [inversion Hgo; reflexivity|].
  destruct (is_prefix old new); [discriminate|].
  destruct (remove_all old n) as [e|r1] eqn:Erm; [discriminate|].
  destruct (alter_at new (fun _ => inr (Some x)) (Some r1)) as [e|[r2|]] eqn:Ealt;
    try discriminate.
  inversion Hgo; subst.
  rewrite (alter_frame _ _ _ _ _ Ealt Hn). eapply remove_all_frame; eauto.
Qed.

Lemma is_prefix_app (p q : list string) : is_prefix p (p ++ q) = true.
Proof. induction p; simpl; [|rewrite String.eqb_refl]; auto. Qed.

Lemma is_prefix_sibling (P : list string) (a b : string) (q : list string) :
  a <> b -> is_prefix (P ++ [a]) (P ++ b :: q) = false.
Proof.
  intros Hab. induction P as [|c P IH]; simpl.
  - apply String.eqb_neq in Hab. rewrite Hab. reflexivity.
  - rewrite String.eqb_refl. exact IH.
Qed.

(** [mkdir -p] that succeeds leaves a directory at the path. *)
Lemma mkdir_all_dir (p : list string) :
  forall (cur : option node) (n' : node),
    mkdir_all p cur = inr n' -> exists es, lookup p n' = inr (Dir es).
Proof.
  induction p as [|c p IH]; intros cur n' H.
  - destruct cur as [[data|es]|]; simpl in H; inversion H; subst; simpl; eauto.
  - destruct cur as [[data|es]|]; simpl in H; try discriminate.
    + destruct (mkdir_all p (find_entry c es)) as [e|child] eqn:E; [discriminate|].
      inversion H; subst. simpl. rewrite find_set_same. eapply IH; eauto.
    + destruct (mkdir_all p None) as [e|child] eqn:E; [discriminate|].
      inversion H; subst. simpl. rewrite String.eqb_refl. eapply IH; eauto.
Qed.

(** Where a directory is already, [mkdir -p] changes nothing. *)
Lemma mkdir_all_existing (p : list string) :
  forall (n : node) (es : entries_t),
    lookup p n = inr (Dir es) -> mkdir_all p (Some n) = inr n.
Proof.
  induction p as [|c p IH]; intros n es H.
  - simpl in H. inversion H; subst. reflexivity.
  - simpl in H. destruct n as [data|es0]; [discriminate|].
    destruct (find_entry c es0) as [child|] eqn:E; [|discriminate].
    simpl. rewrite E, (IH child es H). f_equal. f_equal.
    clear - E. induction es0 as [|[k m] es0 IHes]; [discriminate|].
    simpl in *. destruct (String.eqb k c) eqn:Ek.
    + inversion E; subst. reflexivity.
    + f_equal. apply IHes. assumption.
Qed.

(** Writing a file into an existing directory, not over a directory,
    succeeds. *)
Lemma write_file_ok (P : list string) (a data : string) :
  forall (n : node) (es : entries_t),
    lookup P n = inr (Dir es) ->
    (forall es', find_entry a es <> Some (Dir es')) ->
    exists n', write_file (P ++ [a]) data n = inr n' /\
               exists es', lookup P n' = inr (Dir es') /\
                           forall b, b <> a -> find_entry b es' = find_entry b es.
Proof.
  unfold write_file.
  induction P as [|c P IH]; intros n es Hl Ha.
  - simpl in Hl. inversion Hl; subst. simpl.
    destruct (find_entry a es) as [[d0|es0]|] eqn:E; simpl;
      try (exfalso; eapply Ha; reflexivity);
      (eexists; split; [reflexivity|]; eexists; split; [reflexivity|]);
      intros b Hb; apply find_set_other; auto.
  - simpl in Hl. destruct n as [d0|es0]; [discriminate|].
    destruct (find_entry c es0) as [child|] eqn:E; [|discriminate].
    destruct (IH child es Hl Ha) as (n' & Hw & es' & Hl' & Hsame).
    simpl. rewrite E.
    destruct (alter_at (P ++ [a]) (put_file data) (Some child)) as [e|[r|]];
      try discriminate.
    inversion Hw; subst.
    eexists; split; [reflexivity|]. exists es'. split; [|assumption].
    simpl. rewrite find_set_same. assumption.
Qed.

(** Removing an entry of a directory that exists succeeds, with the
    directory still there. *)
Lemma remove_all_ok (P : list string) (a : string) :
  forall (n : node) (es : entries_t),
    lookup P n = inr (Dir es) ->
    exists n', remove_all (P ++ [a]) n = inr n' /\
               lookup P n' = inr (Dir (remove_entry a es)).
Proof.
  assert (Hgen : forall P n es,
             lookup P n = inr (Dir es) ->
             exists n', alter_at (P ++ [a]) (fun _ => inr None) (Some n) = inr (Some n') /\
                        lookup P n' = inr (Dir (remove_entry a es))).
  { intros P0. induction P0 as [|c P0 IH]; intros n es Hl.
    - simpl in Hl. inversion Hl; subst. simpl. eexists; split; reflexivity.
    - simpl in Hl. destruct n as [d0|es0]; [discriminate|].
      destruct (find_entry c es0) as [child|] eqn:E; [|discriminate].
      destruct (IH child es Hl) as (n' & Hw & Hl').
      simpl. rewrite E, Hw. eexists; split; [reflexivity|].
      simpl. rewrite find_set_same. assumption. }
  intros n es Hl. destruct (Hgen P n es Hl) as (n' & Hw & Hl').
  exists n'. unfold remove_all. rewrite Hw.
  destruct (P ++ [a]) eqn:E; [destruct P; discriminate|]. auto.
Qed.

Lemma lookup_snoc (P : list string) (a : string) :
  forall (n : node) (es : entries_t),
    lookup P n = inr (Dir es) ->
    lookup (P ++ [a]) n
    = match find_entry a es with Some x => inr x | None => inl ENOENT end.
Proof.
  induction P as [|c P IH]; intros n es Hl.
  - simpl in Hl. inversion Hl; subst. simpl. destruct (find_entry a es); reflexivity.
  - simpl in Hl. destruct n as [d0|es0]; [discriminate|].
    destruct (find_entry c es0) as [child|] eqn:E; [|discriminate].
    simpl. rewrite E. eapply IH; eauto.
Qed.

(** Putting a node under a free or file name of an existing directory
    succeeds. *)
Lemma alter_put_ok (P : list string) (a : string) (x : node) :
  forall (n : node) (es : entries_t),
    lookup P n = inr (Dir es) ->
    exists n', alter_at (P ++ [a]) (fun _ => inr (Some x)) (Some n) = inr (Some n') /\
               lookup (P ++ [a]) n' = inr x.
Proof.
  induction P as [|c P IH]; intros n es Hl.
  - simpl in Hl. inversion Hl; subst. simpl. eexists; split; [reflexivity|].
    simpl. rewrite find_set_same. reflexivity.
  - simpl in Hl. destruct n as [d0|es0]; [discriminate|].
    destruct (find_entry c es0) as [child|] eqn:E; [|discriminate].
    destruct (IH child es Hl) as (n' & Hw & Hl').
    simpl. rewrite E, Hw. eexists; split; [reflexivity|].
    simpl. rewrite find_set_same. assumption.
Qed.

Lemma list_eqb_sibling (P : list string) (a b : string) :
  a <> b -> list_eqb (P ++ [a]) (P ++ [b]) = false.
Proof.
  intros Hab. unfold list_eqb. rewrite is_prefix_sibling by assumption. reflexivity.
Qed.

(** Renaming a file onto a sibling name that holds no directory
    succeeds: the source is gone, the target holds its bytes. *)
Lemma rename_ok (P : list string) (a b data : string) (n : node) (es : entries_t) :
  a <> b ->
  lookup P n = inr (Dir es) ->
  find_entry a es = Some (File data) ->
  (forall es', find_entry b es <> Some (Dir es')) ->
  exists n', rename (P ++ [a]) (P ++ [b]) n = inr n' /\
             lookup (P ++ [b]) n' = inr (File data) /\
             lookup (P ++ [a]) n' = inl ENOENT.
Proof.
  intros Hab Hl Ha Hb. unfold rename.
  rewrite (lookup_snoc P a n es Hl), Ha.
  rewrite (lookup_snoc P b n es Hl).
  rewrite list_eqb_sibling, is_prefix_sibling by assumption.
  destruct (remove_all_ok P a n es Hl) as (r1 & Hrm & Hl1).
  destruct (alter_put_ok P b (File data) r1 _ Hl1) as (r2 & Hput & Hl2).
  assert (Hgone : lookup (P ++ [a]) r2 = inl ENOENT).
  { rewrite (lookup_alter_sibling P b a _ (not_eq_sym Hab) r1 r2 Hput).
    rewrite (lookup_snoc P a r1 _ Hl1), find_remove_same. reflexivity. }
  destruct (find_entry b es) as [[d0|es0]|] eqn:Eb.
  - rewrite Hrm, Hput. eauto.
  - exfalso. eapply Hb. reflexivity.
  - rewrite Hrm, Hput. eauto.
Qed.

Lemma mkdir_all_fresh_ok (p : list string) : exists n', mkdir_all p None = inr n'.
Proof.
  induction p as [|c p [n' IH]]; simpl; [eauto|]. rewrite IH. eauto.
Qed.

Lemma mkdir_all_fresh_empty (p : list string) (x : string) :
  forall n', mkdir_all p None = inr n' -> lookup (p ++ [x]) n' = inl ENOENT.
Proof.
  induction p as [|c p IH]; intros n' H; simpl in H.
  - inversion H; subst. reflexivity.
  - destruct (mkdir_all p None) as [e|child] eqn:E; [discriminate|].
    inversion H; subst. simpl. rewrite String.eqb_refl. apply IH. reflexivity.
Qed.

(** [mkdir -p] succeeds when no regular file lies on the way. *)
Lemma mkdir_all_ok (p : list string) :
  forall n, (forall q, is_prefix q p = true -> file_at q n = None) ->
            exists n', mkdir_all p (Some n) = inr n'.
Proof.
  induction p as [|c p IH]; intros n Hclear.
  - specialize (Hclear [] eq_refl). destruct n; [discriminate|]. simpl. eauto.
  - pose proof (Hclear [] eq_refl) as H0. destruct n as [d0|es]; [discriminate|].
    simpl. destruct (find_entry c es) as [child|] eqn:E.
    + destruct (IH child) as (n' & Hn').
      { intros q Hq. specialize (Hclear (c :: q)). simpl in Hclear.
        rewrite String.eqb_refl in Hclear. specialize (Hclear Hq).
        rewrite file_at_cons, E in Hclear. exact Hclear. }
      rewrite Hn'. eauto.
    + destruct (mkdir_all_fresh_ok p) as (n' & Hn'). rewrite Hn'. eauto.
Qed.

(** What is found just below the path after [mkdir -p] was there
    before. *)
Lemma mkdir_all_below (p : list string) (x : string) :
  forall n n' y,
    mkdir_all p (Some n) = inr n' ->
    lookup (p ++ [x]) n' = inr y -> lookup (p ++ [x]) n = inr y.
Proof.
  induction p as [|c p IH]; intros n n' y H Hl.
  - simpl in H. destruct n; inversion H; subst. exact Hl.
  - simpl in H. destruct n as [d0|es]; [discriminate|].
    destruct (mkdir_all p (find_entry c es)) as [e|child] eqn:E; [discriminate|].
    inversion H; subst. simpl in Hl. rewrite find_set_same in Hl. simpl.
    destruct (find_entry c es) as [old|].
    + eapply IH; eauto.
    + rewrite (mkdir_all_fresh_empty p x child E) in Hl. discriminate.
Qed.

End FrameFacts.

Module PlainFacts.
Import Str StrFacts Filepath FilepathFacts Sys LocateFacts Jdb.
Import LayoutFacts ProbeFacts Notions.

Lemma plain_spec (s : string) :
  plain s = true <-> slash_free s = true /\ real s = true.
Proof. unfold plain. apply andb_true_iff. Qed.

Lemma base_name_slash_free (s : string) : slash_free s = true -> base_name s = s.
Proof. intros H. unfold base_name. rewrite split_slash_free by assumption. reflexivity. Qed.

Lemma plain_json (k : string) : slash_free k = true -> plain (k +++ ".json") = true.
Proof.
  intros H. apply plain_spec. split; [|apply real_json].
  rewrite slash_free_app, H. reflexivity.
Qed.

Lemma plain_suffix (k sfx : string) :
  plain k = true -> slash_free sfx = true -> plain (k +++ sfx) = true.
Proof.
  intros Hk Hs. apply plain_spec in Hk as [H1 H2]. apply plain_spec. split.
  - rewrite slash_free_app, H1, Hs. reflexivity.
  - apply real_app. assumption.
Qed.

(** One plain name further down. *)
Lemma locate_child (wd : list string) (a x : string) :
  a <> "" -> plain x = true ->
  locate wd (a +++ "/" +++ x) = locate wd a ++ [x].
Proof.
  intros Ha Hx. apply plain_spec in Hx as [Hs Hr].
  rewrite locate_app_sep by assumption.
  rewrite split_slash_free by assumption. simpl.
  rewrite walk_step_real by assumption. simpl. rewrite rev_involutive. reflexivity.
Qed.

Lemma locate_Join_child (wd : list string) (a x : string) :
  a <> "" -> plain x = true ->
  locate wd (Join [a; x]) = locate wd a ++ [x].
Proof.
  intros Ha Hx. rewrite locate_Join2 by assumption. apply locate_child; assumption.
Qed.

Lemma collection_located (wd : list string) (d : Driver) (c : string) :
  dir d <> "" ->
  locate wd (Join [dir d; c]) = locate wd (collection_path d c).
Proof. intros Hd. apply locate_Join2. assumption. Qed.

(** The final and the temporary path of a key without separator, in the
    directory of the collection. *)
Lemma fnlPath_child (wd : list string) (d : Driver) (c k : string) :
  dir d <> "" -> slash_free k = true ->
  locate wd (fnlPath d c k) = locate wd (collection_path d c) ++ [k +++ ".json"] /\
  locate wd (fnlPath d c k +++ ".tmp")
  = locate wd (collection_path d c) ++ [k +++ ".json.tmp"].
Proof.
  intros Hd Hk. unfold fnlPath.
  set (D := Join [dir d; c]).
  assert (HD : D <> "") by (apply Join_not_empty; assumption).
  assert (Hfnl : locate wd (Join [D; k +++ ".json"])
                 = locate wd (collection_path d c) ++ [k +++ ".json"]).
  { rewrite locate_Join_child by (try apply plain_json; assumption).
    unfold D. rewrite collection_located by assumption. reflexivity. }
  split; [exact Hfnl|].
  set (S := D +++ "/" +++ k +++ ".json").
  assert (HJ : Join [D; k +++ ".json"] = Clean S).
  { rewrite Join_cons by assumption. reflexivity. }
  assert (Hb : base_name S = k +++ ".json").
  { unfold S. rewrite base_name_app_sep. apply base_name_slash_free.
    rewrite slash_free_app, Hk. reflexivity. }
  assert (Hreal : real (base_name S) = true) by (rewrite Hb; apply real_json).
  destruct (Clean_siblings wd S ".tmp" Hreal eq_refl) as (H1 & H2).
  rewrite Hb in H1, H2. rewrite HJ in *. rewrite Hfnl in H1.
  apply app_inj_tail in H1 as [HP _].
  rewrite H2, <- HP, append_assoc. reflexivity.
Qed.

(** The path of a record in the layout, for a key without separator. *)
Lemma record_located (wd : list string) (d : Driver) (c k : string) :
  dir d <> "" -> slash_free k = true ->
  locate wd (record_path d c k) = locate wd (collection_path d c) ++ [k +++ ".json"].
Proof.
  intros Hd Hk. rewrite <- fnlPath_layout by assumption.
  apply fnlPath_child; assumption.
Qed.

(** Two plain names joined are clean already. *)
Lemma Join_plain2 (c k : string) :
  plain c = true -> plain k = true -> Join [c; k] = c +++ "/" +++ k.
Proof.
  intros Hc Hk. apply plain_spec in Hc as [Hcs Hcr]. apply plain_spec in Hk as [Hks Hkr].
  assert (Hne : c <> "") by (intros ->; discriminate).
  rewrite Join_cons by assumption.
  change (join [c; k]) with (c +++ "/" +++ k).
  rewrite Clean_render by (intros E; apply append_eq_nil in E; tauto).
  rewrite rooted_app by assumption.
  rewrite (slash_free_not_rooted c Hcs).
  rewrite split_app_sep, !split_slash_free by assumption. simpl.
  rewrite !clean_step_real by assumption. reflexivity.
Qed.

(** For plain names [doDelete] probes the path [Read] builds. *)
Lemma target_plain (d : Driver) (c k : string) :
  dir d <> "" -> plain c = true -> plain k = true ->
  target d c k = Clean (dir d +++ "/" +++ c +++ "/" +++ k) /\
  Join [dir d; c; k] = Clean (dir d +++ "/" +++ c +++ "/" +++ k).
Proof.
  intros Hd Hc Hk. unfold target. rewrite (Join_plain2 c k Hc Hk).
  split; rewrite Join_cons by exact Hd; reflexivity.
Qed.

(** Where the probe of a plain key looks: the key and the record, in the
    directory of the collection. *)
Lemma target_located (wd : list string) (d : Driver) (c k : string) :
  dir d <> "" -> plain c = true -> plain k = true ->
  let S := dir d +++ "/" +++ c +++ "/" +++ k in
  real (base_name S) = true /\ base_name S = k /\
  parent_loc wd S = locate wd (collection_path d c) /\
  locate wd (Clean S) = locate wd (collection_path d c) ++ [k] /\
  locate wd (Clean S +++ ".json") = locate wd (collection_path d c) ++ [k +++ ".json"].
Proof.
  intros Hd Hc Hk S.
  pose proof Hk as Hk'. apply plain_spec in Hk' as [Hks Hkr].
  assert (Hb : base_name S = k).
  { unfold S. rewrite !base_name_app_sep. apply base_name_slash_free. assumption. }
  assert (Hreal : real (base_name S) = true) by (rewrite Hb; assumption).
  destruct (Clean_siblings wd S ".json" Hreal eq_refl) as (H1 & H2).
  rewrite Hb in H1, H2.
  assert (Hloc : locate wd S = locate wd (collection_path d c) ++ [k]).
  { unfold S, collection_path.
    replace (dir d +++ "/" +++ c +++ "/" +++ k)
      with ((dir d +++ "/" +++ c) +++ "/" +++ k) by (rewrite !append_assoc; reflexivity).
    apply locate_child; [|assumption].
    intros E. apply append_eq_nil in E. tauto. }
  assert (HP : parent_loc wd S = locate wd (collection_path d c)).
  { rewrite locate_Clean in H1 by (apply real_not_empty; assumption).
    rewrite Hloc in H1. apply app_inj_tail in H1 as [HP _]. auto. }
  rewrite HP in H1, H2. auto.
Qed.

End PlainFacts.

Module BlameFacts.
Import Tree TreeFacts FrameFacts Str StrFacts Filepath FilepathFacts Sys.
Import SysFacts LocateFacts Jdb LayoutFacts ProbeFacts PlainFacts.
Import Notions.

Lemma strip_tail_last (cs : list string) :
  last cs "" <> "" -> strip_tail cs = cs.
Proof.
  induction cs as [|c rest IH]; intros H; [reflexivity|].
  cbn [strip_tail]. destruct rest as [|c' rest'].
  - cbn [strip_tail]. cbn in H. apply String.eqb_neq in H. rewrite H. reflexivity.
  - rewrite IH by exact H. reflexivity.
Qed.

(** The parent of a cleaned path is the cleaned path of one element less. *)
Lemma parent_path_render (r : bool) (c : string) (below : list string) :
  normal r (c :: below) = true ->
  parent_path (render r (c :: below))
  = match below with [] => None | _ => Some (render r below) end.
Proof.
  intros Hn. unfold parent_path.
  rewrite split_render by (assumption || discriminate).
  pose proof (normal_nonempty _ _ Hn) as Hne. inversion Hne as [|? ? Hc _]; subst.
  cbn [rev]. rewrite app_assoc.
  rewrite strip_tail_last by (rewrite last_last; exact Hc).
  rewrite removelast_last.
  destruct below as [|b below].
  - destruct r; reflexivity.
  - assert (Hb : rev (b :: below) <> []) by apply rev_not_nil.
    destruct r; cbn [app].
    + unfold render.
      destruct (rev (b :: below)) as [|x l] eqn:E; [congruence|].
      change (join ("" :: x :: l)) with ("" +++ "/" +++ join (x :: l)).
      reflexivity.
    + unfold render.
      assert (Hj : join (rev (b :: below)) <> "").
      { apply join_not_empty; [exact Hb|].
        apply Forall_rev. apply normal_below in Hn. apply (normal_nonempty _ _ Hn). }
      apply String.eqb_neq in Hj. rewrite Hj. reflexivity.
Qed.

(** Where a cleaned path leads, one element less. *)
Lemma locate_render_real (r : bool) (c : string) (below wd : list string) :
  normal r (c :: below) = true -> real c = true ->
  locate wd (render r (c :: below)) = locate_below r below wd ++ [c].
Proof.
  intros Hn Hc. rewrite locate_render by assumption. unfold locate_below.
  cbn [rev]. rewrite fold_left_app. cbn [fold_left].
  rewrite walk_step_real by assumption. reflexivity.
Qed.

Lemma walk_dots (cs : list string) :
  Forall (fun c => c = "..") cs ->
  forall acc, exists q, acc = q ++ fold_left walk_step cs acc.
Proof.
  induction cs as [|c cs IH]; intros Hall acc.
  - exists []. reflexivity.
  - inversion Hall as [|? ? Hc Hcs]; subst. cbn [fold_left].
    change (walk_step acc "..") with (tl acc).
    destruct (IH Hcs (tl acc)) as (q & Hq).
    destruct acc as [|x l]; cbn [tl] in *.
    + exists q. exact Hq.
    + exists (x :: q). cbn [app]. f_equal. exact Hq.
Qed.

Lemma dots_all (out : list string) : dots out = true -> Forall (fun c => c = "..") out.
Proof.
  induction out as [|c out IH]; intros H; [constructor|].
  cbn [dots] in H. apply andb_true_iff in H as [Hc H].
  constructor; [apply String.eqb_eq; exact Hc | auto].
Qed.

(** A path of [..] alone leads to the working directory or above it. *)
Lemma locate_below_dots (out wd : list string) :
  dots out = true -> exists q, wd = locate_below false out wd ++ q.
Proof.
  intros Hd. unfold locate_below, start.
  destruct (walk_dots (rev out) (Forall_rev (dots_all _ Hd)) (rev wd)) as (q & Hq).
  exists (rev q). rewrite <- rev_app_distr, <- Hq, rev_involutive. reflexivity.
Qed.

Lemma lookup_prefix_dir (p q : list string) :
  forall (n : node) (es : entries_t),
    lookup (p ++ q) n = inr (Dir es) -> exists es', lookup p n = inr (Dir es').
Proof.
  induction p as [|a p IH]; intros n es H.
  - cbn [app] in H. destruct n as [data|es0].
    + destruct q; cbn in H; discriminate.
    + exists es0. reflexivity.
  - cbn in H |- *. destruct n as [data|es0]; [discriminate|].
    destruct (find_entry a es0); [eauto|discriminate].
Qed.

(** Where the working directory is a directory, so is what a path
    starts from. *)
Lemma start_dir (r : bool) (wd : list string) (n : node) (es : entries_t) :
  lookup wd n = inr (Dir es) ->
  exists es', lookup (locate_below r [] wd) n = inr (Dir es').
Proof.
  intros H. unfold locate_below, start. cbn [rev fold_left].
  destruct r.
  - apply (lookup_prefix_dir [] wd n es). exact H.
  - rewrite rev_involutive. eauto.
Qed.

(** A walk that ends in a regular file, or that meets one on the way. *)
Lemma lookup_snoc_blocked (P : list string) (a : string) :
  forall (n : node),
    lookup (P ++ [a]) n = inl ENOTDIR ->
    lookup P n = inl ENOTDIR \/ exists data, lookup P n = inr (File data).
Proof.
  induction P as [|b P IH]; intros n H.
  - cbn in H |- *. destruct n as [data|es]; [eauto|].
    destruct (find_entry a es) as [x|]; [cbn in H|]; discriminate.
  - cbn in H |- *. destruct n as [data|es]; [auto|].
    destruct (find_entry b es); [auto|discriminate].
Qed.

Lemma render_cons (r : bool) (c b : string) (below : list string) :
  render r (c :: b :: below) = render r (b :: below) +++ "/" +++ c.
Proof.
  unfold render. cbn [rev].
  assert (H : rev below ++ [b] <> []) by (destruct (rev below); discriminate).
  destruct r.
  - rewrite join_snoc by exact H. rewrite append_assoc. reflexivity.
  - destruct (rev below ++ [b]) as [|x l] eqn:E; [congruence|].
    destruct ((x :: l) ++ [c]) eqn:E2; [destruct l; discriminate|].
    rewrite <- E2. apply join_snoc. discriminate.
Qed.

(** Where [os.MkdirAll] stops when a regular file is in its way: at the
    file, which is at a path that the path of the call begins with. *)
Lemma stops_at_render (t : FS) (r : bool) (es0 : entries_t) :
  lookup (cwd t) (root t) = inr (Dir es0) ->
  forall (out : list string) (fuel : nat),
    normal r out = true -> length out <= fuel ->
    lookup (locate (cwd t) (render r out)) (root t) = inl ENOTDIR
    \/ (exists data, lookup (locate (cwd t) (render r out)) (root t) = inr (File data)) ->
    exists p sfx data,
      stops_at fuel t (render r out) = p /\ render r out = p +++ sfx /\
      (sfx = "" \/ exists rest, sfx = "/" +++ rest) /\
      lookup (locate (cwd t) p) (root t) = inr (File data).
Proof.
  intros Hwd. induction out as [|c below IH]; intros fuel Hn Hfuel Hl.
  - exfalso. rewrite locate_render in Hl by assumption.
    destruct (start_dir r (cwd t) (root t) es0 Hwd) as (es' & E).
    unfold locate_below in E. rewrite E in Hl. destruct Hl as [Hl|(data & Hl)]; discriminate.
  - pose proof Hn as Hn'. cbn [normal] in Hn'.
    apply andb_true_iff in Hn' as [_ Hn'].
    destruct (String.eqb c "..") eqn:Edots.
    + (* a path of [..] leads to a directory *)
      exfalso. apply andb_true_iff in Hn' as [Hr Hd]. destruct r; [discriminate|].
      assert (Hdots : dots (c :: below) = true) by (cbn [dots]; rewrite Edots, Hd; reflexivity).
      destruct (locate_below_dots (c :: below) (cwd t) Hdots) as (q & Hq).
      rewrite locate_render in Hl by assumption. fold (locate_below false (c :: below) (cwd t)) in Hl.
      rewrite Hq in Hwd. apply lookup_prefix_dir in Hwd as (es' & E).
      rewrite E in Hl. destruct Hl as [Hl|(data & Hl)]; discriminate.
    + apply andb_true_iff in Hn' as [Hc Hbelow].
      rewrite (locate_render_real r c below (cwd t) Hn Hc) in Hl.
      destruct fuel as [|fuel]; [cbn in Hfuel; inversion Hfuel|].
      cbn [stops_at]. rewrite (locate_render_real r c below (cwd t) Hn Hc).
      destruct Hl as [Hl|(data & Hl)].
      2:{ rewrite Hl. exists (render r (c :: below)), "", data.
          rewrite append_nil_r, (locate_render_real r c below (cwd t) Hn Hc). auto. }
      rewrite Hl. rewrite (parent_path_render r c below Hn).
      destruct below as [|b below'].
      * exfalso. destruct (start_dir r (cwd t) (root t) es0 Hwd) as (es' & E).
        rewrite (lookup_snoc _ c _ _ E) in Hl. destruct (find_entry c es'); discriminate.
      * assert (Hp : locate (cwd t) (render r (b :: below')) = locate_below r (b :: below') (cwd t)).
        { apply locate_render. assumption. }
        rewrite Hp.
        apply lookup_snoc_blocked in Hl.
        destruct (IH fuel Hbelow) as (p & sfx & data & Hs & Hpre & Hsfx & Hfile).
        { cbn [length] in *. apply le_S_n. exact Hfuel. }
        { rewrite Hp. exact Hl. }
        exists p, (sfx +++ "/" +++ c), data.
        split; [|split; [|split; [|exact Hfile]]].
        -- destruct Hl as [->|(data' & ->)]; exact Hs.
        -- rewrite render_cons, Hpre, append_assoc. reflexivity.
        -- right. destruct Hsfx as [->|(rest & ->)].
           ++ exists c. reflexivity.
           ++ exists (rest +++ "/" +++ c). reflexivity.
Qed.

Lemma split_length_render (r : bool) (out : list string) :
  normal r out = true -> length out <= length (split (render r out)).
Proof.
  intros Hn. destruct out as [|c out]; [cbn [length]; lia|].
  rewrite split_render by (assumption || discriminate).
  rewrite length_app, length_rev. lia.
Qed.

(** The same for the cleaned form of any path, with the fuel
    [os_MkdirAll] gives. *)
Lemma stops_at_Clean (t : FS) (x : string) (es0 : entries_t) :
  lookup (cwd t) (root t) = inr (Dir es0) ->
  lookup (locate (cwd t) (Clean x)) (root t) = inl ENOTDIR
  \/ (exists data, lookup (locate (cwd t) (Clean x)) (root t) = inr (File data)) ->
  exists p sfx data,
    stops_at (length (split (Clean x))) t (Clean x) = p /\ Clean x = p +++ sfx /\
    (sfx = "" \/ exists rest, sfx = "/" +++ rest) /\
    lookup (locate (cwd t) p) (root t) = inr (File data).
Proof.
  intros Hwd Hl.
  assert (Hr : exists r out, Clean x = render r out /\ normal r out = true).
  { destruct x as [|a x].
    - exists false, []. split; reflexivity.
    - eexists _, _. split; [apply Clean_render; discriminate | apply Clean_normal]. }
  destruct Hr as (r & out & E & Hn). rewrite E in *.
  apply (stops_at_render t r es0 Hwd out _ Hn); [|exact Hl].
  apply split_length_render. exact Hn.
Qed.

(** A way that is not clear ends in a regular file or passes one. *)
Lemma clear_way_false (p : list string) :
  forall (n : node),
    clear_way p n = false ->
    lookup p n = inl ENOTDIR \/ exists data, lookup p n = inr (File data).
Proof.
  induction p as [|a p IH]; intros n Hc.
  - destruct n as [data|es]; [right; exists data; reflexivity | discriminate].
  - destruct n as [data|es]; [left; reflexivity|].
    cbn [clear_way] in Hc. cbn [lookup].
    destruct (find_entry a es) as [child|]; [auto | discriminate].
Qed.

Lemma locate_dot (wd : list string) : locate wd "." = wd.
Proof. unfold locate. cbn. apply rev_involutive. Qed.

Lemma is_dir_at_dot (t : FS) :
  is_dir_at "." t = true -> exists es, lookup (cwd t) (root t) = inr (Dir es).
Proof.
  unfold is_dir_at. rewrite locate_dot.
  destruct (lookup (cwd t) (root t)) as [e|[data|es]]; try discriminate. eauto.
Qed.

End BlameFacts.

Module RunFacts.
Import Tree TreeFacts FrameFacts Str StrFacts Filepath FilepathFacts Sys.
Import SysFacts LocateFacts Jdb LayoutFacts JdbFacts QuietFacts.
Import StoreFacts StatFacts ProbeFacts PlainFacts Notions.

Lemma os_MkdirAll_quiet (path : string) (w : World) :
  faults w = [] -> path <> "" ->
  os_MkdirAll path w
  = match mkdir_all (locate (cwd (fs w)) path) (Some (root (fs w))) with
    | inl e => (Some (PathError "mkdir" (stops_at (length (split path)) (fs w) path) e),
                advance w (CMkdirAll path) (Some e) (root (fs w)))
    | inr r => (None, advance w (CMkdirAll path) None r)
    end.
Proof.
  intros Hq Hp. unfold os_MkdirAll, bind. rewrite syscall_quiet by assumption.
  rewrite at_path_run by assumption. destruct (mkdir_all _ _); reflexivity.
Qed.

Lemma ioutil_WriteFile_quiet (path data : string) (w : World) :
  faults w = [] -> path <> "" ->
  ioutil_WriteFile path data w
  = match write_file (locate (cwd (fs w)) path) data (root (fs w)) with
    | inl e => (Some (PathError (write_op e) path e),
                advance w (CWriteFile path data) (Some e) (root (fs w)))
    | inr r => (None, advance w (CWriteFile path data) None r)
    end.
Proof.
  intros Hq Hp. unfold ioutil_WriteFile, bind. rewrite syscall_quiet by assumption.
  rewrite at_path_run by assumption. destruct (write_file _ _ _); reflexivity.
Qed.

Lemma os_Rename_quiet (old new : string) (w : World) :
  faults w = [] -> old <> "" -> new <> "" ->
  os_Rename old new w
  = match rename (locate (cwd (fs w)) old) (locate (cwd (fs w)) new) (root (fs w)) with
    | inl e => (Some (LinkError "rename" old new e),
                advance w (CRename old new) (Some e) (root (fs w)))
    | inr r => (None, advance w (CRename old new) None r)
    end.
Proof.
  intros Hq Ho Hn. unfold os_Rename, bind. rewrite syscall_quiet by assumption.
  rewrite !at_path_run by assumption. destruct (rename _ _ _); reflexivity.
Qed.

Lemma ioutil_ReadDir_quiet (path : string) (w : World) (es : entries_t) :
  faults w = [] -> path <> "" ->
  lookup (locate (cwd (fs w)) path) (root (fs w)) = inr (Dir es) ->
  ioutil_ReadDir path w
  = ((map (fun name => mkInfo name (match find_entry name es with
                                    | Some n => is_dir n
                                    | None => false
                                    end))
        (sort_names (map fst es)), None),
     advance w (CReadDir path) None (root (fs w))).
Proof.
  intros Hq Hp Hl. unfold ioutil_ReadDir, bind. rewrite syscall_quiet by assumption.
  rewrite at_path_run, Hl by assumption. reflexivity.
Qed.

(** The world after a system call, whatever happened. *)
Lemma syscall_snd {A} (c : call) (normal : FS -> errno + (A * node)) (w : World) :
  exists e r, snd (syscall c normal w) = advance w c e r /\
              (r = root (fs w)
               \/ (exists f, r = torn c f (fs w))
               \/ exists a, normal (fs w) = inr (a, r)).
Proof.
  unfold syscall. destruct (faults w) as [|[f|] rest].
  - destruct (normal (fs w)) as [e|[a r]] eqn:E; simpl; eauto 8.
  - simpl. eauto 8.
  - destruct (normal (fs w)) as [e|[a r]] eqn:E; simpl; eauto 8.
Qed.

Lemma bind_ret_snd {A B} (m : M A) (g : A -> B) (w : World) :
  snd (bind m (fun r => ret (g r)) w) = snd (m w).
Proof. unfold bind, ret. destruct (m w). reflexivity. Qed.

(** The calls that only look leave the file system alone, disturbed or
    not. *)
Lemma os_Stat_snd (path : string) (w : World) :
  exists e, snd (os_Stat path w) = advance w (CStat path) e (root (fs w)).
Proof.
  unfold os_Stat. rewrite bind_ret_snd.
  destruct (syscall_snd (CStat path)
              (fun t => at_path path t (fun loc =>
                 match lookup loc (root t) with
                 | inl e => inl e
                 | inr n => inr (mkInfo (base_name path) (is_dir n), root t)
                 end)) w) as (e & r & Hs & Hr).
  exists e. rewrite Hs. f_equal.
  destruct Hr as [->|[(f & ->)|(a & Ha)]]; try reflexivity.
  apply at_path_inv in Ha as (_ & Ha).
  destruct (lookup _ _); inversion Ha; reflexivity.
Qed.

Lemma ioutil_ReadFile_snd (path : string) (w : World) :
  exists e, snd (ioutil_ReadFile path w) = advance w (CReadFile path) e (root (fs w)).
Proof.
  unfold ioutil_ReadFile. rewrite bind_ret_snd.
  destruct (syscall_snd (CReadFile path)
              (fun t => at_path path t (fun loc =>
                 match lookup loc (root t) with
                 | inl e => inl e
                 | inr (Dir _) => inl EISDIR
                 | inr (File data) => inr (data, root t)
                 end)) w) as (e & r & Hs & Hr).
  exists e. rewrite Hs. f_equal.
  destruct Hr as [->|[(f & ->)|(a & Ha)]]; try reflexivity.
  apply at_path_inv in Ha as (_ & Ha).
  destruct (lookup _ _) as [?|[?|?]]; inversion Ha; reflexivity.
Qed.

Lemma ioutil_ReadDir_snd (path : string) (w : World) :
  exists e, snd (ioutil_ReadDir path w) = advance w (CReadDir path) e (root (fs w)).
Proof.
  unfold ioutil_ReadDir. rewrite bind_ret_snd.
  match goal with
  | |- context [syscall ?c ?f w] =>
      destruct (syscall_snd c f w) as (e & r & Hs & Hr)
  end.
  exists e. rewrite Hs. f_equal.
  destruct Hr as [->|[(f & ->)|(a & Ha)]]; try reflexivity.
  apply at_path_inv in Ha as (_ & Ha).
  destruct (lookup _ _) as [?|[?|?]]; inversion Ha; reflexivity.
Qed.

(** [os.RemoveAll], whatever happens: the log, the map of locks and the
    working directory are as before, and so is every regular file that
    is not at the path or below it. *)
Lemma os_RemoveAll_kept (path : string) (w : World) :
  registry (snd (os_RemoveAll path w)) = registry w /\
  logged (snd (os_RemoveAll path w)) = logged w /\
  cwd (fs (snd (os_RemoveAll path w))) = cwd (fs w) /\
  forall q, is_prefix (locate (cwd (fs w)) path) q = false ->
            file_at q (root (fs (snd (os_RemoveAll path w)))) = file_at q (root (fs w)).
Proof.
  unfold os_RemoveAll.
  destruct (String.eqb path ""); [cbn [ret snd]; auto|].
  destruct (ends_with_dot path); [cbn [ret snd]; auto|].
  rewrite bind_ret_snd.
  match goal with
  | |- context [syscall ?c ?f w] =>
      destruct (syscall_snd c f w) as (e & r & Hs & Hr)
  end.
  rewrite Hs. cbn [registry logged fs cwd root advance].
  repeat split. intros q Hq.
  destruct Hr as [->|[(f & ->)|(a & Ha)]]; [reflexivity| |].
  - unfold torn. destruct f as [e'|n e']; [reflexivity|].
    destruct (alter_at _ (shorten n) _) as [x|[r'|]] eqn:E; try reflexivity.
    eapply alter_frame; eauto.
  - destruct (remove_all _ _) eqn:E; inversion Ha; subst.
    eapply remove_all_frame; eauto.
Qed.

(** A removal the environment makes fail returns the error and uses one
    entry of the schedule. *)
Lemma os_RemoveAll_forced (path : string) (w : World) (f : fault)
    (rest : list (option fault)) :
  path <> "" -> ends_with_dot path = false -> faults w = Some f :: rest ->
  fst (os_RemoveAll path w) = Some (PathError "unlinkat" path (fault_errno f)) /\
  faults (snd (os_RemoveAll path w)) = rest.
Proof.
  intros Hp Hd Hf. unfold os_RemoveAll. apply String.eqb_neq in Hp. rewrite Hp, Hd.
  unfold bind, syscall. rewrite Hf. cbn [fst snd ret]. split; [reflexivity|].
  unfold advance. cbn [faults]. rewrite Hf. reflexivity.
Qed.

Lemma os_MkdirAll_snd (path : string) (w : World) :
  exists e r, snd (os_MkdirAll path w) = advance w (CMkdirAll path) e r /\
              (r = root (fs w)
               \/ mkdir_all (locate (cwd (fs w)) path) (Some (root (fs w))) = inr r).
Proof.
  unfold os_MkdirAll. rewrite bind_ret_snd.
  match goal with
  | |- context [syscall ?c ?f w] =>
      destruct (syscall_snd c f w) as (e & r & Hs & Hr)
  end.
  exists e, r. split; [exact Hs|].
  destruct Hr as [->|[(f & ->)|(a & Ha)]]; auto.
  apply at_path_inv in Ha as (_ & Ha).
  destruct (mkdir_all _ _) eqn:E; inversion Ha; subst; auto.
Qed.

Lemma ioutil_WriteFile_snd (path data : string) (w : World) :
  exists e r, snd (ioutil_WriteFile path data w) = advance w (CWriteFile path data) e r /\
              (r = root (fs w)
               \/ exists data', write_file (locate (cwd (fs w)) path) data' (root (fs w))
                                = inr r).
Proof.
  unfold ioutil_WriteFile. rewrite bind_ret_snd.
  match goal with
  | |- context [syscall ?c ?f w] =>
      destruct (syscall_snd c f w) as (e & r & Hs & Hr)
  end.
  exists e, r. split; [exact Hs|].
  destruct Hr as [->|[(f & ->)|(a & Ha)]]; auto.
  - unfold torn. destruct f as [e'|n e']; auto.
    destruct (write_file _ _ _) eqn:E; eauto.
  - apply at_path_inv in Ha as (_ & Ha).
    destruct (write_file _ _ _) eqn:E; inversion Ha; subst; eauto.
Qed.

Lemma os_Rename_snd (old new : string) (w : World) :
  exists e r, snd (os_Rename old new w) = advance w (CRename old new) e r /\
              (r = root (fs w)
               \/ rename (locate (cwd (fs w)) old) (locate (cwd (fs w)) new) (root (fs w))
                  = inr r).
Proof.
  unfold os_Rename. rewrite bind_ret_snd.
  match goal with
  | |- context [syscall ?c ?f w] =>
      destruct (syscall_snd c f w) as (e & r & Hs & Hr)
  end.
  exists e, r. split; [exact Hs|].
  destruct Hr as [->|[(f & ->)|(a & Ha)]]; auto.
  apply at_path_inv in Ha as (_ & Ha). apply at_path_inv in Ha as (_ & Ha).
  destruct (rename _ _ _) eqn:E; inversion Ha; subst; auto.
Qed.

End RunFacts.

Module WorldFacts.
Import Tree TreeFacts FrameFacts Str StrFacts Filepath FilepathFacts Sys.
Import SysFacts LocateFacts Jdb LayoutFacts JdbFacts QuietFacts.
Import StoreFacts StatFacts ProbeFacts PlainFacts Notions RunFacts.
Import ReadAllFacts.

Lemma looked_refl (w : World) : looked w w.
Proof.
  unfold looked. repeat split. exists []. rewrite app_nil_r. split; [reflexivity|constructor].
Qed.

Lemma looked_trans (w1 w2 w3 : World) : looked w1 w2 -> looked w2 w3 -> looked w1 w3.
Proof.
  intros (Hf1 & Hl1 & Hr1 & evs1 & Hh1 & Ha1) (Hf2 & Hl2 & Hr2 & evs2 & Hh2 & Ha2).
  unfold looked. repeat split; try congruence.
  exists (evs1 ++ evs2). split.
  - rewrite Hh2, Hh1, app_assoc. reflexivity.
  - apply Forall_app. auto.
Qed.

Lemma looked_advance (w : World) (c : call) (e : option errno) :
  is_read_call c = true -> looked w (advance w c e (root (fs w))).
Proof.
  intros Hc. unfold looked, advance. simpl. rewrite mkFS_eta.
  repeat split. eexists. split; [reflexivity|]. repeat constructor. exact Hc.
Qed.

Lemma os_Stat_looked (path : string) (w : World) : looked w (snd (os_Stat path w)).
Proof.
  destruct (os_Stat_snd path w) as (e & ->). apply looked_advance. reflexivity.
Qed.

Lemma ioutil_ReadFile_looked (path : string) (w : World) :
  looked w (snd (ioutil_ReadFile path w)).
Proof.
  destruct (ioutil_ReadFile_snd path w) as (e & ->). apply looked_advance. reflexivity.
Qed.

Lemma ioutil_ReadDir_looked (path : string) (w : World) :
  looked w (snd (ioutil_ReadDir path w)).
Proof.
  destruct (ioutil_ReadDir_snd path w) as (e & ->). apply looked_advance. reflexivity.
Qed.

Lemma stat_looked (path : string) (w : World) : looked w (snd (stat path w)).
Proof.
  unfold stat, bind.
  pose proof (os_Stat_looked path w) as H1.
  destruct (os_Stat path w) as [[fi err] w1]. simpl in H1.
  destruct (os_IsNotExist err).
  - eapply looked_trans; [exact H1|]. apply os_Stat_looked.
  - exact H1.
Qed.

Lemma read_each_looked (dir : string) (files : list FileInfo) :
  forall (acc : list string) (w : World), looked w (snd (read_each dir files acc w)).
Proof.
  induction files as [|f files IH]; intros acc w.
  - apply looked_refl.
  - rewrite read_each_cons.
    pose proof (ioutil_ReadFile_looked (Join [dir; Name f]) w) as H1.
    destruct (ioutil_ReadFile (Join [dir; Name f]) w) as [[b [e|]] w1]; simpl in H1.
    + exact H1.
    + eapply looked_trans; [exact H1|]. apply IH.
Qed.

Lemma Read_looked (d : Driver) (c k : string) (w : World) :
  looked w (snd (Read d c k w)).
Proof.
  unfold Read.
  destruct (String.eqb c ""); [apply looked_refl|].
  destruct (String.eqb k ""); [apply looked_refl|].
  unfold bind.
  pose proof (stat_looked (Join [dir d; c; k]) w) as H1.
  destruct (stat (Join [dir d; c; k]) w) as [[fi [e|]] w1]; simpl in H1; [exact H1|].
  pose proof (ioutil_ReadFile_looked (Join [dir d; c; k] +++ ".json") w1) as H2.
  destruct (ioutil_ReadFile (Join [dir d; c; k] +++ ".json") w1) as [[b [e'|]] w2];
    simpl in H2; eapply looked_trans; eauto.
Qed.

Lemma ReadAll_looked (d : Driver) (c : string) (w : World) :
  looked w (snd (ReadAll d c w)).
Proof.
  unfold ReadAll.
  destruct (String.eqb c ""); [apply looked_refl|].
  unfold bind.
  pose proof (stat_looked (Join [dir d; c]) w) as H1.
  destruct (stat (Join [dir d; c]) w) as [[fi [e|]] w1]; simpl in H1; [exact H1|].
  pose proof (ioutil_ReadDir_looked (Join [dir d; c]) w1) as H2.
  destruct (ioutil_ReadDir (Join [dir d; c]) w1) as [[files [e'|]] w2]; simpl in H2.
  - eapply looked_trans; eauto.
  - eapply looked_trans; [exact H1|]. eapply looked_trans; [exact H2|].
    apply read_each_looked.
Qed.

(** ** The registry *)

Lemma getMutex_registry (c : string) (w : World) :
  In c (registry (snd (getMutex c w))) /\
  keeps_registry w (snd (getMutex c w)) /\
  (In c (registry w) -> snd (getMutex c w) = w).
Proof.
  unfold getMutex, keeps_registry.
  destruct (existsb (String.eqb c) (registry w)) eqn:E; simpl.
  - apply existsb_exists in E as (x & Hx & Hcx). apply String.eqb_eq in Hcx. subst x.
    auto.
  - split; [apply in_or_app; right; left; reflexivity|]. split; [split|].
    + intros x Hx. apply in_or_app. auto.
    + intros Hnd. apply NoDup_app; auto.
      * repeat constructor. intros [].
      * intros x Hx [<-|[]].
        assert (existsb (String.eqb c) (registry w) = true).
        { apply existsb_exists. exists c. split; [assumption | apply String.eqb_refl]. }
        congruence.
    + intros Hin.
      assert (existsb (String.eqb c) (registry w) = true).
      { apply existsb_exists. exists c. split; [assumption | apply String.eqb_refl]. }
      congruence.
Qed.

Lemma registry_advance (w : World) c e r : registry (advance w c e r) = registry w.
Proof. reflexivity. Qed.

Lemma doDelete_registry (d : Driver) (c k : string) (w : World) :
  registry (snd (doDelete d c k w)) = registry (snd (getMutex c w)).
Proof.
  unfold doDelete, bind. destruct (getMutex c w) as [u w0]. cbv beta iota.
  change (snd (u, w0)) with w0.
  pose proof (stat_looked (Join [dir d; Join [c; k]]) w0) as (_ & _ & Hr & _).
  destruct (stat (Join [dir d; Join [c; k]]) w0) as [[[fi|] [e|]] w1];
    change (registry w1 = registry w0) in Hr; try exact Hr.
  cbv beta iota. unfold IsRegular. destruct (IsDir fi); cbv beta iota.
  - destruct (os_RemoveAll_kept (Join [dir d; Join [c; k]]) w1) as (Hs & _).
    rewrite Hs. exact Hr.
  - change (negb false) with true. cbv beta iota.
    destruct (os_RemoveAll_kept (Join [dir d; Join [c; k]] +++ ".json") w1)
      as (Hs & _).
    destruct (os_RemoveAll (Join [dir d; Join [c; k]] +++ ".json") w1) as [x w2].
    cbn [snd] in Hs. cbn [ret snd]. rewrite Hs. exact Hr.
Qed.

Section Registry.
Context {Value : Type}.
Variable enc : Value -> string -> string -> string * option error.

Lemma doWrite_registry (d : Driver) (c k : string) (v : Value) (w : World) :
  registry (snd (doWrite enc d c k v w)) = registry (snd (getMutex c w)).
Proof.
  unfold doWrite, bind. fold (fnlPath d c k).
  destruct (getMutex c w) as [u w0]. cbv beta iota.
  change (snd (u, w0)) with w0.
  destruct (os_MkdirAll_snd (Join [dir d; c]) w0) as (e1 & r1 & Hs1 & _).
  destruct (os_MkdirAll (Join [dir d; c]) w0) as [[x|] w1];
    change (w1 = advance w0 (CMkdirAll (Join [dir d; c])) e1 r1) in Hs1; subst w1;
    [reflexivity|].
  destruct (enc v "" tab) as [b [x|]]; [reflexivity|].
  cbv beta iota.
  set (w1 := advance w0 (CMkdirAll (Join [dir d; c])) e1 r1).
  assert (Hr1 : registry w1 = registry w0) by reflexivity. clearbody w1.
  destruct (ioutil_WriteFile_snd (fnlPath d c k +++ ".tmp") (b +++ newline) w1)
    as (e2 & r2 & Hs2 & _).
  destruct (ioutil_WriteFile (fnlPath d c k +++ ".tmp") (b +++ newline) w1)
    as [[x|] w2];
    change (w2 = advance w1 (CWriteFile (fnlPath d c k +++ ".tmp") (b +++ newline)) e2 r2)
      in Hs2; subst w2; [exact Hr1|].
  cbv beta iota. unfold Info, log_to.
  match goal with
  | |- context [os_Rename ?a ?b ?w3] =>
      destruct (os_Rename_snd a b w3) as (e3 & r3 & Hs3 & _);
      destruct (os_Rename a b w3) as [x w4];
      change (w4 = advance w3 (CRename a b) e3 r3) in Hs3; subst w4
  end.
  exact Hr1.
Qed.

End Registry.

(** ** The log *)



End WorldFacts.

Module IsolationFacts.
Import Tree TreeFacts FrameFacts Str StrFacts Filepath FilepathFacts Sys.
Import SysFacts LocateFacts Jdb LayoutFacts JdbFacts QuietFacts.
Import StoreFacts StatFacts ProbeFacts PlainFacts Notions RunFacts.
Import ReadAllFacts WorldFacts.

Lemma length_append (a b : string) :
  String.length (a +++ b) = String.length a + String.length b.
Proof. induction a; simpl; congruence. Qed.

(** Two keys with the same extension are the same key. *)
Lemma append_inj_l (s a b : string) : a +++ s = b +++ s -> a = b.
Proof.
  revert b. induction a as [|x a IH]; intros [|y b] H; simpl in H.
  - reflexivity.
  - apply (f_equal String.length) in H. simpl in H. rewrite length_append in H. lia.
  - apply (f_equal String.length) in H. simpl in H. rewrite length_append in H. lia.
  - inversion H. f_equal. auto.
Qed.

Lemma last_byte_neq (a b : string) (x y : ascii) :
  x <> y -> a +++ String x "" <> b +++ String y "".
Proof.
  intros Hxy. revert b. induction a as [|c a IH]; intros [|c' b] H; simpl in H.
  - inversion H. auto.
  - inversion H as [[Hc Hr]]. symmetry in Hr. apply append_eq_nil in Hr as [_ Hr].
    discriminate.
  - inversion H as [[Hc Hr]]. apply append_eq_nil in Hr as [_ Hr]. discriminate.
  - inversion H. eapply IH; eauto.
Qed.

(** A temporary name is never the name of a record. *)
Lemma tmp_not_record (k k' : string) : k +++ ".json.tmp" <> k' +++ ".json".
Proof.
  replace (k +++ ".json.tmp") with ((k +++ ".json.tm") +++ "p")
    by (rewrite append_assoc; reflexivity).
  replace (k' +++ ".json") with ((k' +++ ".jso") +++ "n")
    by (rewrite append_assoc; reflexivity).
  apply last_byte_neq. discriminate.
Qed.

Section WriteFrame.
Context {Value : Type}.
Variable enc : Value -> string -> string -> string * option error.

(** Whatever happens to it, [doWrite] changes no regular file that is not
    at or below its final or its temporary path. *)
Lemma doWrite_frame (d : Driver) (c k : string) (v : Value) (w : World)
    (q : list string) :
  is_prefix (locate (cwd (fs w)) (fnlPath d c k)) q = false ->
  is_prefix (locate (cwd (fs w)) (fnlPath d c k +++ ".tmp")) q = false ->
  cwd (fs (snd (doWrite enc d c k v w))) = cwd (fs w) /\
  file_at q (root (fs (snd (doWrite enc d c k v w)))) = file_at q (root (fs w)).
Proof.
  intros Hfnl Htmp. unfold doWrite, bind. fold (fnlPath d c k).
  destruct (getMutex c w) as [u w0] eqn:Em. cbv beta iota.
  apply getMutex_inv in Em as (Hfs0 & _).
  rewrite <- Hfs0 in *. clear Hfs0. revert Hfnl Htmp.
  generalize w0. clear w w0. intros w Hfnl Htmp.
  (* MkdirAll *)
  destruct (os_MkdirAll_snd (Join [dir d; c]) w) as (e1 & r1 & Hs1 & Hr1).
  assert (Hf1 : file_at q r1 = file_at q (root (fs w))).
  { destruct Hr1 as [->|Hr1]; [reflexivity|]. eapply mkdir_all_file_at; eauto. }
  destruct (os_MkdirAll (Join [dir d; c]) w) as [err1 w1].
  change (w1 = advance w (CMkdirAll (Join [dir d; c])) e1 r1) in Hs1.
  assert (Hc1 : cwd (fs w1) = cwd (fs w)) by (subst w1; reflexivity).
  assert (Hroot1 : root (fs w1) = r1) by (subst w1; reflexivity).
  clear Hs1.
  destruct err1 as [x|]; [simpl; rewrite Hroot1; auto|].
  destruct (enc v "" tab) as [b [x|]]; [simpl; rewrite Hroot1; auto|].
  cbv beta iota.
  (* WriteFile *)
  destruct (ioutil_WriteFile_snd (fnlPath d c k +++ ".tmp") (b +++ newline) w1)
    as (e2 & r2 & Hs2 & Hr2).
  assert (Hf2 : file_at q r2 = file_at q (root (fs w))).
  { rewrite <- Hf1, <- Hroot1. destruct Hr2 as [->|(data' & Hr2)]; [reflexivity|].
    eapply write_file_frame; [exact Hr2|]. rewrite Hc1. exact Htmp. }
  destruct (ioutil_WriteFile (fnlPath d c k +++ ".tmp") (b +++ newline) w1)
    as [err2 w2].
  change (w2 = advance w1 (CWriteFile (fnlPath d c k +++ ".tmp") (b +++ newline)) e2 r2)
    in Hs2.
  assert (Hc2 : cwd (fs w2) = cwd (fs w)) by (subst w2; exact Hc1).
  assert (Hroot2 : root (fs w2) = r2) by (subst w2; reflexivity).
  clear Hs2.
  destruct err2 as [x|]; [simpl; rewrite Hroot2; auto|].
  cbv beta iota. unfold Info, log_to.
  (* Rename *)
  match goal with
  | |- context [os_Rename ?a ?b ?w3] =>
      destruct (os_Rename_snd a b w3) as (e3 & r3 & Hs3 & Hr3);
      destruct (os_Rename a b w3) as [err3 w4];
      change (w4 = advance w3 (CRename a b) e3 r3) in Hs3
  end.
  simpl in Hr3. rewrite Hc2, Hroot2 in Hr3.
  subst w4. simpl. split; [exact Hc2|].
  destruct Hr3 as [->|Hr3]; [exact Hf2|].
  rewrite <- Hf2. eapply rename_frame; eauto.
Qed.

End WriteFrame.

Lemma stat_fs (path : string) (w : World) : fs (snd (stat path w)) = fs w.
Proof. apply stat_looked. Qed.

(** Whatever happens to it, [doDelete] changes no regular file that is
    not at or below its target or its target with the extension. *)
Lemma doDelete_frame (d : Driver) (c k : string) (w : World) (q : list string) :
  is_prefix (locate (cwd (fs w)) (target d c k)) q = false ->
  is_prefix (locate (cwd (fs w)) (target d c k +++ ".json")) q = false ->
  cwd (fs (snd (doDelete d c k w))) = cwd (fs w) /\
  file_at q (root (fs (snd (doDelete d c k w)))) = file_at q (root (fs w)).
Proof.
  intros Hbare Hext. unfold doDelete, bind. fold (target d c k).
  destruct (getMutex c w) as [u w0] eqn:Em. cbv beta iota.
  apply getMutex_inv in Em as (Hfs0 & _).
  pose proof (stat_fs (target d c k) w0) as Hfs1.
  destruct (stat (target d c k) w0) as [[[fi|] [e|]] w1];
    change (fs w1 = fs w0) in Hfs1; rewrite Hfs0 in Hfs1;
    try (simpl; rewrite Hfs1; auto).
  cbv beta iota. unfold IsRegular. destruct (IsDir fi); cbv beta iota.
  - destruct (os_RemoveAll_kept (target d c k) w1) as (_ & _ & Hc & Hf).
    rewrite Hfs1 in *. split; [exact Hc|]. apply Hf. exact Hbare.
  - change (negb false) with true. cbv beta iota.
    destruct (os_RemoveAll_kept (target d c k +++ ".json") w1) as (_ & _ & Hc & Hf).
    destruct (os_RemoveAll (target d c k +++ ".json") w1) as [x w2].
    cbn [snd] in Hc, Hf. cbn [ret snd].
    rewrite Hfs1 in *. split; [exact Hc|]. apply Hf. exact Hext.
Qed.

End IsolationFacts.

Module ForwardFacts.
Import Tree TreeFacts FrameFacts Str StrFacts Filepath FilepathFacts Sys.
Import SysFacts LocateFacts Jdb LayoutFacts JdbFacts QuietFacts.
Import StoreFacts StatFacts ProbeFacts PlainFacts Notions RunFacts.
Import ReadAllFacts WorldFacts IsolationFacts.

(** The probe leaves an empty schedule empty. *)
Lemma os_Stat_still (path : string) (w : World) :
  faults w = [] -> faults (snd (os_Stat path w)) = [].
Proof.
  intros Hq. destruct (os_Stat_snd path w) as (e & ->). apply quiet_advance, Hq.
Qed.

Lemma stat_still (path : string) (w : World) :
  faults w = [] ->
  faults (snd (stat path w)) = [] /\ fs (snd (stat path w)) = fs w.
Proof.
  intros Hq. split; [|apply stat_looked].
  unfold stat, bind.
  pose proof (os_Stat_still path w Hq) as H1.
  destruct (os_Stat path w) as [[fi err] w1]. simpl in H1.
  destruct (os_IsNotExist err).
  - apply os_Stat_still. exact H1.
  - exact H1.
Qed.


Lemma is_prefix_fork (P : list string) (a b : string) (r q : list string) :
  a <> b -> is_prefix (P ++ a :: r) (P ++ b :: q) = false.
Proof.
  intros Hab. induction P as [|x P IH]; simpl.
  - apply String.eqb_neq in Hab. rewrite Hab. reflexivity.
  - rewrite String.eqb_refl. exact IH.
Qed.

Lemma not_exist_PathError (op path : string) :
  os_IsNotExist (Some (PathError op path ENOENT)) = true.
Proof. reflexivity. Qed.

(** ** [Read] where there is no record *)

Lemma Read_no_record (d : Driver) (c k : string) (w : World) :
  faults w = [] -> dir d <> "" -> c <> "" -> real (base_name k) = true ->
  record_at d c k (fs w) = None ->
  exists e, fst (Read d c k w) = ("", Some e) /\
            (lookup (locate (cwd (fs w)) (record_path d c k)) (root (fs w)) = inl ENOENT ->
             os_IsNotExist (Some e) = true).
Proof.
  intros Hq Hd Hc Hk Hrec.
  assert (Hk' : k <> "") by (apply real_not_empty; assumption).
  destruct (Read_paths (cwd (fs w)) d c k Hd Hk) as (P & nm & Hbare & Hext & Hlay).
  unfold record_at, file_at in Hrec. rewrite Hlay in *.
  unfold Read. apply String.eqb_neq in Hc, Hk'. rewrite Hc, Hk'.
  set (rec := Join [dir d; c; k]) in *.
  assert (Hrne : rec <> "") by (apply Join_not_empty; assumption).
  unfold bind.
  destruct (lookup (locate (cwd (fs w)) rec) (root (fs w))) as [e|x] eqn:Hb.
  - assert (He : e = ENOENT \/ e <> ENOENT) by (destruct e; auto; right; discriminate).
    destruct He as [->|He].
    + rewrite stat_quiet_ext by assumption. rewrite Hext.
      destruct (lookup (P ++ [nm +++ ".json"]) (root (fs w))) as [e|[data|es]] eqn:Hf;
        try discriminate.
      * cbv beta iota. eexists. split; [reflexivity|].
        intros E. inversion E. reflexivity.
      * cbv beta iota.
        rewrite ioutil_ReadFile_quiet;
          [| apply quiet_advance, quiet_advance; assumption | apply json_not_empty].
        rewrite fs_advance2_same, Hext, Hf. cbv beta iota.
        eexists. split; [reflexivity|]. discriminate.
    + unfold stat, bind. rewrite os_Stat_quiet, Hb by assumption. cbv beta iota.
      assert (Hn : os_IsNotExist (Some (PathError "stat" rec e)) = false)
        by (destruct e; try reflexivity; congruence).
      rewrite Hn. cbv beta iota. unfold ret. cbv beta iota.
      eexists. split; [reflexivity|].
      intros E.
      destruct (lookup_sibling_cases P (nm +++ ".json") nm (root (fs w)))
        as [Hm|(y & Hy)]; [left; exact E| |]; rewrite <- Hbare, Hb in *; congruence.
  - rewrite (stat_quiet_bare rec w x) by assumption. cbv beta iota.
    rewrite ioutil_ReadFile_quiet;
      [| apply quiet_advance; assumption | apply json_not_empty].
    rewrite fs_advance_same, Hext.
    destruct (lookup (P ++ [nm +++ ".json"]) (root (fs w))) as [e|[data|es]] eqn:Hf;
      try discriminate; cbv beta iota.
    + eexists. split; [reflexivity|]. intros E. inversion E. reflexivity.
    + eexists. split; [reflexivity|]. discriminate.
Qed.

(** ** [doWrite], undisturbed, where nothing is in the way *)

Section WriteRun.
Context {Value : Type}.
Variable enc : Value -> string -> string -> string * option error.

Lemma doWrite_run (d : Driver) (c k : string) (v : Value) (b : string) (w : World) :
  faults w = [] -> dir d <> "" -> slash_free k = true ->
  enc v "" tab = (b, None) ->
  way_clear (locate (cwd (fs w)) (collection_path d c)) (root (fs w)) ->
  (forall es, lookup (locate (cwd (fs w)) (collection_path d c) ++ [k +++ ".json"])
                (root (fs w)) <> inr (Dir es)) ->
  (forall es, lookup (locate (cwd (fs w)) (collection_path d c) ++ [k +++ ".json.tmp"])
                (root (fs w)) <> inr (Dir es)) ->
  let r := doWrite enc d c k v w in
  fst r = (k, None) /\ faults (snd r) = [] /\ cwd (fs (snd r)) = cwd (fs w) /\
  lookup (locate (cwd (fs w)) (collection_path d c) ++ [k +++ ".json"])
    (root (fs (snd r))) = inr (File (b +++ newline)) /\
  lookup (locate (cwd (fs w)) (collection_path d c) ++ [k +++ ".json.tmp"])
    (root (fs (snd r))) = inl ENOENT.
Proof.
  intros Hq Hd Hk Henc Hway Hfnl Htmp r. subst r.
  destruct (fnlPath_child (cwd (fs w)) d c k Hd Hk) as (Lf & Lt).
  pose proof (collection_located (cwd (fs w)) d c Hd) as Lc.
  set (P := locate (cwd (fs w)) (collection_path d c)) in *.
  assert (HD : Join [dir d; c] <> "") by (apply Join_not_empty; assumption).
  assert (HF : fnlPath d c k <> "").
  { unfold fnlPath. apply Join_not_empty. assumption. }
  assert (HT : fnlPath d c k +++ ".tmp" <> "").
  { intros E. apply append_eq_nil in E. destruct E; discriminate. }
  assert (Hne : k +++ ".json.tmp" <> k +++ ".json") by apply tmp_not_record.
  (* the trees of the three steps *)
  destruct (mkdir_all_ok P (root (fs w)) Hway) as (r1 & Hmk).
  destruct (mkdir_all_dir P _ _ Hmk) as (es1 & Hl1).
  assert (Hfnl1 : forall es', find_entry (k +++ ".json") es1 <> Some (Dir es')).
  { intros es' E. apply (Hfnl es'). eapply mkdir_all_below; [exact Hmk|].
    rewrite (lookup_snoc P _ r1 es1 Hl1), E. reflexivity. }
  assert (Htmp1 : forall es', find_entry (k +++ ".json.tmp") es1 <> Some (Dir es')).
  { intros es' E. apply (Htmp es'). eapply mkdir_all_below; [exact Hmk|].
    rewrite (lookup_snoc P _ r1 es1 Hl1), E. reflexivity. }
  destruct (write_file_ok P (k +++ ".json.tmp") (b +++ newline) r1 es1 Hl1 Htmp1)
    as (r2 & Hwr & es2 & Hl2 & Hsame).
  pose proof (write_file_same _ _ _ _ Hwr) as Hthere.
  rewrite (lookup_snoc P _ r2 es2 Hl2) in Hthere.
  destruct (find_entry (k +++ ".json.tmp") es2) as [x|] eqn:Ex; [|discriminate].
  inversion Hthere; subst x. clear Hthere.
  assert (Hfnl2 : forall es', find_entry (k +++ ".json") es2 <> Some (Dir es')).
  { intros es'. rewrite Hsame by (intros E; apply Hne; auto). apply Hfnl1. }
  destruct (rename_ok P (k +++ ".json.tmp") (k +++ ".json") (b +++ newline) r2 es2
              Hne Hl2 Ex Hfnl2) as (r3 & Hrn & Hnew & Hold).
  (* the run *)
  unfold doWrite, bind. fold (fnlPath d c k).
  destruct (getMutex_quiet c w Hq) as (Hfs0 & Hq0 & _).
  destruct (getMutex c w) as [u w0]. simpl in Hfs0, Hq0. cbv beta iota.
  rewrite os_MkdirAll_quiet by assumption.
  rewrite Hfs0, Lc. fold P. rewrite Hmk. cbv beta iota. rewrite Henc. cbv beta iota.
  set (w1 := advance w0 (CMkdirAll (Join [dir d; c])) None r1).
  assert (Hq1 : faults w1 = []) by (apply quiet_advance; assumption).
  assert (Hc1 : cwd (fs w1) = cwd (fs w)) by (unfold w1; simpl; rewrite Hfs0; reflexivity).
  assert (Hr1 : root (fs w1) = r1) by reflexivity.
  clearbody w1.
  rewrite ioutil_WriteFile_quiet by assumption.
  rewrite Hc1, Hr1, Lt. fold P. rewrite Hwr. cbv beta iota.
  set (w2 := advance w1 (CWriteFile (fnlPath d c k +++ ".tmp") (b +++ newline)) None r2).
  assert (Hq2 : faults w2 = []) by (apply quiet_advance; assumption).
  assert (Hc2 : cwd (fs w2) = cwd (fs w)) by (unfold w2; simpl; exact Hc1).
  assert (Hr2 : root (fs w2) = r2) by reflexivity.
  clearbody w2.
  unfold Info, log_to. cbv beta iota.
  match goal with
  | |- context [os_Rename _ _ ?w3] =>
      assert (Hq3 : faults w3 = []) by exact Hq2;
      assert (Hc3 : cwd (fs w3) = cwd (fs w)) by exact Hc2;
      assert (Hr3 : root (fs w3) = r2) by exact Hr2;
      generalize dependent w3
  end.
  intros w3 Hq3 Hc3 Hr3.
  rewrite os_Rename_quiet by assumption.
  rewrite Hc3, Hr3, Lt, Lf. fold P. rewrite Hrn. cbv beta iota.
  unfold ret. cbv beta iota.
  change (fst ((k, @None error), advance w3 (CRename (fnlPath d c k +++ ".tmp") (fnlPath d c k)) None r3))
    with (k, @None error).
  change (snd ((k, @None error), advance w3 (CRename (fnlPath d c k +++ ".tmp") (fnlPath d c k)) None r3))
    with (advance w3 (CRename (fnlPath d c k +++ ".tmp") (fnlPath d c k)) None r3).
  split; [reflexivity|]. split; [apply quiet_advance; assumption|].
  split; [exact Hc3|]. split; [exact Hnew | exact Hold].
Qed.

Lemma doWrite_encode_error (d : Driver) (c k : string) (v : Value) (b : string)
    (e : error) (w : World) (es : entries_t) :
  faults w = [] -> dir d <> "" ->
  enc v "" tab = (b, Some e) ->
  lookup (locate (cwd (fs w)) (collection_path d c)) (root (fs w)) = inr (Dir es) ->
  let r := doWrite enc d c k v w in
  fst r = (k, Some e) /\ faults (snd r) = [] /\ fs (snd r) = fs w.
Proof.
  intros Hq Hd Henc Hl r. subst r.
  pose proof (collection_located (cwd (fs w)) d c Hd) as Lc.
  assert (HD : Join [dir d; c] <> "") by (apply Join_not_empty; assumption).
  unfold doWrite, bind.
  destruct (getMutex_quiet c w Hq) as (Hfs0 & Hq0 & _).
  destruct (getMutex c w) as [u w0]. simpl in Hfs0, Hq0. cbv beta iota.
  rewrite os_MkdirAll_quiet by assumption.
  rewrite Hfs0, Lc, (mkdir_all_existing _ _ _ Hl). cbv beta iota.
  rewrite Henc. unfold ret. cbv beta iota.
  split; [reflexivity|]. split; [apply quiet_advance; assumption|].
  change (fs (advance w0 (CMkdirAll (Join [dir d; c])) None (root (fs w))) = fs w).
  unfold advance. simpl. rewrite Hfs0. apply mkFS_eta.
Qed.

End WriteRun.

(** ** [doDelete], undisturbed, in a collection that exists *)

Lemma remove_entry_absent (a : string) (es : entries_t) :
  find_entry a es = None -> remove_entry a es = es.
Proof.
  induction es as [|[k m] es IH]; simpl; [reflexivity|].
  destruct (String.eqb k a); [discriminate|]. intros H. f_equal. auto.
Qed.

Lemma doDelete_run (d : Driver) (c k : string) (w : World) (es : entries_t) :
  faults w = [] -> dir d <> "" -> plain c = true -> plain k = true ->
  lookup (locate (cwd (fs w)) (collection_path d c)) (root (fs w)) = inr (Dir es) ->
  let r := doDelete d c k w in
  faults (snd r) = [] /\ cwd (fs (snd r)) = cwd (fs w) /\
  fst r = match find_entry k es, find_entry (k +++ ".json") es with
          | None, None => Some (Errorf "unable to find directory %q" [c +++ "/" +++ k])
          | _, _ => None
          end /\
  lookup (locate (cwd (fs w)) (collection_path d c)) (root (fs (snd r)))
  = inr (Dir match find_entry k es, find_entry (k +++ ".json") es with
             | Some (Dir _), _ => remove_entry k es
             | Some (File _), _ => remove_entry (k +++ ".json") es
             | None, Some (File _) => remove_entry (k +++ ".json") es
             | None, _ => es
             end).
Proof.
  intros Hq Hd Hc Hk Hl r. subst r.
  destruct (target_plain d c k Hd Hc Hk) as (HT & _).
  unfold doDelete, bind. fold (target d c k). rewrite HT.
  rewrite (Join_plain2 c k Hc Hk).
  destruct (getMutex_quiet c w Hq) as (Hfs0 & Hq0 & _).
  destruct (getMutex c w) as [u w0]. simpl in Hfs0, Hq0. cbv beta iota.
  rewrite <- Hfs0 in *. clear Hfs0 Hq. revert Hq0 Hl. generalize w0. clear w w0.
  intros w Hq Hl.
  destruct (target_located (cwd (fs w)) d c k Hd Hc Hk) as (Hreal & _ & _ & Lb & Le).
  set (S := dir d +++ "/" +++ c +++ "/" +++ k) in *.
  set (P := locate (cwd (fs w)) (collection_path d c)) in *.
  pose proof (lookup_snoc P k _ _ Hl) as Hbare.
  pose proof (lookup_snoc P (k +++ ".json") _ _ Hl) as Hext.
  assert (Hdot : ends_with_dot (Clean S) = false) by (apply ends_with_dot_Clean; assumption).
  destruct (find_entry k es) as [[data|es']|] eqn:Ek.
  - (* a regular file under the bare key *)
    rewrite (stat_quiet_bare (Clean S) w (File data));
      [| assumption | apply Clean_not_empty | rewrite Lb; assumption].
    cbv beta iota. unfold IsRegular. cbn [IsDir is_dir]. cbv iota.
    change (negb false) with true. cbv beta iota.
    rewrite os_RemoveAll_quiet;
      [| apply quiet_advance; assumption | apply json_not_empty | apply ends_with_dot_json].
    rewrite fs_advance_same, Le.
    destruct (remove_all_ok P (k +++ ".json") _ _ Hl) as (n' & -> & Hn').
    unfold ret. cbv beta iota.
    split; [apply quiet_advance, quiet_advance; assumption|].
    split; [reflexivity|].
    split; [reflexivity | exact Hn'].
  - (* a directory under the bare key *)
    rewrite (stat_quiet_bare (Clean S) w (Dir es'));
      [| assumption | apply Clean_not_empty | rewrite Lb; assumption].
    cbv beta iota. cbn [IsDir is_dir]. cbv iota.
    rewrite os_RemoveAll_quiet;
      [| apply quiet_advance; assumption | apply Clean_not_empty | assumption].
    rewrite fs_advance_same, Lb.
    destruct (remove_all_ok P k _ _ Hl) as (n' & -> & Hn').
    split; [apply quiet_advance, quiet_advance; assumption|].
    split; [reflexivity|].
    split; [reflexivity | exact Hn'].
  - rewrite stat_quiet_ext;
      [| assumption | apply Clean_not_empty | rewrite Lb; assumption].
    rewrite Le, Hext.
    destruct (find_entry (k +++ ".json") es) as [[data|es']|] eqn:Ej.
    + cbv beta iota. unfold IsRegular. cbn [IsDir is_dir]. cbv iota.
      change (negb false) with true. cbv beta iota.
      rewrite os_RemoveAll_quiet;
        [| apply quiet_advance, quiet_advance; assumption | apply json_not_empty
         | apply ends_with_dot_json].
      rewrite fs_advance2_same, Le.
      destruct (remove_all_ok P (k +++ ".json") _ _ Hl) as (n' & -> & Hn').
      unfold ret. cbv beta iota.
      split; [apply quiet_advance, quiet_advance, quiet_advance; assumption|].
      split; [reflexivity|].
      split; [reflexivity | exact Hn'].
    + cbv beta iota. cbn [IsDir is_dir]. cbv iota.
      rewrite os_RemoveAll_quiet;
        [| apply quiet_advance, quiet_advance; assumption | apply Clean_not_empty
         | assumption].
      rewrite fs_advance2_same, Lb.
      destruct (remove_all_ok P k _ _ Hl) as (n' & -> & Hn').
      split; [apply quiet_advance, quiet_advance, quiet_advance; assumption|].
      split; [reflexivity|].
      split; [reflexivity|].
      rewrite remove_entry_absent in Hn' by assumption. exact Hn'.
    + cbv beta iota. unfold ret. cbv beta iota.
      split; [apply quiet_advance, quiet_advance; assumption|].
      split; [reflexivity|].
      split; [reflexivity|]. simpl. exact Hl.
Qed.

(** ** [ReadAll], undisturbed, over a directory of regular files *)

Lemma insert_name_In (x y : string) (l : list string) :
  In x (insert_name y l) -> x = y \/ In x l.
Proof.
  induction l as [|z l IH]; simpl.
  - intros [H|[]]; auto.
  - destruct (String.leb y z); simpl; intros [H|H]; auto.
    destruct (IH H); auto.
Qed.

Lemma sort_names_In (x : string) (l : list string) : In x (sort_names l) -> In x l.
Proof.
  induction l as [|y l IH]; simpl; [auto|].
  intros H. apply insert_name_In in H as [H|H]; auto.
Qed.

Lemma insert_name_length (x : string) (l : list string) :
  length (insert_name x l) = S (length l).
Proof.
  induction l as [|y l IH]; simpl; [reflexivity|].
  destruct (String.leb x y); simpl; congruence.
Qed.

Lemma sort_names_length (l : list string) : length (sort_names l) = length l.
Proof.
  induction l as [|y l IH]; simpl; [reflexivity|].
  rewrite insert_name_length. congruence.
Qed.

Lemma insert_name_ascending (x : string) (l : list string) :
  ascending l = true -> ascending (insert_name x l) = true.
Proof.
  induction l as [|y l IH]; intros Hl; [reflexivity|].
  cbn [insert_name]. destruct (String.leb x y) eqn:Exy.
  - cbn [ascending]. rewrite Exy. exact Hl.
  - assert (Hyx : String.leb y x = true).
    { destruct (String.leb_total x y) as [H|H]; congruence. }
    destruct l as [|z l].
    + cbn. rewrite Hyx. reflexivity.
    + cbn [ascending] in Hl. apply andb_true_iff in Hl as [Hyz Hl].
      specialize (IH Hl). cbn [insert_name] in *.
      destruct (String.leb x z); cbn [ascending] in *.
      * rewrite Hyx. exact IH.
      * rewrite Hyz. exact IH.
Qed.

Lemma sort_names_ascending (l : list string) : ascending (sort_names l) = true.
Proof.
  induction l as [|y l IH]; [reflexivity|]. simpl. apply insert_name_ascending, IH.
Qed.

Lemma all_files_entry (es : entries_t) (x : string) :
  all_files es = true -> In x (map fst es) ->
  plain x = true /\ exists data, find_entry x es = Some (File data).
Proof.
  unfold all_files. induction es as [|[k m] es IH]; simpl; [tauto|].
  intros H Hin. apply andb_true_iff in H as [Hkm Hrest].
  apply andb_true_iff in Hkm as [Hk Hm].
  destruct (String.eqb k x) eqn:E.
  - apply String.eqb_eq in E. subst x. split; [assumption|].
    destruct m; [eauto|discriminate].
  - apply String.eqb_neq in E. destruct Hin as [Hin|Hin]; [contradiction|]. auto.
Qed.

Lemma read_each_files (D : string) (es : entries_t) (files : list FileInfo) :
  D <> "" ->
  (forall f, In f files ->
             plain (Name f) = true /\
             exists data, find_entry (Name f) es = Some (File data)) ->
  forall (acc : list string) (w : World),
    faults w = [] ->
    lookup (locate (cwd (fs w)) D) (root (fs w)) = inr (Dir es) ->
    fst (read_each D files acc w)
    = (acc ++ map (fun f => content es (Name f)) files, None).
Proof.
  intros HD. induction files as [|f files IH]; intros Hall acc w Hq Hl.
  - simpl. rewrite app_nil_r. reflexivity.
  - destruct (Hall f (or_introl eq_refl)) as (Hp & data & Hf).
    rewrite read_each_cons.
    rewrite ioutil_ReadFile_quiet;
      [| assumption | apply Join_not_empty; assumption].
    rewrite (locate_Join_child _ D (Name f) HD Hp).
    rewrite (lookup_snoc _ (Name f) _ _ Hl), Hf.
    rewrite IH.
    + cbn [map]. unfold content at 2. rewrite Hf. rewrite <- app_assoc. reflexivity.
    + intros g Hg. apply Hall. right. exact Hg.
    + apply quiet_advance. assumption.
    + rewrite fs_advance_same. exact Hl.
Qed.

Lemma ReadAll_run (d : Driver) (c : string) (w : World) (es : entries_t) :
  faults w = [] -> dir d <> "" -> c <> "" ->
  lookup (locate (cwd (fs w)) (collection_path d c)) (root (fs w)) = inr (Dir es) ->
  all_files es = true ->
  fst (ReadAll d c w) = (map (content es) (sort_names (map fst es)), None).
Proof.
  intros Hq Hd Hc Hl Hall.
  pose proof (collection_located (cwd (fs w)) d c Hd) as Lc.
  assert (HD : Join [dir d; c] <> "") by (apply Join_not_empty; assumption).
  unfold ReadAll. apply String.eqb_neq in Hc. rewrite Hc. unfold bind.
  rewrite (stat_quiet_bare (Join [dir d; c]) w (Dir es)) by (rewrite ?Lc; assumption).
  cbv beta iota.
  rewrite (ioutil_ReadDir_quiet (Join [dir d; c]) _ es);
    [| apply quiet_advance; assumption | assumption
     | rewrite fs_advance_same, Lc; assumption].
  cbv beta iota.
  rewrite (read_each_files (Join [dir d; c]) es); try assumption.
  - rewrite map_map. reflexivity.
  - intros f Hf. apply in_map_iff in Hf as (x & <- & Hx). cbn [Name].
    apply all_files_entry; [assumption|]. apply sort_names_In. exact Hx.
  - apply quiet_advance, quiet_advance. assumption.
  - rewrite !fs_advance_same, Lc. assumption.
Qed.

(** ** [New], whatever is at the root path *)

Lemma lookup_missing_way_clear (p : list string) :
  forall (n : node), lookup p n = inl ENOENT -> way_clear p n.
Proof.
  unfold way_clear.
  induction p as [|a p IH]; intros n Hl q Hq.
  - discriminate.
  - destruct q as [|b q].
    + unfold file_at. simpl. destruct n; [discriminate|reflexivity].
    + simpl in Hq. apply andb_true_iff in Hq as [Hab Hq].
      apply String.eqb_eq in Hab. subst b.
      simpl in Hl. destruct n as [data|es0]; [discriminate|].
      rewrite file_at_cons.
      destruct (find_entry a es0) as [child|]; [|reflexivity].
      eapply IH; eauto.
Qed.

Lemma mkdir_all_blocked (p : list string) :
  forall (n : node), lookup p n = inl ENOTDIR -> mkdir_all p (Some n) = inl ENOTDIR.
Proof.
  induction p as [|a p IH]; intros n Hl.
  - discriminate.
  - destruct n as [data|es]; [reflexivity|].
    simpl in Hl. cbn [mkdir_all].
    destruct (find_entry a es) as [child|]; [|discriminate].
    rewrite (IH child Hl). reflexivity.
Qed.

Lemma lookup_errors (p : list string) :
  forall (n : node) (e : errno), lookup p n = inl e -> e = ENOENT \/ e = ENOTDIR.
Proof.
  induction p as [|a p IH]; intros n e Hl.
  - discriminate.
  - simpl in Hl. destruct n as [data|es]; [inversion Hl; auto|].
    destruct (find_entry a es) as [child|]; [eauto | inversion Hl; auto].
Qed.

Lemma New_files (x : string) (opt : option Options) (w : World) :
  let r := New x opt w in
  dir (fst (fst r)) = Clean x /\ registry (snd r) = [] /\
  cwd (fs (snd r)) = cwd (fs w) /\
  forall q, file_at q (root (fs (snd r))) = file_at q (root (fs w)).
Proof.
  intros r. subst r. unfold New, bind, make_mutexes. cbv beta iota.
  set (w0 := mkWorld (fs w) (faults w) (history w) (logged w) []).
  change (fs w) with (fs w0). assert (Hr0 : registry w0 = []) by reflexivity.
  clearbody w0.
  destruct (os_Stat_snd (Clean x) w0) as (e & Hs).
  destruct (os_Stat (Clean x) w0) as [[fi err] w1].
  change (w1 = advance w0 (CStat (Clean x)) e (root (fs w0))) in Hs.
  destruct err as [e1|].
  - unfold Debug, log_to. cbv beta iota.
    match goal with
    | |- context [os_MkdirAll ?p ?w2] =>
        destruct (os_MkdirAll_snd p w2) as (e2 & r2 & Hs2 & Hr2);
        destruct (os_MkdirAll p w2) as [err2 w3];
        change (w3 = advance w2 (CMkdirAll p) e2 r2) in Hs2
    end.
    subst w3 w1. simpl in *. repeat split; try assumption.
    intros q. destruct Hr2 as [->|Hr2]; [reflexivity|].
    eapply mkdir_all_file_at; eauto.
  - unfold Debug, log_to, ret. cbv beta iota. subst w1. simpl. auto.
Qed.

Lemma New_run (x : string) (opt : option Options) (w : World) (e : errno) :
  faults w = [] ->
  lookup (locate (cwd (fs w)) (Clean x)) (root (fs w)) = inl e ->
  let r := New x opt w in
  match e with
  | ENOENT => snd (fst r) = None /\ is_dir_at (Clean x) (fs (snd r)) = true
  | _ => snd (fst r)
         = Some (PathError "mkdir" (stops_at (length (split (Clean x))) (fs w) (Clean x))
                   ENOTDIR) /\
         fs (snd r) = fs w
  end.
Proof.
  intros Hq Hl r. subst r. unfold New, bind, make_mutexes. cbv beta iota.
  set (w0 := mkWorld (fs w) (faults w) (history w) (logged w) []).
  assert (Hq0 : faults w0 = []) by exact Hq.
  assert (Hfs0 : fs w0 = fs w) by reflexivity.
  clearbody w0. rewrite <- Hfs0 in *. clear Hfs0 Hq. revert Hq0 Hl. generalize w0.
  clear w w0. intros w Hq Hl.
  rewrite os_Stat_quiet, Hl by (try apply Clean_not_empty; assumption).
  cbv beta iota. unfold Debug, log_to. cbv beta iota.
  match goal with
  | |- context [os_MkdirAll _ ?w2] =>
      assert (Hq2 : faults w2 = []) by (apply quiet_advance; assumption);
      assert (Hfs2 : fs w2 = fs w) by apply fs_advance_same;
      generalize dependent w2
  end.
  intros w2 Hq2 Hfs2.
  rewrite os_MkdirAll_quiet by (try apply Clean_not_empty; assumption).
  rewrite Hfs2.
  destruct (lookup_errors _ _ _ Hl) as [->| ->].
  - destruct (mkdir_all_ok _ _ (lookup_missing_way_clear _ _ Hl)) as (r1 & Hmk).
    rewrite Hmk. unfold ret. cbv beta iota. split; [reflexivity|].
    unfold is_dir_at. simpl. rewrite Hfs2.
    destruct (mkdir_all_dir _ _ _ Hmk) as (es & ->). reflexivity.
  - rewrite (mkdir_all_blocked _ _ Hl). unfold ret. cbv beta iota.
    split; [reflexivity|]. simpl. rewrite Hfs2. apply mkFS_eta.
Qed.

(** Undisturbed, [ReadAll] of a collection whose path ends in a regular
    file, or passes one: the probe or the listing fails, not a
    directory. *)
Lemma ReadAll_blocked (d : Driver) (c : string) (w : World) :
  faults w = [] -> dir d <> "" -> c <> "" ->
  lookup (locate (cwd (fs w)) (Join [dir d; c])) (root (fs w)) = inl ENOTDIR
  \/ (exists data,
        lookup (locate (cwd (fs w)) (Join [dir d; c])) (root (fs w)) = inr (File data)) ->
  exists e,
    fst (ReadAll d c w) = ([], Some e) /\ errno_of (Some e) = Some ENOTDIR /\
    fs (snd (ReadAll d c w)) = fs w.
Proof.
  intros Hq Hd Hc Hl. unfold ReadAll.
  apply String.eqb_neq in Hc. rewrite Hc.
  assert (HTne : Join [dir d; c] <> "") by (apply Join_not_empty; assumption).
  set (T := Join [dir d; c]) in *. clearbody T.
  unfold bind. destruct Hl as [Hl|(data & Hl)].
  - unfold stat, bind. rewrite os_Stat_quiet, Hl by assumption.
    cbv beta iota. change (os_IsNotExist (Some (PathError "stat" T ENOTDIR))) with false.
    cbv beta iota. unfold ret. cbv beta iota. cbn [fst snd].
    eexists. split; [reflexivity|]. split; [reflexivity|]. apply fs_advance_same.
  - rewrite (stat_quiet_bare T w (File data)) by assumption. cbv beta iota.
    set (w1 := advance w (CStat T) None (root (fs w))).
    assert (Hq1 : faults w1 = []) by (apply quiet_advance; assumption).
    assert (Hfs1 : fs w1 = fs w) by apply fs_advance_same.
    unfold ioutil_ReadDir, bind. rewrite syscall_quiet by assumption.
    rewrite at_path_run by assumption. unfold readdir_op.
    rewrite Hfs1, Hl. apply String.eqb_neq in HTne. rewrite HTne.
    cbv beta iota. unfold ret. cbv beta iota. cbn [fst snd].
    eexists. split; [reflexivity|]. split; [reflexivity|].
    rewrite <- Hfs1 at 2. rewrite <- Hfs1 at 1. apply fs_advance_same.
Qed.

End ForwardFacts.

Module RecordFacts.
Import Tree TreeFacts FrameFacts Str StrFacts Filepath FilepathFacts Sys.
Import SysFacts LocateFacts Jdb LayoutFacts JdbFacts QuietFacts.
Import StoreFacts StatFacts ProbeFacts PlainFacts Notions RunFacts.
Import ReadAllFacts WorldFacts IsolationFacts ForwardFacts.

Lemma clear_way_ok (p : list string) :
  forall (n : node), clear_way p n = true -> way_clear p n.
Proof.
  unfold way_clear.
  induction p as [|a p IH]; intros n Hc q Hq.
  - destruct q; [|discriminate]. destruct n; [discriminate|reflexivity].
  - destruct n as [data|es]; [discriminate|].
    destruct q as [|b q]; [reflexivity|].
    simpl in Hq. apply andb_true_iff in Hq as [Hab Hq].
    apply String.eqb_eq in Hab. subst b.
    rewrite file_at_cons. cbn [clear_way] in Hc.
    destruct (find_entry a es) as [child|]; [|reflexivity].
    eapply IH; eauto.
Qed.

Lemma lookup_snoc_inv (P : list string) (a : string) :
  forall (n x : node),
    lookup (P ++ [a]) n = inr x ->
    exists es, lookup P n = inr (Dir es) /\ find_entry a es = Some x.
Proof.
  induction P as [|b P IH]; intros n x Hl.
  - simpl in Hl. destruct n as [data|es]; [discriminate|].
    destruct (find_entry a es) as [child|] eqn:E; [|discriminate].
    simpl in Hl. inversion Hl; subst. exists es. split; [reflexivity|assumption].
  - simpl in Hl. destruct n as [data|es]; [discriminate|]. simpl.
    destruct (find_entry b es) as [child|]; [|discriminate].
    apply IH. exact Hl.
Qed.

(** The collection, the record and the temporary file under the root of
    the driver. *)
Lemma collection_child (wd : list string) (d : Driver) (c : string) :
  dir d <> "" -> plain c = true ->
  locate wd (collection_path d c) = locate wd (dir d) ++ [c].
Proof. intros Hd Hc. unfold collection_path. apply locate_child; assumption. Qed.

Lemma collection_path_not_empty (d : Driver) (c : string) :
  dir d <> "" -> collection_path d c <> "".
Proof. intros Hd E. unfold collection_path in E. apply append_eq_nil in E. tauto. Qed.

Lemma bare_located (wd : list string) (d : Driver) (c k : string) :
  dir d <> "" -> plain k = true ->
  locate wd (collection_path d c +++ "/" +++ k) = locate wd (collection_path d c) ++ [k].
Proof.
  intros Hd Hk. apply locate_child; [|assumption].
  apply collection_path_not_empty. assumption.
Qed.

Lemma tmp_located (wd : list string) (d : Driver) (c k : string) :
  dir d <> "" -> slash_free k = true ->
  locate wd (record_path d c k +++ ".tmp")
  = locate wd (collection_path d c) ++ [k +++ ".json.tmp"].
Proof.
  intros Hd Hk. unfold record_path.
  replace ((dir d +++ "/" +++ c +++ "/" +++ k +++ ".json") +++ ".tmp")
    with (collection_path d c +++ "/" +++ (k +++ ".json.tmp"))
    by (unfold collection_path; rewrite !append_assoc; reflexivity).
  apply locate_child; [apply collection_path_not_empty; assumption|].
  replace (k +++ ".json.tmp") with ((k +++ ".json") +++ ".tmp")
    by (rewrite append_assoc; reflexivity).
  apply plain_suffix; [apply plain_json; assumption | reflexivity].
Qed.

(** The record of another key, or in another collection, lies apart from
    the paths a method works on. *)
Lemma other_record_apart (D : list string) (c c' a a' : string) :
  c' <> c \/ a' <> a ->
  is_prefix ((D ++ [c]) ++ [a]) ((D ++ [c']) ++ [a']) = false.
Proof.
  intros H. destruct (string_dec c' c) as [->|Hc].
  - apply (is_prefix_sibling (D ++ [c]) a a' []). destruct H; congruence.
  - rewrite <- !app_assoc. apply is_prefix_fork. congruence.
Qed.

(** The delete phase of [Update] on a record that is there, with nothing
    under the bare key. *)
Lemma doDelete_record (d : Driver) (c k old : string) (w : World) :
  faults w = [] -> dir d <> "" -> plain c = true -> plain k = true ->
  record_at d c k (fs w) = Some old ->
  lookup (locate (cwd (fs w)) (collection_path d c +++ "/" +++ k)) (root (fs w))
  = inl ENOENT ->
  exists es,
    lookup (locate (cwd (fs w)) (collection_path d c)) (root (fs w)) = inr (Dir es) /\
    fst (doDelete d c k w) = None /\
    faults (snd (doDelete d c k w)) = [] /\
    cwd (fs (snd (doDelete d c k w))) = cwd (fs w) /\
    lookup (locate (cwd (fs w)) (collection_path d c)) (root (fs (snd (doDelete d c k w))))
    = inr (Dir (remove_entry (k +++ ".json") es)).
Proof.
  intros Hq Hd Hc Hk Hrec Hbare.
  pose proof Hk as Hk'. apply plain_spec in Hk' as [Hs _].
  unfold record_at, file_at in Hrec. rewrite (record_located _ d c k Hd Hs) in Hrec.
  rewrite (bare_located _ d c k Hd Hk) in Hbare.
  set (P := locate (cwd (fs w)) (collection_path d c)) in *.
  destruct (lookup (P ++ [k +++ ".json"]) (root (fs w))) as [e|[data|es']] eqn:Hl;
    try discriminate.
  inversion Hrec; subst data. clear Hrec.
  apply lookup_snoc_inv in Hl as (es & HP & Hj).
  rewrite (lookup_snoc P k _ _ HP) in Hbare.
  destruct (find_entry k es) as [x|] eqn:Eb; [discriminate|].
  exists es. split; [exact HP|].
  destruct (doDelete_run d c k w es Hq Hd Hc Hk HP) as (Hq' & Hcwd & Hres & Htree).
  rewrite Eb, Hj in Hres, Htree. auto.
Qed.

(** ** The root of the store as a target *)

Lemma Clean_trailing_sep (a : string) : a <> "" -> Clean (a +++ "/" +++ "") = Clean a.
Proof.
  intros Ha.
  rewrite (Clean_render (a +++ "/" +++ ""))
    by (intros E; apply append_eq_nil in E; tauto).
  rewrite (Clean_render a) by assumption.
  rewrite rooted_app by assumption.
  rewrite split_app_sep, fold_left_app. reflexivity.
Qed.

Lemma locate_trailing_sep (wd : list string) (a : string) :
  a <> "" -> locate wd (a +++ "/" +++ "") = locate wd a.
Proof.
  intros Ha. rewrite locate_app_sep by assumption.
  change (split "") with [""]. cbn [fold_left]. unfold walk_step. cbn [String.eqb].
  apply rev_involutive.
Qed.

(** With an empty collection and an empty key the target of [doDelete]
    is the root of the store. *)
Lemma root_target (d : Driver) : dir d <> "" -> target d "" "" = Clean (dir d).
Proof.
  intros Hd. unfold target. change (Join [""; ""]) with "".
  rewrite Join_cons by assumption.
  change (join [dir d; ""]) with (dir d +++ "/" +++ "").
  apply Clean_trailing_sep. assumption.
Qed.

Lemma doDelete_root (d : Driver) (w : World) (es : entries_t) :
  faults w = [] -> real (base_name (dir d)) = true ->
  lookup (locate (cwd (fs w)) (dir d)) (root (fs w)) = inr (Dir es) ->
  let r := doDelete d "" "" w in
  fst r = None /\ cwd (fs (snd r)) = cwd (fs w) /\
  forall q, lookup (locate (cwd (fs w)) (dir d) ++ q) (root (fs (snd r))) = inl ENOENT.
Proof.
  intros Hq Hreal Hl r. subst r.
  assert (Hd : dir d <> "") by (apply real_not_empty in Hreal; intros E; rewrite E in Hreal; auto).
  pose proof (root_target d Hd) as HT.
  assert (Hloc : locate (cwd (fs w)) (Clean (dir d)) = locate (cwd (fs w)) (dir d)).
  { apply locate_Clean. assumption. }
  destruct (getMutex_quiet "" w Hq) as (Hfs0 & Hq0 & _).
  unfold doDelete, bind. fold (target d "" ""). rewrite HT.
  destruct (getMutex "" w) as [u w0]. simpl in Hfs0, Hq0.
  rewrite (stat_quiet_bare (Clean (dir d)) w0 (Dir es));
    [| assumption | apply Clean_not_empty | rewrite Hfs0, Hloc; assumption].
  cbv beta iota.
  change (IsDir (mkInfo (base_name (Clean (dir d))) (is_dir (Dir es)))) with true.
  cbv iota.
  set (w1 := advance w0 (CStat (Clean (dir d))) None (root (fs w0))).
  assert (Hfs1 : fs w1 = fs w) by (unfold w1; rewrite fs_advance_same; assumption).
  assert (Hq1 : faults w1 = []) by (apply quiet_advance; assumption).
  clearbody w1.
  rewrite os_RemoveAll_quiet;
    [| assumption | apply Clean_not_empty | apply ends_with_dot_Clean; assumption].
  rewrite Hfs1, Hloc.
  assert (Hne : locate (cwd (fs w)) (dir d) <> []).
  { rewrite locate_real by assumption. destruct (parent_loc _ _); discriminate. }
  destruct (remove_all_found _ _ _ Hne Hl) as (r' & Hrm & Hgone).
  rewrite Hrm. cbn [fst snd].
  split; [reflexivity|]. split.
  - unfold advance. simpl. rewrite Hfs1. reflexivity.
  - intros q. unfold advance. simpl. apply lookup_app_missing. assumption.
Qed.

Lemma clear_way_blocked (p : list string) :
  forall (n : node), clear_way p n = false -> mkdir_all p (Some n) = inl ENOTDIR.
Proof.
  induction p as [|a p IH]; intros n Hc.
  - destruct n; [reflexivity|discriminate].
  - destruct n as [data|es]; [reflexivity|].
    cbn [clear_way] in Hc. cbn [mkdir_all].
    destruct (find_entry a es) as [child|]; [|discriminate].
    rewrite (IH child Hc). reflexivity.
Qed.

End RecordFacts.

(* ================================================================== *)
(** * Properties of the store *)
(* ================================================================== *)

Module Properties.
Import Tree TreeFacts Str StrFacts Filepath FilepathFacts Sys SysFacts.
Import LocateFacts Jdb LayoutFacts JdbFacts QuietFacts StoreFacts.
Import Scenario StatFacts ProbeFacts RunFacts DeleteFacts ReadAllFacts.
Import ForwardFacts.

(** C1.  Whatever the environment does to a [Write], the committed record
    under [<root>/<collection>/<key>.json] stays as it was in the file
    system left by every call of the run except a rename that succeeded,
    and in the final file system whenever [Write] reports an error: new
    content appears under the final name at the rename, not before. *)
Theorem write_failure_keeps_record {Value : Type}
    (enc : Value -> string -> string -> string * option error)
    (d : Driver) (c k : string) (v : Value) (w : World) :
  dir d <> "" ->
  let r := Write enc d c k v w in
  exists evs,
    history (snd r) = history w ++ evs /\
    (forall ev, In ev evs ->
                is_rename (ev_call ev) = false \/ ev_err ev <> None ->
                record_at d c k (ev_fs ev) = record_at d c k (fs w)) /\
    (snd (fst r) <> None -> record_at d c k (fs (snd r)) = record_at d c k (fs w)).
Proof.
  intros Hd r. subst r. unfold Write.
  assert (Hnone : forall e : error,
             exists evs,
               history (snd (ret ("", Some e) w)) = history w ++ evs /\
               (forall ev, In ev evs ->
                           is_rename (ev_call ev) = false \/ ev_err ev <> None ->
                           record_at d c k (ev_fs ev) = record_at d c k (fs w)) /\
               (snd (fst (ret ("", Some e) w)) <> None ->
                record_at d c k (fs (snd (ret ("", Some e) w))) = record_at d c k (fs w))).
  { intros e. exists []. simpl. rewrite app_nil_r.
    split; [reflexivity|]. split; [intros ev []|reflexivity]. }
  destruct (String.eqb c ""); [apply Hnone|].
  destruct (String.eqb k ""); [apply Hnone|].
  destruct (doWrite enc d c k v w) as [res w'] eqn:E.
  eapply doWrite_record; eauto.
Qed.

(** A write that runs out of disk space after two bytes of the temporary
    file leaves the old record of the key in place. *)
Lemma write_failure_keeps_record_witness :
  dir db <> "" /\
  let w := world one_record [None; Some (FailAfter 2 ENOSPC)] in
  let r := Write encode db "users" "42" false w in
  snd (fst r) = Some (PathError "write" "db/users/42.json.tmp" ENOSPC) /\
  record_at db "users" "42" (fs (snd r)) = Some ("true" +++ newline) /\
  file_at ["home"; "db"; "users"; "42.json.tmp"] (root (fs (snd r))) = Some "fa" /\
  exists evs,
    history (snd r) = history w ++ evs /\
    (forall ev, In ev evs ->
                is_rename (ev_call ev) = false \/ ev_err ev <> None ->
                record_at db "users" "42" (ev_fs ev) = record_at db "users" "42" (fs w)) /\
    (snd (fst r) <> None ->
     record_at db "users" "42" (fs (snd r)) = record_at db "users" "42" (fs w)).
Proof.
  split; [discriminate|]. intros w r.
  split; [reflexivity|]. split; [reflexivity|]. split; [reflexivity|].
  apply (write_failure_keeps_record encode db "users" "42" false w). discriminate.
Defined.

(** C2, as stated, fails for the key [.]: the write succeeds and commits
    [db/users/..json], the read looks for [db/users.json]. *)
Lemma read_after_write_dot_key :
  let r := Write encode db "users" "." true (world empty_store []) in
  snd (fst r) = None /\
  fst (Read db "users" "." (snd r))
  = ("", Some (PathError "open" "db/users.json" ENOENT)).
Proof. split; reflexivity. Qed.

(** C2, amended.  For a key whose last path element is a name, a
    successful [Write] followed by an undisturbed [Read] returns content
    that decodes to the value written, for every decoder that inverts the
    encoder on that value. *)
Theorem read_after_write {Value : Type}
    (enc : Value -> string -> string -> string * option error)
    (dec : string -> option Value)
    (d : Driver) (c k : string) (v : Value) (w : World) :
  dir d <> "" ->
  real (base_name k) = true ->
  (forall b, enc v "" tab = (b, None) -> dec (b +++ newline) = Some v) ->
  let r := Write enc d c k v w in
  snd (fst r) = None ->
  faults (snd r) = [] ->
  exists content,
    fst (Read d c k (snd r)) = (content, None) /\ dec content = Some v.
Proof.
  intros Hd Hk Hdec r Hok Hq.
  destruct (Write_success enc d c k v w Hd Hok) as (Hc & _ & b & Hb & Hrec).
  fold r in Hrec.
  exists (b +++ newline). split; [|auto].
  apply Read_record; assumption.
Qed.

Lemma read_after_write_witness :
  dir db <> "" /\ real (base_name "42") = true /\
  (forall b, encode false "" tab = (b, None) -> decode (b +++ newline) = Some false) /\
  let r := Write encode db "users" "42" false (world one_record []) in
  snd (fst r) = None /\ faults (snd r) = [] /\
  exists content,
    fst (Read db "users" "42" (snd r)) = (content, None) /\
    decode content = Some false.
Proof.
  assert (Hdec : forall b, encode false "" tab = (b, None) ->
                           decode (b +++ newline) = Some false).
  { intros b Hb. inversion Hb. reflexivity. }
  split; [discriminate|]. split; [reflexivity|]. split; [exact Hdec|].
  intros r. split; [reflexivity|]. split; [reflexivity|].
  apply (read_after_write encode decode db "users" "42" false (world one_record []));
    [discriminate | reflexivity | exact Hdec | reflexivity | reflexivity].
Defined.




(** C4, as stated, fails when the key names a directory: there is no
    record [db/users/42.json], yet [Update] succeeds, removes the
    directory and creates the file. *)
Lemma update_without_record_succeeds :
  let w := world nested [] in
  let r := Update encode db "users" "42" true w in
  record_at db "users" "42" (fs w) = None /\
  fst r = ("42", None) /\
  record_at db "users" "42" (fs (snd r)) = Some ("true" +++ newline).
Proof. repeat split. Qed.

(** C4, amended.  The target path is the cleaned join of the root, the
    collection and the key, as [doDelete] builds it (a key [a/] or [.]
    is cleaned away before anything is looked up).  When nothing can be
    reached at the target path nor at the target path with the
    extension, [Update] returns the key and a not-found error, whatever
    the environment does; the file system and the log are as before and
    only [Stat] calls were made: the delete phase failed and [doWrite]
    was not entered. *)
Theorem update_missing_fails {Value : Type}
    (enc : Value -> string -> string -> string * option error)
    (d : Driver) (c k : string) (v : Value) (w : World) (e1 e2 : errno) :
  lookup (locate (cwd (fs w)) (target d c k)) (root (fs w)) = inl e1 ->
  lookup (locate (cwd (fs w)) (target d c k +++ ".json")) (root (fs w)) = inl e2 ->
  let r := Update enc d c k v w in
  fst r = (k, Some (Errorf "unable to find directory %q" [Join [c; k]])) /\
  not_found (Errorf "unable to find directory %q" [Join [c; k]]) = true /\
  fs (snd r) = fs w /\
  logged (snd r) = logged w /\
  exists evs, history (snd r) = history w ++ evs /\
              Forall (fun ev => is_stat (ev_call ev) = true) evs.
Proof.
  intros H1 H2 r. subst r. unfold Update, doDelete, bind. fold (target d c k).
  destruct (getMutex c w) as [u w0] eqn:Em.
  apply getMutex_inv in Em as (Hfs0 & _ & Hh0 & Hlg0).
  rewrite <- Hfs0 in H1, H2.
  destruct (stat (target d c k) w0) as [[fi err] w1] eqn:Es.
  destruct (stat_missing _ _ _ _ _ _ _ H1 H2 Es)
    as (-> & Herr & Hfs1 & Hlg1 & evs & Hh1 & Hall).
  simpl. repeat split; try congruence.
  exists evs. split; [congruence | assumption].
Qed.

Lemma update_missing_fails_witness :
  let w := world one_record [Some (Fail ENOENT)] in
  lookup (locate (cwd (fs w)) (target db "users" "43")) (root (fs w)) = inl ENOENT /\
  lookup (locate (cwd (fs w)) (target db "users" "43" +++ ".json")) (root (fs w))
  = inl ENOENT /\
  let r := Update encode db "users" "43" true w in
  fst r = ("43", Some (Errorf "unable to find directory %q" [Join ["users"; "43"]])) /\
  not_found (Errorf "unable to find directory %q" [Join ["users"; "43"]]) = true /\
  fs (snd r) = fs w /\
  logged (snd r) = logged w /\
  exists evs, history (snd r) = history w ++ evs /\
              Forall (fun ev => is_stat (ev_call ev) = true) evs.
Proof.
  intros w. split; [reflexivity|]. split; [reflexivity|].
  apply (update_missing_fails encode db "users" "43" true w ENOENT ENOENT);
    reflexivity.
Defined.

(** C5, as stated, fails for [Delete]: with an empty key it removes the
    collection directory and reports success. *)
Lemma delete_empty_key_removes_collection :
  let r := Delete db "users" "" (world one_record []) in
  fst r = None /\
  root (fs (snd r)) = Dir [("home", Dir [("db", Dir [])])].
Proof. split; reflexivity. Qed.

(** C5, amended.  [Write] and [Read] with an empty collection or an empty
    key fail with an invalid-argument error and leave the world as it
    was: no system call is made. *)
Theorem empty_argument_rejected {Value : Type}
    (enc : Value -> string -> string -> string * option error)
    (d : Driver) (c k : string) (v : Value) (w : World) :
  c = "" \/ k = "" ->
  (exists e, Write enc d c k v w = (("", Some e), w) /\ invalid_argument e = true) /\
  (exists e, Read d c k w = (("", Some e), w) /\ invalid_argument e = true).
Proof.
  intros [-> | ->]; unfold Write, Read; simpl.
  - split; eexists; split; reflexivity.
  - destruct (String.eqb c ""); split; eexists; split; reflexivity.
Qed.

Lemma empty_argument_rejected_witness :
  ("users" = "" \/ "" = "") /\
  (exists e, Write encode db "users" "" true (world one_record [])
             = (("", Some e), world one_record []) /\ invalid_argument e = true) /\
  (exists e, Read db "users" "" (world one_record [])
             = (("", Some e), world one_record []) /\ invalid_argument e = true).
Proof.
  split; [right; reflexivity|].
  apply (empty_argument_rejected encode db "users" "" true (world one_record [])).
  right. reflexivity.
Defined.



(** C7.  After a successful [Write] the record of the key is the indented
    encoding of the value followed by one newline, and the key returned is
    the key passed in. *)
Theorem write_commits_encoding {Value : Type}
    (enc : Value -> string -> string -> string * option error)
    (d : Driver) (c k : string) (v : Value) (w : World) :
  dir d <> "" ->
  let r := Write enc d c k v w in
  snd (fst r) = None ->
  fst (fst r) = k /\
  exists b, enc v "" tab = (b, None) /\
            record_at d c k (fs (snd r)) = Some (b +++ newline).
Proof.
  intros Hd r Hok. apply (Write_success enc d c k v w Hd Hok).
Qed.

Lemma write_commits_encoding_witness :
  dir db <> "" /\
  let r := Write encode db "users" "7" true (world empty_store []) in
  snd (fst r) = None /\
  fst (fst r) = "7" /\
  exists b, encode true "" tab = (b, None) /\
            record_at db "users" "7" (fs (snd r)) = Some (b +++ newline).
Proof.
  split; [discriminate|]. intros r. split; [reflexivity|].
  apply (write_commits_encoding encode db "users" "7" true (world empty_store []));
    [discriminate | reflexivity].
Defined.

(** C8, as stated, fails where a regular file is on the way to the
    directory of the collection, or in its place: there is no such
    directory, yet the error is not a not-found error.  With [db] a
    regular file the probe of [db/users] fails, not a directory; and the
    record [db/users/42.json], taken for a collection, is found by the
    probe and cannot be listed. *)
Lemma ReadAll_without_directory_not_not_found :
  (let w := world root_is_file [] in
   is_dir_at (Join [dir db; "users"]) (fs w) = false /\
   fst (ReadAll db "users" w) = ([], Some (PathError "stat" "db/users" ENOTDIR)) /\
   not_found (PathError "stat" "db/users" ENOTDIR) = false) /\
  (let w := world one_record [] in
   is_dir_at (Join [dir db; "users/42.json"]) (fs w) = false /\
   fst (ReadAll db "users/42.json" w)
   = ([], Some (PathError "readdirent" "db/users/42.json" ENOTDIR)) /\
   not_found (PathError "readdirent" "db/users/42.json" ENOTDIR) = false).
Proof. repeat split. Qed.

(** C8, amended.  [ReadAll] with an empty collection fails with an
    invalid-argument error and does nothing; undisturbed and with names
    within the limits of the system, it fails with a not-found error
    when nothing is at [<root>/<collection>] and no regular file is on
    the way, and with a not-a-directory error, which is no not-found
    error, when a regular file is on the way or in its place; and when
    the files listed before some file are read and that file is not, it
    returns that file's error and no records, the files after it left
    unread.  No error of [ReadAll] comes with records. *)
Theorem ReadAll_failures (d : Driver) :
  (forall w, exists e,
      ReadAll d "" w = (([], Some e), w) /\ invalid_argument e = true) /\
  (forall c w,
      dir d <> "" -> c <> "" -> faults w = [] ->
      fits (Join [dir d; c] +++ ".json") = true ->
      lookup (locate (cwd (fs w)) (dir d +++ "/" +++ c)) (root (fs w)) = inl ENOENT ->
      exists e, fst (ReadAll d c w) = ([], Some e) /\ not_found e = true) /\
  (forall c w,
      dir d <> "" -> c <> "" -> faults w = [] ->
      fits (Join [dir d; c] +++ ".json") = true ->
      lookup (locate (cwd (fs w)) (dir d +++ "/" +++ c)) (root (fs w)) = inl ENOTDIR
      \/ (exists data,
            lookup (locate (cwd (fs w)) (dir d +++ "/" +++ c)) (root (fs w))
            = inr (File data)) ->
      exists e, fst (ReadAll d c w) = ([], Some e) /\
                errno_of (Some e) = Some ENOTDIR /\ not_found e = false) /\
  (forall c w w1 w2 w3 w4 fi pre file post recs b e,
      c <> "" ->
      stat (Join [dir d; c]) w = ((fi, None), w1) ->
      ioutil_ReadDir (Join [dir d; c]) w1 = ((pre ++ file :: post, None), w2) ->
      read_each (Join [dir d; c]) pre [] w2 = ((recs, None), w3) ->
      ioutil_ReadFile (Join [Join [dir d; c]; Name file]) w3 = ((b, Some e), w4) ->
      ReadAll d c w = (([], Some e), w4)) /\
  (forall c w recs e, fst (ReadAll d c w) = (recs, Some e) -> recs = []).
Proof.
  split; [|split; [|split; [|split]]].
  - intros w. eexists. split; reflexivity.
  - intros c w Hd Hc Hq _ Hl.
    destruct (ReadAll_missing d c w Hq Hc) as (e & He & Hnf & _).
    + rewrite locate_Join2 by assumption. assumption.
    + eauto.
  - intros c w Hd Hc Hq _ Hl.
    rewrite <- (locate_Join2 _ (dir d) c Hd) in Hl.
    destruct (ReadAll_blocked d c w Hq Hd Hc Hl) as (e & He & Hno & _).
    exists e. split; [exact He|]. split; [exact Hno|].
    destruct e as [op path x|op old new x|format args|msg]; cbn in Hno;
      inversion Hno; subst; reflexivity.
  - intros c w w1 w2 w3 w4 fi pre file post recs b e Hc Hst Hrd Hpre Hfile.
    unfold ReadAll. apply String.eqb_neq in Hc. rewrite Hc.
    unfold bind. rewrite Hst. cbv beta iota. rewrite Hrd. cbv beta iota.
    rewrite (read_each_app _ pre (file :: post) [] recs w2 w3 Hpre).
    rewrite read_each_cons, Hfile. reflexivity.
  - intros c w recs e H. unfold ReadAll in H.
    destruct (String.eqb c ""); [inversion H; reflexivity|].
    unfold bind in H.
    destruct (stat (Join [dir d; c]) w) as [[fi err] w1].
    destruct err; [inversion H; reflexivity|].
    destruct (ioutil_ReadDir (Join [dir d; c]) w1) as [[files err] w2].
    destruct err; [inversion H; reflexivity|].
    destruct (read_each (Join [dir d; c]) files [] w2) as [[recs' err] w3] eqn:E.
    simpl in H. inversion H; subst. eapply read_each_error; eauto.
Qed.

(** [db/users] holds [a.json], the directory [b] and [c.json]: the first
    is read, the second cannot be, the third is never opened.  There is
    no collection [nobody], and the record [a.json] is no collection. *)
Lemma ReadAll_failures_witness :
  let w := world mixed [] in
  let w1 := snd (stat "db/users" w) in
  let w2 := snd (ioutil_ReadDir "db/users" w1) in
  let w3 := snd (ioutil_ReadFile "db/users/a.json" w2) in
  let w4 := snd (ioutil_ReadFile "db/users/b" w3) in
  ReadAll db "users" w = (([], Some (PathError "read" "db/users/b" EISDIR)), w4) /\
  map (fun ev => ev_call ev) (history w4)
  = [CStat "db/users"; CReadDir "db/users";
     CReadFile "db/users/a.json"; CReadFile "db/users/b"] /\
  (exists e, fst (ReadAll db "nobody" w) = ([], Some e) /\ not_found e = true) /\
  (exists e, fst (ReadAll db "users/a.json" w) = ([], Some e) /\
             errno_of (Some e) = Some ENOTDIR /\ not_found e = false).
Proof.
  intros w w1 w2 w3 w4.
  destruct (ReadAll_failures db) as (_ & Hmissing & Hblocked & Hfirst & _).
  split; [|split; [reflexivity|split]].
  - apply (Hfirst "users" w w1 w2 w3 w4 (Some (mkInfo "users" true))
             [mkInfo "a.json" false] (mkInfo "b" true) [mkInfo "c.json" false]
             ["true" +++ newline] "");
      [discriminate | reflexivity | reflexivity | reflexivity | reflexivity].
  - apply (Hmissing "nobody" w);
      [discriminate | discriminate | reflexivity | reflexivity | reflexivity].
  - apply (Hblocked "users/a.json" w);
      [discriminate | discriminate | reflexivity | reflexivity |].
    right. eexists. reflexivity.
Defined.

(** C9.  When the probe of [Delete] reports a regular file, [Delete]
    returns no error whatever [RemoveAll] returned: the world it leaves
    is the one [RemoveAll] left, and a removal the environment made fail
    did fail. *)
Theorem delete_swallows_removal_error (d : Driver) (c k : string) (w w1 : World)
    (fi : FileInfo) :
  stat (target d c k) (snd (getMutex c w)) = ((Some fi, None), w1) ->
  IsDir fi = false ->
  let rm := os_RemoveAll (target d c k +++ ".json") w1 in
  Delete d c k w = (None, snd rm) /\
  (forall f rest,
      faults w1 = Some f :: rest ->
      fst rm = Some (PathError "unlinkat" (target d c k +++ ".json") (fault_errno f))).
Proof.
  intros Hst Hreg rm. subst rm. split.
  - unfold Delete, doDelete, bind. fold (target d c k).
    destruct (getMutex c w) as [u w0]. simpl in Hst. rewrite Hst.
    unfold IsRegular. rewrite Hreg. simpl.
    destruct (os_RemoveAll (target d c k +++ ".json") w1). reflexivity.
  - intros f rest Hf.
    apply (os_RemoveAll_forced _ w1 f rest (json_not_empty _) (ends_with_dot_json _) Hf).
Qed.

(** Permission to remove [db/users/42.json] is denied; [Delete] reports
    success and the record is still there. *)
Lemma delete_swallows_removal_error_witness :
  let w := world one_record [None; None; Some (Fail EACCES)] in
  stat (target db "users" "42") (snd (getMutex "users" w))
  = ((Some (mkInfo "42.json" false), None), snd (stat "db/users/42" (snd (getMutex "users" w)))) /\
  IsDir (mkInfo "42.json" false) = false /\
  let rm := os_RemoveAll (target db "users" "42" +++ ".json")
              (snd (stat "db/users/42" (snd (getMutex "users" w)))) in
  Delete db "users" "42" w = (None, snd rm) /\
  fst rm = Some (PathError "unlinkat" "db/users/42.json" EACCES) /\
  record_at db "users" "42" (fs (snd rm)) = Some ("true" +++ newline).
Proof.
  intros w.
  split; [reflexivity|]. split; [reflexivity|]. intros rm.
  destruct (delete_swallows_removal_error db "users" "42" w
              (snd (stat "db/users/42" (snd (getMutex "users" w))))
              (mkInfo "42.json" false) eq_refl eq_refl) as [Hdel Hrm].
  split; [exact Hdel|]. split; [|reflexivity].
  apply (Hrm (Fail EACCES) []). reflexivity.
Defined.

(** C10.  When something already exists at the cleaned root path, be it a
    directory or a regular file, [New] returns the driver and no error,
    and all it does is one [Stat]: nothing is created. *)
Theorem New_existing_root (x : string) (opt : option Options) (w : World) (n : node) :
  calm w ->
  lookup (locate (cwd (fs w)) (Clean x)) (root (fs w)) = inr n ->
  let r := New x opt w in
  snd (fst r) = None /\
  dir (fst (fst r)) = Clean x /\
  fs (snd r) = fs w /\
  history (snd r) = history w ++ [mkEvent (CStat (Clean x)) None (fs w)].
Proof.
  intros Hc Hl r. subst r. unfold New, bind, make_mutexes.
  rewrite (os_Stat_calm_found (Clean x) _ n); try assumption.
  2:{ apply Clean_not_empty. }
  cbv beta iota. unfold Debug, log_to, ret, advance. simpl.
  rewrite mkFS_eta. auto.
Qed.

(** The root path is a regular file: [New] succeeds all the same. *)
Lemma New_existing_root_witness :
  calm (world root_is_file []) /\
  lookup (locate ["home"] (Clean "./db")) (Dir [("home", root_is_file)])
  = inr (File "not a directory") /\
  let r := New "./db" None (world root_is_file []) in
  snd (fst r) = None /\
  dir (fst (fst r)) = Clean "./db" /\
  fs (snd r) = fs (world root_is_file []) /\
  history (snd r)
  = history (world root_is_file [])
      ++ [mkEvent (CStat (Clean "./db")) None (fs (world root_is_file []))].
Proof.
  split; [exact I|]. split; [reflexivity|].
  apply (New_existing_root "./db" None (world root_is_file []) (File "not a directory"));
    [exact I | reflexivity].
Defined.

End Properties.

(* ================================================================== *)
(** * Further properties of the driver *)
(* ================================================================== *)

Module Behaviour.
Import Tree TreeFacts FrameFacts Str StrFacts Filepath FilepathFacts Sys.
Import SysFacts LocateFacts Jdb LayoutFacts JdbFacts QuietFacts.
Import StoreFacts StatFacts ProbeFacts PlainFacts Notions RunFacts.
Import ReadAllFacts WorldFacts IsolationFacts ForwardFacts RecordFacts.
Import BlameFacts Scenario Shelves.

(** X1.  [getMutex] enters a collection in the map of locks on first use
    and changes nothing when it is there already: afterwards the
    collection is registered, no name has left the map, a map without
    duplicates has none, a second call changes nothing, and the file
    system and the history are untouched. *)
Theorem getMutex_registers_once (c : string) (w : World) :
  let w' := snd (getMutex c w) in
  In c (registry w') /\
  keeps_registry w w' /\
  (In c (registry w) -> w' = w) /\
  snd (getMutex c w') = w' /\
  fs w' = fs w /\ history w' = history w.
Proof.
  intros w'. subst w'.
  destruct (getMutex_registry c w) as (Hin & Hkeep & Hsame).
  split; [exact Hin|]. split; [exact Hkeep|]. split; [exact Hsame|].
  split.
  - destruct (getMutex_registry c (snd (getMutex c w))) as (_ & _ & H). auto.
  - destruct (getMutex c w) as [u w0] eqn:E.
    apply getMutex_inv in E as (H1 & _ & H3 & _). auto.
Qed.

(** X2.  [Delete], [Update] and a [Write] that passes the argument
    checks leave the map of locks as [getMutex] of the collection leaves
    it, whatever the environment does and whether they succeed or not: a
    collection is registered even by a [Delete] that finds nothing.
    [Read] and [ReadAll] take no lock. *)
Theorem methods_register_collection {Value : Type}
    (enc : Value -> string -> string -> string * option error)
    (d : Driver) (c k : string) (v : Value) (w : World) :
  registry (snd (Delete d c k w)) = registry (snd (getMutex c w)) /\
  registry (snd (Update enc d c k v w)) = registry (snd (getMutex c w)) /\
  (c <> "" -> k <> "" ->
   registry (snd (Write enc d c k v w)) = registry (snd (getMutex c w))) /\
  registry (snd (Read d c k w)) = registry w /\
  registry (snd (ReadAll d c w)) = registry w.
Proof.
  split; [apply doDelete_registry|]. split; [|split; [|split]].
  - unfold Update, bind.
    pose proof (doDelete_registry d c k w) as Hd.
    destruct (doDelete d c k w) as [[e|] w1]; cbn [snd] in Hd; [exact Hd|].
    rewrite doWrite_registry.
    destruct (getMutex_registry c w1) as (_ & _ & Hsame).
    rewrite Hsame; [exact Hd|]. rewrite Hd.
    destruct (getMutex_registry c w) as (Hin & _). exact Hin.
  - intros Hc Hk. unfold Write. apply String.eqb_neq in Hc, Hk. rewrite Hc, Hk.
    apply doWrite_registry.
  - apply Read_looked.
  - apply ReadAll_looked.
Qed.

(** A [Delete] of a record that is not there registers the collection. *)
Lemma methods_register_collection_witness :
  "nobody" <> "" /\ "1" <> "" /\
  let w := world one_record [] in
  registry w = [] /\
  registry (snd (Delete db "nobody" "1" w)) = ["nobody"] /\
  registry (snd (Delete db "nobody" "1" w)) = registry (snd (getMutex "nobody" w)) /\
  registry (snd (Update encode db "nobody" "1" true w))
  = registry (snd (getMutex "nobody" w)) /\
  ("nobody" <> "" -> "1" <> "" ->
   registry (snd (Write encode db "nobody" "1" true w))
   = registry (snd (getMutex "nobody" w))) /\
  registry (snd (Read db "nobody" "1" w)) = registry w /\
  registry (snd (ReadAll db "nobody" w)) = registry w.
Proof.
  split; [discriminate|]. split; [discriminate|]. intros w.
  split; [reflexivity|]. split; [reflexivity|].
  apply (methods_register_collection encode db "nobody" "1" true w).
Defined.

(** X3.  [Read], [ReadAll] and the probe [stat] only look, whatever the
    arguments and whatever the environment does: the file system, the
    log and the map of locks are as before, and the calls made are
    [Stat], [ReadFile] and [ReadDir] only. *)
Theorem reads_only_look (d : Driver) (c k path : string) (w : World) :
  looked w (snd (Read d c k w)) /\
  looked w (snd (ReadAll d c w)) /\
  looked w (snd (stat path w)).
Proof.
  split; [apply Read_looked|]. split; [apply ReadAll_looked | apply stat_looked].
Qed.

(** X4.  Undisturbed, for a non-empty collection and a key that ends in
    a name, with a path of the record within the limits of the system,
    [Read] changes nothing and returns the bytes of the record exactly
    when a regular file is at [<root>/<collection>/<key>.json];
    otherwise it returns the empty string and an error, which
    [os.IsNotExist] recognises when nothing is at that path. *)
Theorem Read_exactly (d : Driver) (c k : string) (w : World) :
  faults w = [] -> dir d <> "" -> c <> "" -> real (base_name k) = true ->
  fits (Join [dir d; c; k] +++ ".json") = true ->
  let r := Read d c k w in
  fs (snd r) = fs w /\
  match record_at d c k (fs w) with
  | Some data => fst r = (data, None)
  | None =>
      exists e, fst r = ("", Some e) /\
                (lookup (locate (cwd (fs w)) (record_path d c k)) (root (fs w))
                 = inl ENOENT ->
                 os_IsNotExist (Some e) = true)
  end.
Proof.
  intros Hq Hd Hc Hk _ r. subst r.
  split; [apply Read_looked|].
  destruct (record_at d c k (fs w)) as [data|] eqn:Hrec.
  - apply Read_record; assumption.
  - apply Read_no_record; assumption.
Qed.

(** There is no record of the key [43]. *)
Lemma Read_exactly_witness :
  let w := world one_record [] in
  faults w = [] /\ dir db <> "" /\ "users" <> "" /\ real (base_name "43") = true /\
  fits (Join [dir db; "users"; "43"] +++ ".json") = true /\
  record_at db "users" "43" (fs w) = None /\
  lookup (locate (cwd (fs w)) (record_path db "users" "43")) (root (fs w)) = inl ENOENT /\
  let r := Read db "users" "43" w in
  fs (snd r) = fs w /\
  match record_at db "users" "43" (fs w) with
  | Some data => fst r = (data, None)
  | None =>
      exists e, fst r = ("", Some e) /\
                (lookup (locate (cwd (fs w)) (record_path db "users" "43")) (root (fs w))
                 = inl ENOENT ->
                 os_IsNotExist (Some e) = true)
  end.
Proof.
  intros w. split; [reflexivity|]. split; [discriminate|]. split; [discriminate|].
  split; [reflexivity|]. split; [reflexivity|]. split; [reflexivity|].
  split; [reflexivity|].
  apply (Read_exactly db "users" "43" w);
    [reflexivity | discriminate | discriminate | reflexivity | reflexivity].
Defined.

(** X5.  Undisturbed, a [Write] of a value that encodes, under a key
    without separator and with a temporary path within the limits of the
    system, succeeds whenever no regular file lies on the way to the
    directory of the collection and no directory sits at the final or at
    the temporary path: it returns the key, the record is the encoding
    and a newline, and no temporary file is left. *)
Theorem Write_creates_record {Value : Type}
    (enc : Value -> string -> string -> string * option error)
    (d : Driver) (c k : string) (v : Value) (b : string) (w : World) :
  faults w = [] -> dir d <> "" -> c <> "" -> k <> "" -> slash_free k = true ->
  fits (Join [Join [dir d; c]; k +++ ".json"] +++ ".tmp") = true ->
  enc v "" tab = (b, None) ->
  clear_way (locate (cwd (fs w)) (collection_path d c)) (root (fs w)) = true ->
  is_dir_at (record_path d c k) (fs w) = false ->
  is_dir_at (record_path d c k +++ ".tmp") (fs w) = false ->
  let r := Write enc d c k v w in
  fst r = (k, None) /\
  record_at d c k (fs (snd r)) = Some (b +++ newline) /\
  lookup (locate (cwd (fs w)) (record_path d c k +++ ".tmp")) (root (fs (snd r)))
  = inl ENOENT /\
  faults (snd r) = [].
Proof.
  intros Hq Hd Hc Hk Hs _ Henc Hway Hfnl Htmp r. subst r.
  unfold is_dir_at in Hfnl, Htmp.
  rewrite (record_located _ d c k Hd Hs) in Hfnl.
  rewrite (tmp_located _ d c k Hd Hs) in Htmp |- *.
  unfold Write. apply String.eqb_neq in Hc, Hk. rewrite Hc, Hk.
  destruct (doWrite_run enc d c k v b w Hq Hd Hs Henc (clear_way_ok _ _ Hway))
    as (Hres & Hq' & Hcwd & Hnew & Hold).
  - intros es E. rewrite E in Hfnl. discriminate.
  - intros es E. rewrite E in Htmp. discriminate.
  - split; [exact Hres|]. split; [|split; assumption].
    unfold record_at, file_at. rewrite Hcwd, (record_located _ d c k Hd Hs), Hnew.
    reflexivity.
Qed.

(** The first record of a collection that does not exist yet. *)
Lemma Write_creates_record_witness :
  let w := world empty_store [] in
  faults w = [] /\ dir db <> "" /\ "users" <> "" /\ "7" <> "" /\
  slash_free "7" = true /\
  fits (Join [Join [dir db; "users"]; "7" +++ ".json"] +++ ".tmp") = true /\
  encode true "" tab = ("true", None) /\
  clear_way (locate (cwd (fs w)) (collection_path db "users")) (root (fs w)) = true /\
  is_dir_at (record_path db "users" "7") (fs w) = false /\
  is_dir_at (record_path db "users" "7" +++ ".tmp") (fs w) = false /\
  let r := Write encode db "users" "7" true w in
  fst r = ("7", None) /\
  record_at db "users" "7" (fs (snd r)) = Some ("true" +++ newline) /\
  lookup (locate (cwd (fs w)) (record_path db "users" "7" +++ ".tmp"))
    (root (fs (snd r))) = inl ENOENT /\
  faults (snd r) = [].
Proof.
  intros w. split; [reflexivity|]. split; [discriminate|]. split; [discriminate|].
  split; [discriminate|]. split; [reflexivity|]. split; [reflexivity|].
  split; [reflexivity|].
  split; [reflexivity|]. split; [reflexivity|]. split; [reflexivity|].
  apply (Write_creates_record encode db "users" "7" true "true" w);
    (reflexivity || discriminate).
Defined.

(** X6.  Whatever the environment does and whatever the value, a
    [Write] leaves every other record as it was: the record of another
    key of the collection, and every record of another collection. *)
Theorem Write_leaves_other_records {Value : Type}
    (enc : Value -> string -> string -> string * option error)
    (d : Driver) (c k c' k' : string) (v : Value) (w : World) :
  dir d <> "" -> plain c = true -> plain c' = true ->
  slash_free k = true -> slash_free k' = true ->
  c' <> c \/ k' <> k ->
  record_at d c' k' (fs (snd (Write enc d c k v w))) = record_at d c' k' (fs w).
Proof.
  intros Hd Hc Hc' Hk Hk' Hother.
  unfold Write. destruct (String.eqb c ""); [reflexivity|].
  destruct (String.eqb k ""); [reflexivity|].
  destruct (fnlPath_child (cwd (fs w)) d c k Hd Hk) as (Lf & Lt).
  rewrite (collection_child _ d c Hd Hc) in Lf, Lt.
  pose proof (record_located (cwd (fs w)) d c' k' Hd Hk') as Lr.
  rewrite (collection_child _ d c' Hd Hc') in Lr.
  destruct (doWrite_frame enc d c k v w
              ((locate (cwd (fs w)) (dir d) ++ [c']) ++ [k' +++ ".json"])) as (Hcwd & Hfile).
  - rewrite Lf. apply other_record_apart.
    destruct Hother as [H|H]; [left; exact H|right].
    intros E. apply H. eapply append_inj_l. exact E.
  - rewrite Lt. apply other_record_apart.
    destruct Hother as [H|H]; [left; exact H|right].
    intros E. symmetry in E. revert E. apply tmp_not_record.
  - unfold record_at. rewrite Hcwd, Lr. exact Hfile.
Qed.

(** The disk is full after two bytes of the temporary file of the key
    [42]: the record of the key [7] is as before. *)
Lemma Write_leaves_other_records_witness :
  let w := world two_records [None; Some (FailAfter 2 ENOSPC)] in
  dir db <> "" /\ plain "users" = true /\ slash_free "42" = true /\
  slash_free "7" = true /\ ("users" <> "users" \/ "7" <> "42") /\
  snd (fst (Write encode db "users" "42" false w))
  = Some (PathError "write" "db/users/42.json.tmp" ENOSPC) /\
  record_at db "users" "7" (fs w) = Some ("false" +++ newline) /\
  record_at db "users" "7" (fs (snd (Write encode db "users" "42" false w)))
  = record_at db "users" "7" (fs w).
Proof.
  intros w. split; [discriminate|]. split; [reflexivity|]. split; [reflexivity|].
  split; [reflexivity|]. split; [right; discriminate|]. split; [reflexivity|].
  split; [reflexivity|].
  apply (Write_leaves_other_records encode db "users" "42" "users" "7" false w);
    [discriminate | reflexivity | reflexivity | reflexivity | reflexivity
     | right; discriminate].
Defined.

(** X7.  Whatever the environment does, [Delete] and [Update] leave the
    records of other collections as they were, and in their own
    collection every record whose key, with or without the extension, is
    not the key they were given. *)
Theorem Delete_leaves_other_records {Value : Type}
    (enc : Value -> string -> string -> string * option error)
    (d : Driver) (c k c' k' : string) (v : Value) (w : World) :
  dir d <> "" -> plain c = true -> plain c' = true ->
  plain k = true -> slash_free k' = true ->
  c' <> c \/ (k' <> k /\ k' +++ ".json" <> k) ->
  record_at d c' k' (fs (snd (Delete d c k w))) = record_at d c' k' (fs w) /\
  record_at d c' k' (fs (snd (Update enc d c k v w))) = record_at d c' k' (fs w).
Proof.
  intros Hd Hc Hc' Hk Hk' Hother.
  pose proof Hk as Hks. apply plain_spec in Hks as [Hks _].
  destruct (target_plain d c k Hd Hc Hk) as (HT & _).
  destruct (target_located (cwd (fs w)) d c k Hd Hc Hk) as (_ & _ & _ & Lb & Le).
  rewrite <- HT in Lb, Le.
  rewrite (collection_child _ d c Hd Hc) in Lb, Le.
  pose proof (record_located (cwd (fs w)) d c' k' Hd Hk') as Lr.
  rewrite (collection_child _ d c' Hd Hc') in Lr.
  assert (Hdel : cwd (fs (snd (doDelete d c k w))) = cwd (fs w) /\
                 file_at ((locate (cwd (fs w)) (dir d) ++ [c']) ++ [k' +++ ".json"])
                   (root (fs (snd (doDelete d c k w))))
                 = file_at ((locate (cwd (fs w)) (dir d) ++ [c']) ++ [k' +++ ".json"])
                     (root (fs w))).
  { apply doDelete_frame.
    - rewrite Lb. apply other_record_apart. tauto.
    - rewrite Le. apply other_record_apart.
      destruct Hother as [H|[H _]]; [left; exact H|right].
      intros E. apply H. eapply append_inj_l. exact E. }
  destruct Hdel as (Hcwd & Hfile).
  split.
  - unfold Delete, record_at. rewrite Hcwd, Lr. exact Hfile.
  - unfold Update, bind.
    destruct (doDelete d c k w) as [[e|] w1]; cbn [snd] in Hcwd, Hfile.
    + unfold record_at. cbn [ret snd]. rewrite Hcwd, Lr. exact Hfile.
    + destruct (fnlPath_child (cwd (fs w1)) d c k Hd Hks) as (Lf & Lt).
      rewrite (collection_child _ d c Hd Hc), Hcwd in Lf, Lt.
      destruct (doWrite_frame enc d c k v w1
                  ((locate (cwd (fs w)) (dir d) ++ [c']) ++ [k' +++ ".json"]))
        as (Hcwd2 & Hfile2).
      * rewrite Hcwd, Lf. apply other_record_apart.
        destruct Hother as [H|[H _]]; [left; exact H|right].
        intros E. apply H. eapply append_inj_l. exact E.
      * rewrite Hcwd, Lt. apply other_record_apart.
        destruct Hother as [H|[H _]]; [left; exact H|right].
        intros E. symmetry in E. revert E. apply tmp_not_record.
      * unfold record_at. rewrite Hcwd2, Hcwd, Lr, Hfile2. exact Hfile.
Qed.

(** The record of the key [7] outlives a [Delete] and an [Update] of the
    key [42]. *)
Lemma Delete_leaves_other_records_witness :
  let w := world two_records [] in
  dir db <> "" /\ plain "users" = true /\ plain "42" = true /\ slash_free "7" = true /\
  ("users" <> "users" \/ ("7" <> "42" /\ "7" +++ ".json" <> "42")) /\
  record_at db "users" "42" (fs (snd (Delete db "users" "42" w))) = None /\
  record_at db "users" "7" (fs w) = Some ("false" +++ newline) /\
  record_at db "users" "7" (fs (snd (Delete db "users" "42" w)))
  = record_at db "users" "7" (fs w) /\
  record_at db "users" "7" (fs (snd (Update encode db "users" "42" false w)))
  = record_at db "users" "7" (fs w).
Proof.
  intros w. split; [discriminate|]. split; [reflexivity|]. split; [reflexivity|].
  split; [reflexivity|]. split; [right; split; discriminate|].
  split; [reflexivity|]. split; [reflexivity|].
  apply (Delete_leaves_other_records encode db "users" "42" "users" "7" false w);
    [discriminate | reflexivity | reflexivity | reflexivity | reflexivity
     | right; split; discriminate].
Defined.

(** X8.  Undisturbed, in a collection that exists, [Delete] with plain
    names removes one name at most.  When the key names a directory it
    removes that directory and leaves [<key>.json] alone; when the key
    names a regular file, or nothing while [<key>.json] is a regular
    file, it removes [<key>.json]; when the key names nothing and
    [<key>.json] is a directory it removes nothing and reports success;
    when neither exists it removes nothing and reports that it found no
    directory. *)
Theorem Delete_exactly (d : Driver) (c k : string) (w : World) (es : entries_t) :
  faults w = [] -> dir d <> "" -> plain c = true -> plain k = true ->
  lookup (locate (cwd (fs w)) (collection_path d c)) (root (fs w)) = inr (Dir es) ->
  let r := Delete d c k w in
  fst r = match find_entry k es, find_entry (k +++ ".json") es with
          | None, None => Some (Errorf "unable to find directory %q" [c +++ "/" +++ k])
          | _, _ => None
          end /\
  lookup (locate (cwd (fs w)) (collection_path d c)) (root (fs (snd r)))
  = inr (Dir match find_entry k es, find_entry (k +++ ".json") es with
             | Some (Dir _), _ => remove_entry k es
             | Some (File _), _ => remove_entry (k +++ ".json") es
             | None, Some (File _) => remove_entry (k +++ ".json") es
             | None, _ => es
             end).
Proof.
  intros Hq Hd Hc Hk Hl r. subst r. unfold Delete.
  destruct (doDelete_run d c k w es Hq Hd Hc Hk Hl) as (_ & _ & Hres & Htree).
  split; assumption.
Qed.

(** A directory has the name of the key: it goes, the record of the key
    stays. *)
Lemma Delete_exactly_witness :
  let w := world shadowed [] in
  let es := [("42", Dir [("x.json", File ("false" +++ newline))]);
             ("42.json", File ("true" +++ newline))] in
  faults w = [] /\ dir db <> "" /\ plain "users" = true /\ plain "42" = true /\
  lookup (locate (cwd (fs w)) (collection_path db "users")) (root (fs w)) = inr (Dir es) /\
  let r := Delete db "users" "42" w in
  record_at db "users" "42" (fs (snd r)) = Some ("true" +++ newline) /\
  fst r = match find_entry "42" es, find_entry ("42" +++ ".json") es with
          | None, None =>
              Some (Errorf "unable to find directory %q" ["users" +++ "/" +++ "42"])
          | _, _ => None
          end /\
  lookup (locate (cwd (fs w)) (collection_path db "users")) (root (fs (snd r)))
  = inr (Dir match find_entry "42" es, find_entry ("42" +++ ".json") es with
             | Some (Dir _), _ => remove_entry "42" es
             | Some (File _), _ => remove_entry ("42" +++ ".json") es
             | None, Some (File _) => remove_entry ("42" +++ ".json") es
             | None, _ => es
             end).
Proof.
  intros w es. split; [reflexivity|]. split; [discriminate|]. split; [reflexivity|].
  split; [reflexivity|]. split; [reflexivity|]. intros r. split; [reflexivity|].
  apply (Delete_exactly db "users" "42" w es);
    [reflexivity | discriminate | reflexivity | reflexivity | reflexivity].
Defined.



(** X10.  [Update] is not atomic: undisturbed, with a value the encoder
    refuses, it has removed the old record by the time it returns the
    error of the encoder, and the key is left without a record. *)
Theorem Update_refused_loses_record {Value : Type}
    (enc : Value -> string -> string -> string * option error)
    (d : Driver) (c k : string) (v : Value) (b old : string) (e : error) (w : World) :
  faults w = [] -> dir d <> "" -> plain c = true -> plain k = true ->
  enc v "" tab = (b, Some e) ->
  record_at d c k (fs w) = Some old ->
  lookup (locate (cwd (fs w)) (collection_path d c +++ "/" +++ k)) (root (fs w))
  = inl ENOENT ->
  let r := Update enc d c k v w in
  fst r = (k, Some e) /\ record_at d c k (fs (snd r)) = None.
Proof.
  intros Hq Hd Hc Hk Henc Hrec Hbare r. subst r.
  pose proof Hk as Hk'. apply plain_spec in Hk' as [Hs _].
  destruct (doDelete_record d c k old w Hq Hd Hc Hk Hrec Hbare)
    as (es & HP & Hres & Hq1 & Hcwd1 & Htree).
  unfold Update, bind.
  destruct (doDelete d c k w) as [err w1]. cbn [fst snd] in Hres, Hq1, Hcwd1, Htree.
  subst err. cbv beta iota.
  rewrite <- Hcwd1 in Htree.
  destruct (doWrite_encode_error enc d c k v b e w1 _ Hq1 Hd Henc Htree)
    as (Hres2 & _ & Hfs2).
  split; [exact Hres2|].
  unfold record_at, file_at. rewrite Hfs2, (record_located _ d c k Hd Hs).
  rewrite (lookup_snoc _ (k +++ ".json") _ _ Htree), find_remove_same. reflexivity.
Qed.

Lemma Update_refused_loses_record_witness :
  let w := world one_record [] in
  faults w = [] /\ dir db <> "" /\ plain "users" = true /\ plain "42" = true /\
  refuse false "" tab = ("", Some (EncodeError "json: unsupported type")) /\
  record_at db "users" "42" (fs w) = Some ("true" +++ newline) /\
  lookup (locate (cwd (fs w)) (collection_path db "users" +++ "/" +++ "42")) (root (fs w))
  = inl ENOENT /\
  let r := Update refuse db "users" "42" false w in
  fst r = ("42", Some (EncodeError "json: unsupported type")) /\
  record_at db "users" "42" (fs (snd r)) = None.
Proof.
  intros w. split; [reflexivity|]. split; [discriminate|]. split; [reflexivity|].
  split; [reflexivity|]. split; [reflexivity|]. split; [reflexivity|].
  split; [reflexivity|].
  apply (Update_refused_loses_record refuse db "users" "42" false ""
           ("true" +++ newline) (EncodeError "json: unsupported type") w);
    (reflexivity || discriminate).
Defined.



(** X12.  A [Write] that passes the argument checks, and every
    [Update], returns the key it was given, also with an error and
    whatever the environment does. *)
Theorem Write_returns_key {Value : Type}
    (enc : Value -> string -> string -> string * option error)
    (d : Driver) (c k : string) (v : Value) (w : World) :
  (c <> "" -> k <> "" -> fst (fst (Write enc d c k v w)) = k) /\
  fst (fst (Update enc d c k v w)) = k.
Proof.
  assert (Hdo : forall w0, fst (fst (doWrite enc d c k v w0)) = k).
  { intros w0. unfold doWrite, bind.
    destruct (getMutex c w0) as [u w1]. cbv beta iota.
    destruct (os_MkdirAll (Join [dir d; c]) w1) as [[x|] w2]; [reflexivity|].
    destruct (enc v "" tab) as [b [x|]]; [reflexivity|]. cbv beta iota.
    destruct (ioutil_WriteFile _ _ w2) as [[x|] w3]; [reflexivity|].
    cbv beta iota. unfold Info, log_to. cbv beta iota.
    destruct (os_Rename _ _ _) as [err w4]. reflexivity. }
  split.
  - intros Hc Hk. unfold Write. apply String.eqb_neq in Hc, Hk. rewrite Hc, Hk.
    apply Hdo.
  - unfold Update, bind. destruct (doDelete d c k w) as [[x|] w1]; [reflexivity|].
    apply Hdo.
Qed.

(** The rename is refused: the key comes back with the error. *)
Lemma Write_returns_key_witness :
  let w := world one_record [None; None; Some (Fail EACCES)] in
  "users" <> "" /\ "42" <> "" /\
  fst (Write encode db "users" "42" false w)
  = ("42", Some (LinkError "rename" "db/users/42.json.tmp" "db/users/42.json" EACCES)) /\
  ("users" <> "" -> "42" <> "" -> fst (fst (Write encode db "users" "42" false w)) = "42") /\
  fst (fst (Update encode db "users" "42" false w)) = "42".
Proof.
  intros w. split; [discriminate|]. split; [discriminate|]. split; [reflexivity|].
  apply (Write_returns_key encode db "users" "42" false w).
Defined.

(** X13.  Undisturbed, over a collection whose directory holds regular
    files under plain names only, [ReadAll] returns no error and one
    string for every entry: the bytes of the files, in ascending order
    of the file names, whatever the names are; nothing is changed. *)
Theorem ReadAll_returns_contents (d : Driver) (c : string) (w : World) (es : entries_t) :
  faults w = [] -> dir d <> "" -> c <> "" ->
  lookup (locate (cwd (fs w)) (collection_path d c)) (root (fs w)) = inr (Dir es) ->
  all_files es = true ->
  let names := sort_names (map fst es) in
  fst (ReadAll d c w) = (map (content es) names, None) /\
  ascending names = true /\
  length names = length es /\
  (forall x, In x names -> In x (map fst es)) /\
  fs (snd (ReadAll d c w)) = fs w.
Proof.
  intros Hq Hd Hc Hl Hall names. subst names.
  split; [apply ReadAll_run; assumption|].
  split; [apply sort_names_ascending|].
  split; [rewrite sort_names_length; apply length_map|].
  split; [intros x; apply sort_names_In|].
  apply ReadAll_looked.
Qed.

(** A temporary file that a failed write left behind is returned like a
    record. *)
Lemma ReadAll_returns_contents_witness :
  let w := world leftover [] in
  let es := [("42.json", File ("true" +++ newline)); ("7.json.tmp", File "fa")] in
  faults w = [] /\ dir db <> "" /\ "users" <> "" /\
  lookup (locate (cwd (fs w)) (collection_path db "users")) (root (fs w)) = inr (Dir es) /\
  all_files es = true /\
  fst (ReadAll db "users" w) = (["true" +++ newline; "fa"], None) /\
  let names := sort_names (map fst es) in
  fst (ReadAll db "users" w) = (map (content es) names, None) /\
  ascending names = true /\
  length names = length es /\
  (forall x, In x names -> In x (map fst es)) /\
  fs (snd (ReadAll db "users" w)) = fs w.
Proof.
  intros w es. split; [reflexivity|]. split; [discriminate|]. split; [discriminate|].
  split; [reflexivity|]. split; [reflexivity|]. split; [reflexivity|].
  apply (ReadAll_returns_contents db "users" w es);
    [reflexivity | discriminate | discriminate | reflexivity | reflexivity].
Defined.

(** X14.  Whatever the environment does and whatever is at the root
    path, [New] returns a driver rooted at the cleaned path, which is
    never empty, with an empty map of locks, also when it returns an
    error; and it changes no regular file. *)
Theorem New_keeps_files (x : string) (opt : option Options) (w : World) :
  let r := New x opt w in
  dir (fst (fst r)) = Clean x /\
  dir (fst (fst r)) <> "" /\
  registry (snd r) = [] /\
  cwd (fs (snd r)) = cwd (fs w) /\
  forall q, file_at q (root (fs (snd r))) = file_at q (root (fs w)).
Proof.
  intros r. subst r.
  destruct (New_files x opt w) as (Hdir & Hreg & Hcwd & Hfiles).
  split; [exact Hdir|]. split; [rewrite Hdir; apply Clean_not_empty|]. auto.
Qed.

(** X15.  Undisturbed, with a cleaned root path within the limits of
    the system and a working directory that is one: when nothing is at
    the root path [New] creates a directory there and returns no error;
    when a regular file lies on the way it returns the driver together
    with the error of [MkdirAll], which names that file, and the file
    system is as before. *)
Theorem New_creates_root (x : string) (opt : option Options) (w : World) :
  faults w = [] -> fits (Clean x) = true -> is_dir_at "." (fs w) = true ->
  let r := New x opt w in
  (lookup (locate (cwd (fs w)) (Clean x)) (root (fs w)) = inl ENOENT ->
   snd (fst r) = None /\ is_dir_at (Clean x) (fs (snd r)) = true) /\
  (lookup (locate (cwd (fs w)) (Clean x)) (root (fs w)) = inl ENOTDIR ->
   (exists p rest data,
      snd (fst r) = Some (PathError "mkdir" p ENOTDIR) /\
      Clean x = p +++ "/" +++ rest /\
      lookup (locate (cwd (fs w)) p) (root (fs w)) = inr (File data)) /\
   dir (fst (fst r)) = Clean x /\ fs (snd r) = fs w).
Proof.
  intros Hq _ Hwd r. subst r. split; intros Hl.
  - apply (New_run x opt w ENOENT Hq Hl).
  - destruct (New_run x opt w ENOTDIR Hq Hl) as (H1 & H2).
    split; [|split; [apply New_files | exact H2]].
    apply is_dir_at_dot in Hwd as (es0 & Hwd).
    destruct (stops_at_Clean (fs w) x es0 Hwd (or_introl Hl))
      as (p & sfx & data & Hs & Hpre & Hsfx & Hfile).
    destruct Hsfx as [->|(rest & ->)].
    + rewrite append_nil_r in Hpre. rewrite <- Hpre, Hl in Hfile. discriminate.
    + exists p, rest, data. rewrite H1, Hs. auto.
Qed.

(** Nothing is below the working directory: [db] is created.  And where
    [db] is a regular file, [db/store] cannot be, and the error names
    [db]. *)
Lemma New_creates_root_witness :
  (let w := world bare [] in
   faults w = [] /\ fits (Clean "./db") = true /\ is_dir_at "." (fs w) = true /\
   lookup (locate (cwd (fs w)) (Clean "./db")) (root (fs w)) = inl ENOENT /\
   root (fs (snd (New "./db" None w))) = Dir [("home", Dir [("db", Dir [])])] /\
   snd (fst (New "./db" None w)) = None /\
   is_dir_at (Clean "./db") (fs (snd (New "./db" None w))) = true) /\
  (let w := world root_is_file [] in
   faults w = [] /\ fits (Clean "db/store") = true /\ is_dir_at "." (fs w) = true /\
   lookup (locate (cwd (fs w)) (Clean "db/store")) (root (fs w)) = inl ENOTDIR /\
   snd (fst (New "db/store" None w)) = Some (PathError "mkdir" "db" ENOTDIR) /\
   (exists p rest data,
      snd (fst (New "db/store" None w)) = Some (PathError "mkdir" p ENOTDIR) /\
      Clean "db/store" = p +++ "/" +++ rest /\
      lookup (locate (cwd (fs w)) p) (root (fs w)) = inr (File data)) /\
   dir (fst (fst (New "db/store" None w))) = Clean "db/store" /\
   fs (snd (New "db/store" None w)) = fs w).
Proof.
  split; intros w.
  - split; [reflexivity|]. split; [reflexivity|]. split; [reflexivity|].
    split; [reflexivity|]. split; [reflexivity|].
    apply (New_creates_root "./db" None w); reflexivity.
  - split; [reflexivity|]. split; [reflexivity|]. split; [reflexivity|].
    split; [reflexivity|]. split; [reflexivity|].
    apply (New_creates_root "db/store" None w); reflexivity.
Defined.



(** X17.  The driver [New] returns logs to the logger of the options,
    or to a console logger at level [INFO] when the options or their
    logger are nil; and whatever the environment does [New] logs one
    line, at level [DEBUG], to that logger: that the root already exists
    when its [Stat] of the root returned no error, that it is being
    created otherwise. *)
Theorem New_logs_once (x : string) (opt : option Options) (w : World) :
  let r := New x opt w in
  let l := match opt with
           | Some o => match opt_Logger o with
                       | Some l => l
                       | None => ConsoleLogger INFO
                       end
           | None => ConsoleLogger INFO
           end in
  log (fst (fst r)) = l /\
  logged (snd r)
  = logged w ++ [mkLog l DEBUG
                   (match snd (fst (os_Stat (Clean x) w)) with
                    | None => "%s already exists"
                    | Some _ => "creating %s database"
                    end) [Clean x]].
Proof.
  intros r l. subst r l. unfold New, bind. cbv beta iota.
  destruct (make_mutexes w) as [u w0] eqn:Em.
  assert (Hl0 : logged w0 = logged w) by (inversion Em; reflexivity).
  assert (Hst : fst (os_Stat (Clean x) w) = fst (os_Stat (Clean x) w0)).
  { inversion Em. unfold os_Stat, bind, syscall. cbn [faults fs].
    destruct (faults w) as [|[f|] rest]; cbv beta iota; try reflexivity;
      match goal with
      | |- context [at_path ?p ?t ?g] => destruct (at_path p t g) as [e|[a r']]
      end; reflexivity. }
  rewrite Hst. clear Em Hst.
  destruct (os_Stat_snd (Clean x) w0) as (e & Hs).
  destruct (os_Stat (Clean x) w0) as [[fi err] w1].
  change (w1 = advance w0 (CStat (Clean x)) e (root (fs w0))) in Hs.
  assert (Hl1 : logged w1 = logged w) by (subst w1; exact Hl0).
  clear Hs. cbn [fst snd].
  destruct err as [e1|].
  - unfold Debug, log_to. cbv beta iota.
    match goal with
    | |- context [os_MkdirAll ?p ?w2] =>
        destruct (os_MkdirAll_snd p w2) as (e2 & r2 & Hs2 & _);
        destruct (os_MkdirAll p w2) as [err2 w3];
        change (w3 = advance w2 (CMkdirAll p) e2 r2) in Hs2
    end.
    subst w3. cbn [ret fst snd]. simpl. rewrite Hl1.
    split; destruct opt as [[[?|]]|]; reflexivity.
  - unfold Debug, log_to, ret. cbv beta iota. cbn [fst snd]. simpl. rewrite Hl1.
    split; destruct opt as [[[?|]]|]; reflexivity.
Qed.

(** X18.  Where the key names a directory, [Delete] returns the error
    of [RemoveAll]: with plain names, an undisturbed probe and a removal
    the environment makes fail, [Delete] returns an error with the error
    number of the failure, whatever the removal had taken away before it
    failed; the working directory and every regular file outside the
    directory are as before.  (Where the probe reports a regular file
    the error of [RemoveAll] is dropped.) *)
Theorem Delete_directory_reports_failure (d : Driver) (c k : string) (w : World)
    (es : entries_t) (f : fault) (rest : list (option fault)) :
  dir d <> "" -> plain c = true -> plain k = true ->
  faults w = None :: Some f :: rest ->
  lookup (locate (cwd (fs w)) (collection_path d c +++ "/" +++ k)) (root (fs w))
  = inr (Dir es) ->
  let r := Delete d c k w in
  (exists err, fst r = Some err /\ errno_of (Some err) = Some (fault_errno f)) /\
  faults (snd r) = rest /\
  cwd (fs (snd r)) = cwd (fs w) /\
  forall q,
    is_prefix (locate (cwd (fs w)) (collection_path d c +++ "/" +++ k)) q = false ->
    file_at q (root (fs (snd r))) = file_at q (root (fs w)).
Proof.
  intros Hd Hc Hk Hf Hl r. subst r.
  destruct (target_plain d c k Hd Hc Hk) as (HT & _).
  destruct (target_located (cwd (fs w)) d c k Hd Hc Hk) as (Hreal & _ & _ & Lb & _).
  rewrite (bare_located _ d c k Hd Hk) in *. rewrite <- Lb in *. clear Lb.
  unfold Delete, doDelete, bind. fold (target d c k). rewrite HT.
  destruct (getMutex c w) as [u w0] eqn:Em. cbv beta iota.
  apply getMutex_inv in Em as (Hfs0 & Hf0 & _). rewrite Hf in Hf0.
  rewrite <- Hfs0 in *. clear Hfs0 Hf. revert Hf0 Hl. generalize w0. clear w w0.
  intros w Hf Hl.
  unfold stat, bind.
  rewrite (os_Stat_calm_found _ w (Dir es));
    [| unfold calm; rewrite Hf; exact I | apply Clean_not_empty | exact Hl].
  cbv beta iota. change (os_IsNotExist None) with false. cbv beta iota.
  unfold ret. cbv beta iota. cbn [IsDir is_dir]. cbv iota.
  set (T := Clean (dir d +++ "/" +++ c +++ "/" +++ k)) in *.
  set (w1 := advance w (CStat T) None (root (fs w))).
  assert (Hf1 : faults w1 = Some f :: rest).
  { change (faults w1) with (tl (faults w)). rewrite Hf. reflexivity. }
  assert (Hfs1 : fs w1 = fs w) by apply fs_advance_same.
  assert (HTne : T <> "") by apply Clean_not_empty.
  assert (HTd : ends_with_dot T = false).
  { apply ends_with_dot_Clean. exact Hreal. }
  destruct (os_RemoveAll_forced T w1 f rest HTne HTd Hf1) as (Hres & Hrest).
  destruct (os_RemoveAll_kept T w1) as (_ & _ & Hcwd & Hframe).
  rewrite Hfs1 in Hcwd, Hframe.
  split; [|split; [exact Hrest | split; [exact Hcwd | exact Hframe]]].
  eexists. split; [exact Hres | reflexivity].
Qed.

(** Permission to remove [db/users/42/x.json] is granted, permission to
    remove the directory [db/users/42] is not: [Delete] says so, and the
    directory is empty. *)
Lemma Delete_directory_reports_failure_witness :
  let w := world nested [None; Some (FailAfter 1 EACCES)] in
  dir db <> "" /\ plain "users" = true /\ plain "42" = true /\
  faults w = None :: Some (FailAfter 1 EACCES) :: [] /\
  lookup (locate (cwd (fs w)) (collection_path db "users" +++ "/" +++ "42")) (root (fs w))
  = inr (Dir [("x.json", File ("false" +++ newline))]) /\
  let r := Delete db "users" "42" w in
  lookup (locate (cwd (fs w)) (collection_path db "users" +++ "/" +++ "42"))
    (root (fs (snd r))) = inr (Dir []) /\
  (exists err, fst r = Some err /\
               errno_of (Some err) = Some (fault_errno (FailAfter 1 EACCES))) /\
  faults (snd r) = [] /\
  cwd (fs (snd r)) = cwd (fs w) /\
  forall q,
    is_prefix (locate (cwd (fs w)) (collection_path db "users" +++ "/" +++ "42")) q = false ->
    file_at q (root (fs (snd r))) = file_at q (root (fs w)).
Proof.
  intros w. split; [discriminate|]. split; [reflexivity|]. split; [reflexivity|].
  split; [reflexivity|]. split; [reflexivity|]. intros r. split; [reflexivity|].
  apply (Delete_directory_reports_failure db "users" "42" w
           [("x.json", File ("false" +++ newline))] (FailAfter 1 EACCES) []);
    (reflexivity || discriminate).
Defined.

(** X19.  [Delete] and [Update] check no argument.  Undisturbed, with an
    empty collection and an empty key, where the root of the store is a
    directory whose path ends in a name, [Delete] removes the root with
    everything below it and returns no error; and after an [Update], be
    its result what it may, no regular file is left below the root but
    for what it wrote itself under the names [.json] and [.json.tmp]. *)
Theorem empty_arguments_remove_store {Value : Type}
    (enc : Value -> string -> string -> string * option error)
    (d : Driver) (v : Value) (w : World) (es : entries_t) :
  faults w = [] -> real (base_name (dir d)) = true ->
  lookup (locate (cwd (fs w)) (dir d)) (root (fs w)) = inr (Dir es) ->
  (fst (Delete d "" "" w) = None /\
   forall q, lookup (locate (cwd (fs w)) (dir d) ++ q)
               (root (fs (snd (Delete d "" "" w)))) = inl ENOENT) /\
  (forall c q, c <> ".json" -> c <> ".json.tmp" ->
               file_at (locate (cwd (fs w)) (dir d) ++ c :: q)
                 (root (fs (snd (Update enc d "" "" v w)))) = None).
Proof.
  intros Hq Hreal Hl.
  assert (Hd : dir d <> "").
  { apply real_not_empty in Hreal. intros E. rewrite E in Hreal. auto. }
  destruct (doDelete_root d w es Hq Hreal Hl) as (Hres & Hcwd & Hgone).
  split; [split; assumption|].
  intros c q Hc1 Hc2. unfold Update, bind.
  destruct (doDelete d "" "" w) as [err w1]. cbn [fst snd] in Hres, Hcwd, Hgone.
  subst err. cbv beta iota.
  destruct (fnlPath_child (cwd (fs w1)) d "" "" Hd eq_refl) as (Lf & Lt).
  unfold collection_path in Lf, Lt.
  rewrite (locate_trailing_sep _ (dir d) Hd) in Lf, Lt.
  destruct (doWrite_frame enc d "" "" v w1 (locate (cwd (fs w)) (dir d) ++ c :: q))
    as (_ & Hfile).
  - rewrite Lf, Hcwd. apply is_prefix_sibling. intros E. apply Hc1. symmetry. exact E.
  - rewrite Lt, Hcwd. apply is_prefix_sibling. intros E. apply Hc2. symmetry. exact E.
  - rewrite Hfile. unfold file_at. rewrite Hgone. reflexivity.
Qed.

(** The store with its one record is gone. *)
Lemma empty_arguments_remove_store_witness :
  let w := world one_record [] in
  faults w = [] /\ real (base_name (dir db)) = true /\
  lookup (locate (cwd (fs w)) (dir db)) (root (fs w))
  = inr (Dir [("users", Dir [("42.json", File ("true" +++ newline))])]) /\
  root (fs (snd (Delete db "" "" w))) = Dir [("home", Dir [])] /\
  root (fs (snd (Update encode db "" "" true w)))
  = Dir [("home", Dir [("db", Dir [(".json", File ("true" +++ newline))])])] /\
  (fst (Delete db "" "" w) = None /\
   forall q, lookup (locate (cwd (fs w)) (dir db) ++ q)
               (root (fs (snd (Delete db "" "" w)))) = inl ENOENT) /\
  (forall c q, c <> ".json" -> c <> ".json.tmp" ->
               file_at (locate (cwd (fs w)) (dir db) ++ c :: q)
                 (root (fs (snd (Update encode db "" "" true w)))) = None).
Proof.
  intros w. split; [reflexivity|]. split; [reflexivity|]. split; [reflexivity|].
  split; [reflexivity|]. split; [reflexivity|].
  apply (empty_arguments_remove_store encode db true w
           [("users", Dir [("42.json", File ("true" +++ newline))])]);
    reflexivity.
Defined.

(** X20.  Undisturbed, with a path of the collection within the limits
    of the system and a working directory that is one, where a regular
    file lies on the way to the directory of the collection, or in its
    place, a [Write] that passes the argument checks returns the key
    with the error of [MkdirAll], not a directory, which names that
    file, and changes nothing. *)
Theorem Write_collection_blocked {Value : Type}
    (enc : Value -> string -> string -> string * option error)
    (d : Driver) (c k : string) (v : Value) (w : World) :
  faults w = [] -> dir d <> "" -> c <> "" -> k <> "" ->
  fits (Join [dir d; c]) = true -> is_dir_at "." (fs w) = true ->
  clear_way (locate (cwd (fs w)) (collection_path d c)) (root (fs w)) = false ->
  let r := Write enc d c k v w in
  (exists p sfx data,
     fst r = (k, Some (PathError "mkdir" p ENOTDIR)) /\
     Join [dir d; c] = p +++ sfx /\
     (sfx = "" \/ exists rest, sfx = "/" +++ rest) /\
     lookup (locate (cwd (fs w)) p) (root (fs w)) = inr (File data)) /\
  fs (snd r) = fs w.
Proof.
  intros Hq Hd Hc Hk _ Hwd Hway r. subst r.
  pose proof (collection_located (cwd (fs w)) d c Hd) as Lc.
  assert (HD : Join [dir d; c] <> "") by (apply Join_not_empty; assumption).
  apply is_dir_at_dot in Hwd as (es0 & Hwd).
  pose proof (clear_way_false _ _ Hway) as Hl. rewrite <- Lc in Hl.
  assert (HJ : Join [dir d; c] = Clean (join [dir d; c])) by (apply Join_cons; assumption).
  rewrite HJ in Hl.
  destruct (stops_at_Clean (fs w) _ es0 Hwd Hl)
    as (p & sfx & data & Hs & Hpre & Hsfx & Hfile).
  rewrite <- HJ in Hs, Hpre.
  unfold Write. apply String.eqb_neq in Hc, Hk. rewrite Hc, Hk.
  unfold doWrite, bind.
  destruct (getMutex_quiet c w Hq) as (Hfs0 & Hq0 & _).
  destruct (getMutex c w) as [u w0]. simpl in Hfs0, Hq0. cbv beta iota.
  rewrite os_MkdirAll_quiet by assumption.
  rewrite Hfs0, Lc, (clear_way_blocked _ _ Hway). cbv beta iota.
  unfold ret. cbn [fst snd]. split.
  - exists p, sfx, data. rewrite Hs. auto.
  - unfold advance. simpl. rewrite Hfs0. apply mkFS_eta.
Qed.

(** The root of the store is a regular file: [New] did not mind, [Write]
    does, and blames [db]. *)
Lemma Write_collection_blocked_witness :
  let w := world root_is_file [] in
  faults w = [] /\ dir db <> "" /\ "users" <> "" /\ "42" <> "" /\
  fits (Join [dir db; "users"]) = true /\ is_dir_at "." (fs w) = true /\
  clear_way (locate (cwd (fs w)) (collection_path db "users")) (root (fs w)) = false /\
  let r := Write encode db "users" "42" true w in
  fst r = ("42", Some (PathError "mkdir" "db" ENOTDIR)) /\
  (exists p sfx data,
     fst r = ("42", Some (PathError "mkdir" p ENOTDIR)) /\
     Join [dir db; "users"] = p +++ sfx /\
     (sfx = "" \/ exists rest, sfx = "/" +++ rest) /\
     lookup (locate (cwd (fs w)) p) (root (fs w)) = inr (File data)) /\
  fs (snd r) = fs w.
Proof.
  intros w. split; [reflexivity|]. split; [discriminate|]. split; [discriminate|].
  split; [discriminate|]. split; [reflexivity|]. split; [reflexivity|].
  split; [reflexivity|]. intros r. split; [reflexivity|].
  apply (Write_collection_blocked encode db "users" "42" true w);
    (reflexivity || discriminate).
Defined.

End Behaviour.
